(** * A shallow embedding of the job service (app/main.go)

    The service is a thin orchestration layer over a message queue (SQS)
    and an object store (S3).  The embedding follows the Go source
    function by function:

    - [Go]      : errors, panics and byte-string helpers of the language;
    - [Http]    : the part of [net/http] the handlers drive
                  ([ResponseWriter], [http.Error], the default mux);
    - [Uuid]    : [uuid.New().String()];
    - [Strings] : [strings.ToUpper];
    - [Aws]     : the two remote services as state ([World]) with the
                  outcome of every remote call chosen by the environment;
    - [Service] : [main], [healthz], [readyz], [createJob], [getJob],
                  [workerLoop] and [processMessage];
    - [GoJson]  : an executable model of [encoding/json] at the three
                  JSON shapes of the program, used to run the service on
                  concrete requests;
    - [GoUnicode] : [strings.Map] and [unicode.ToUpper] with the case
                  table of the Unicode Character Database.

    Handlers are written against the interface [Json], so that every
    general statement holds for whatever the JSON package does. *)

From Stdlib Require Import ZArith NArith Ascii String.
From stdpp Require Import gmap strings list fin_maps pretty.

Set Default Proof Using "Type".
Set Warnings "-register-all".

(* ===================================================================== *)
(** * Go: results, panics, byte strings                                   *)
(* ===================================================================== *)

Module Go.

(** A Go call returning [(T, error)]: [Err e] carries the error text. *)
Inductive Result (A : Type) : Type :=
| Ok (a : A)
| Err (e : string).
Global Arguments Ok {A} a.
Global Arguments Err {A} e.

Definition is_ok {A} (r : Result A) : bool :=
  match r with Ok _ => true | Err _ => false end.

(** [s[n:]] on a Go string: the bytes from index [n]; out of range it
    panics, which is [None] here. *)
Fixpoint slice_from (n : nat) (s : string) : option string :=
  match n with
  | O => Some s
  | S n' => match s with
            | EmptyString => None
            | String _ s' => slice_from n' s'
            end
  end.

Definition byte_val (c : ascii) : N := N_of_ascii c.

(** The line feed byte, written ["\n"] in Go. *)
Definition newline : string := String (ascii_of_N 10) EmptyString.

Fixpoint string_forallb (p : ascii → bool) (s : string) : bool :=
  match s with
  | EmptyString => true
  | String c s' => p c && string_forallb p s'
  end.

Fixpoint string_existsb (p : ascii → bool) (s : string) : bool :=
  match s with
  | EmptyString => false
  | String c s' => p c || string_existsb p s'
  end.

Fixpoint string_map (f : ascii → ascii) (s : string) : string :=
  match s with
  | EmptyString => EmptyString
  | String c s' => String (f c) (string_map f s')
  end.

(** [time.Time], as far as the program observes it: a wall-clock reading
    (seconds and nanoseconds since the Unix epoch) and the zone offset
    (seconds east of UTC) it is presented in. *)
Record Time : Type := mkTime {
  unix_sec : Z;
  nsec : Z;
  zone_offset : Z;
}.

End Go.
Export Go.

(* ===================================================================== *)
(** * net/http: what a handler does to its ResponseWriter                *)
(* ===================================================================== *)

Module Http.

Definition MethodGet : string := "GET".
Definition MethodPost : string := "POST".

Definition StatusOK : Z := 200.
Definition StatusCreated : Z := 201.
Definition StatusBadRequest : Z := 400.
Definition StatusNotFound : Z := 404.
Definition StatusMethodNotAllowed : Z := 405.
Definition StatusInternalServerError : Z := 500.
Definition StatusServiceUnavailable : Z := 503.

(** The fields of [*http.Request] the handlers read. *)
Record Request : Type := mkRequest {
  Method : string;
  Path : string;        (* r.URL.Path *)
  ReqBody : string;     (* the bytes r.Body yields *)
}.

(** The response as the client will see it.  [rw_code = None] until the
    status line is written; headers are frozen from then on. *)
Record ResponseWriter : Type := mkWriter {
  rw_header : gmap string string;
  rw_code : option Z;
  rw_body : string;
}.

Definition new_writer : ResponseWriter :=
  {| rw_header := ∅; rw_code := None; rw_body := "" |}.

Definition Header_Set (k v : string) (w : ResponseWriter) : ResponseWriter :=
  match rw_code w with
  | None => {| rw_header := <[k := v]> (rw_header w);
               rw_code := None; rw_body := rw_body w |}
  | Some _ => w
  end.

Definition Header_Del (k : string) (w : ResponseWriter) : ResponseWriter :=
  match rw_code w with
  | None => {| rw_header := delete k (rw_header w);
               rw_code := None; rw_body := rw_body w |}
  | Some _ => w
  end.

(** Only the first [WriteHeader] counts; later ones are superfluous. *)
Definition WriteHeader (code : Z) (w : ResponseWriter) : ResponseWriter :=
  match rw_code w with
  | None => {| rw_header := rw_header w; rw_code := Some code;
               rw_body := rw_body w |}
  | Some _ => w
  end.

(** [w.Write(data)]: writes the status line with 200 first if no
    [WriteHeader] came before. *)
Definition Write (data : string) (w : ResponseWriter) : ResponseWriter :=
  let w1 := WriteHeader StatusOK w in
  {| rw_header := rw_header w1; rw_code := rw_code w1;
     rw_body := rw_body w1 +:+ data |}.

(** [http.Error(w, msg, code)]. *)
Definition Error (w : ResponseWriter) (msg : string) (code : Z)
  : ResponseWriter :=
  let w1 := Header_Del "Content-Length" w in
  let w2 := Header_Set "Content-Type" "text/plain; charset=utf-8" w1 in
  let w3 := Header_Set "X-Content-Type-Options" "nosniff" w2 in
  Write (msg +:+ newline) (WriteHeader code w3).

(** The status the client receives: 200 when the handler returns without
    having written anything. *)
Definition status (w : ResponseWriter) : Z :=
  match rw_code w with Some c => c | None => StatusOK end.

End Http.

(* ===================================================================== *)
(** * github.com/google/uuid: New().String()                             *)
(* ===================================================================== *)

Module Uuid.

(** A UUID is 16 bytes; [rnd] is what the random source delivered, read
    big-endian, so byte [i] is digit [15 - i] in base 256. *)
Definition byte_at (rnd : N) (i : N) : N :=
  (N.shiftr rnd (8 * (15 - i))) mod 256.

(** [NewRandom]: 16 random bytes with the version (4) and variant (10)
    bits forced. *)
Definition uuid_byte (rnd : N) (i : N) : N :=
  let b := byte_at rnd i in
  if (i =? 6)%N then N.lor (N.land b 15) 64
  else if (i =? 8)%N then N.lor (N.land b 63) 128
  else b.

Definition hexdigit (n : N) : ascii :=
  if (n <? 10)%N then ascii_of_N (48 + n) else ascii_of_N (87 + n).

Definition hex2 (b : N) : string :=
  String (hexdigit (b / 16)) (String (hexdigit (b mod 16)) EmptyString).

Fixpoint hex_bytes (rnd : N) (from : N) (count : nat) : string :=
  match count with
  | O => EmptyString
  | S k => hex2 (uuid_byte rnd from) +:+ hex_bytes rnd (from + 1) k
  end.

(** [UUID.String]: xxxxxxxx-xxxx-xxxx-xxxx-xxxxxxxxxxxx. *)
Definition to_string (rnd : N) : string :=
  hex_bytes rnd 0 4 +:+ "-" +:+ hex_bytes rnd 4 2 +:+ "-" +:+
  hex_bytes rnd 6 2 +:+ "-" +:+ hex_bytes rnd 8 2 +:+ "-" +:+
  hex_bytes rnd 10 6.

Definition is_hex (c : ascii) : bool :=
  let n := N_of_ascii c in
  ((48 <=? n) && (n <=? 57) || (97 <=? n) && (n <=? 102))%N.

(** Syntax of the canonical text form: 36 bytes, dashes at 8, 13, 18 and
    23, lower-case hexadecimal digits elsewhere. *)
Fixpoint well_formed_from (i : nat) (s : string) : bool :=
  match s with
  | EmptyString => Nat.eqb i 36
  | String c s' =>
      (if (Nat.eqb i 8 || Nat.eqb i 13 || Nat.eqb i 18 || Nat.eqb i 23)%bool
       then Ascii.eqb c "-" else is_hex c)
      && well_formed_from (S i) s'
  end.

Definition well_formed (s : string) : bool := well_formed_from 0 s.

End Uuid.

(* ===================================================================== *)
(** * strings.ToUpper                                                     *)
(* ===================================================================== *)

(** The package [unicode] is outside the repository: its upper-case
    mapping of a string that holds a byte >= 0x80 is an interface member,
    instantiated in [GoUnicode] below. *)
Class Unicode : Type := {
  strings_Map_unicode_ToUpper : string → string;
}.

Module Strings.

Definition RuneSelf : N := 128.

Definition is_ascii_byte (c : ascii) : bool := (byte_val c <? RuneSelf)%N.

Definition is_lower (c : ascii) : bool :=
  ((97 <=? byte_val c) && (byte_val c <=? 122))%N.

(** [c -= 'a' - 'A'] on a lower-case byte, other bytes unchanged. *)
Definition upper_byte (c : ascii) : ascii :=
  if is_lower c then ascii_of_N (byte_val c - 32) else c.

(** [strings.ToUpper]: the ASCII-only fast path is byte arithmetic; any
    other string goes through [Map(unicode.ToUpper, s)]. *)
Definition ToUpper `{Unicode} (s : string) : string :=
  let isASCII := string_forallb is_ascii_byte s in
  let hasLower := string_existsb is_lower s in
  if isASCII then
    if negb hasLower then s else string_map upper_byte s
  else strings_Map_unicode_ToUpper s.

End Strings.

(* ===================================================================== *)
(** * The three JSON shapes and the encoding/json interface               *)
(* ===================================================================== *)

Record JobRequest : Type := mkJobRequest {
  req_Text : string;
}.

Record JobMessage : Type := mkJobMessage {
  msg_ID : string;
  msg_Text : string;
}.

Record JobResult : Type := mkJobResult {
  ID : string;
  Text : string;
  Output : string;
  ProcessedAt : Time;
}.

(** The calls the program makes into [encoding/json], one member per call
    site and Go type.  [Decode] is [json.NewDecoder(r).Decode(&v)] on a
    zero [v]; [Unmarshal] is [json.Unmarshal(data, &v)]; [Marshal] is
    [json.Marshal(v)]. *)
Class Json : Type := {
  json_Decode_JobRequest : string → Result JobRequest;
  json_Marshal_JobMessage : JobMessage → Result string;
  json_Unmarshal_JobMessage : string → Result JobMessage;
  json_Marshal_JobResult : JobResult → Result string;
  json_Decode_JobResult : string → Result JobResult;
  (* json.Marshal(map[string]string{"id": v}) *)
  json_Marshal_id_map : string → Result string;
}.

(* ===================================================================== *)
(** * The two remote services                                             *)
(* ===================================================================== *)

Module Aws.

(** [types.Message]: both fields are [*string] in the SDK. *)
Record Message : Type := mkMessage {
  Body : option string;
  ReceiptHandle : option string;
}.

Record Object : Type := mkObject {
  obj_body : string;
  obj_content_type : string;
}.

(** What crosses the boundary of the process, in the order it happens. *)
Inductive Event : Type :=
| EvSendMessage (url body : string) (ok : bool)
| EvReceiveMessage (url : string) (got : Result (list Message))
| EvDeleteMessage (url : string) (handle : option string) (ok : bool)
| EvPutObject (bucket key body : string) (ok : bool)
| EvGetObject (bucket key : string) (ok : bool)
| EvLog (line : string)
| EvSleep (seconds : Z).

(** The state outside the process: queues by URL, objects by bucket and
    key, a counter for receipt handles, and the event history. *)
Record World : Type := mkWorld {
  queues : gmap string (list Message);
  objects : gmap (string * string) Object;
  next_receipt : nat;
  events : list Event;
}.

(** A computation either finishes with a value or panics; the world it
    leaves behind is kept in both cases. *)
Inductive Outcome (A : Type) : Type :=
| Done (a : A) (w : World)
| Panicked (msg : string) (w : World).
Global Arguments Done {A} a w.
Global Arguments Panicked {A} msg w.

Definition M (A : Type) : Type := World → Outcome A.

Definition ret {A} (a : A) : M A := λ w, Done a w.

Definition bind {A B} (m : M A) (k : A → M B) : M B :=
  λ w, match m w with
       | Done a w' => k a w'
       | Panicked msg w' => Panicked msg w'
       end.

Definition panic {A} (msg : string) : M A := λ w, Panicked msg w.

Definition emit (e : Event) : M unit :=
  λ w, Done tt {| queues := queues w; objects := objects w;
                  next_receipt := next_receipt w;
                  events := events w ++ [e] |}.

Definition world_of {A} (o : Outcome A) : World :=
  match o with Done _ w => w | Panicked _ w => w end.

Definition nil_deref : string :=
  "invalid memory address or nil pointer dereference".

(** The SDK clients are opaque; the program only tests them against nil
    and calls through them. *)
Record Config : Type := mkConfig { cfg_region : string }.
Record SQSClient : Type := mkSQS { sqs_cfg : Config }.
Record S3Client : Type := mkS3 { s3_cfg : Config }.

Definition sqs_NewFromConfig (cfg : Config) : option SQSClient :=
  Some (mkSQS cfg).
Definition s3_NewFromConfig (cfg : Config) : option S3Client :=
  Some (mkS3 cfg).

Definition set_queue (url : string) (q : list Message) (w : World) : World :=
  {| queues := <[url := q]> (queues w); objects := objects w;
     next_receipt := next_receipt w; events := events w |}.

Definition receipt_of (n : nat) : string := "rh-" +:+ pretty n.

(** [SendMessage]: [fault] is the failure the environment decides on
    ([None]: the service is reachable).  A delivered message is appended
    to the queue named by the URL. *)
Definition SendMessage (c : option SQSClient) (url body : string)
    (fault : option string) : M (Result unit) :=
  match c with
  | None => panic nil_deref
  | Some _ =>
      λ w,
      match fault with
      | Some e => bind (emit (EvSendMessage url body false))
                       (λ _, ret (Err e)) w
      | None =>
          match queues w !! url with
          | None => bind (emit (EvSendMessage url body false))
                         (λ _, ret (Err "QueueDoesNotExist")) w
          | Some q =>
              let m := {| Body := Some body;
                          ReceiptHandle := Some (receipt_of (next_receipt w)) |} in
              let w1 := {| queues := <[url := q ++ [m]]> (queues w);
                           objects := objects w;
                           next_receipt := S (next_receipt w);
                           events := events w |} in
              bind (emit (EvSendMessage url body true))
                   (λ _, ret (Ok tt)) w1
          end
      end
  end.

(** The messages at the chosen positions of a queue. *)
Definition pick_messages (q : list Message) (picks : list nat)
  : list Message :=
  omap (λ i, q !! i) picks.

(** [ReceiveMessage]: the environment either fails the call or chooses
    which queued messages to deliver ([picks], positions in the queue);
    at most [max] of them are returned.  Delivery does not remove a
    message: it stays in the queue until it is deleted, which is the
    at-least-once contract. *)
Definition ReceiveMessage (c : option SQSClient) (url : string) (max : nat)
    (choice : Result (list nat)) : M (Result (list Message)) :=
  match c with
  | None => panic nil_deref
  | Some _ =>
      λ w,
      let got :=
        match choice with
        | Err e => Err e
        | Ok picks =>
            match queues w !! url with
            | None => Err "QueueDoesNotExist"
            | Some q => Ok (take max (pick_messages q picks))
            end
        end in
      bind (emit (EvReceiveMessage url got)) (λ _, ret got) w
  end.

Definition has_handle (h : string) (m : Message) : bool :=
  bool_decide (ReceiptHandle m = Some h).

(** [DeleteMessage]: removes the messages carrying the receipt handle. *)
Definition DeleteMessage (c : option SQSClient) (url : string)
    (handle : option string) (fault : option string) : M (Result unit) :=
  match c with
  | None => panic nil_deref
  | Some _ =>
      λ w,
      match fault, handle, queues w !! url with
      | Some e, _, _ =>
          bind (emit (EvDeleteMessage url handle false)) (λ _, ret (Err e)) w
      | None, None, _ =>
          bind (emit (EvDeleteMessage url handle false))
               (λ _, ret (Err "missing required field, ReceiptHandle")) w
      | None, Some _, None =>
          bind (emit (EvDeleteMessage url handle false))
               (λ _, ret (Err "QueueDoesNotExist")) w
      | None, Some h, Some q =>
          bind (emit (EvDeleteMessage url handle true))
               (λ _, ret (Ok tt))
               (set_queue url (filter (λ m, has_handle h m = false) q) w)
      end
  end.

(** [PutObject]: creates or replaces the object at the key. *)
Definition PutObject (c : option S3Client) (bucket key body ctype : string)
    (fault : option string) : M (Result unit) :=
  match c with
  | None => panic nil_deref
  | Some _ =>
      λ w,
      match fault with
      | Some e =>
          bind (emit (EvPutObject bucket key body false)) (λ _, ret (Err e)) w
      | None =>
          let w1 := {| queues := queues w;
                       objects := <[(bucket, key) :=
                                      {| obj_body := body;
                                         obj_content_type := ctype |}]>
                                    (objects w);
                       next_receipt := next_receipt w;
                       events := events w |} in
          bind (emit (EvPutObject bucket key body true)) (λ _, ret (Ok tt)) w1
      end
  end.

(** [GetObject]: fails when the environment says so or when there is no
    object at the key; otherwise yields the stored bytes. *)
Definition GetObject (c : option S3Client) (bucket key : string)
    (fault : option string) : M (Result string) :=
  match c with
  | None => panic nil_deref
  | Some _ =>
      λ w,
      match fault, objects w !! (bucket, key) with
      | Some e, _ =>
          bind (emit (EvGetObject bucket key false)) (λ _, ret (Err e)) w
      | None, None =>
          bind (emit (EvGetObject bucket key false))
               (λ _, ret (Err "NoSuchKey")) w
      | None, Some o =>
          bind (emit (EvGetObject bucket key true))
               (λ _, ret (Ok (obj_body o))) w
      end
  end.

Definition log_Printf (line : string) : M unit := emit (EvLog line).

Definition time_Sleep (seconds : Z) : M unit := emit (EvSleep seconds).

End Aws.
Export Aws.

Global Instance M_ret : MRet M := @ret.
Global Instance M_bind : MBind M := λ A B k m, bind m k.

(* ===================================================================== *)
(** * The service: app/main.go                                            *)
(* ===================================================================== *)

Module Service.

Record App : Type := mkApp {
  sqsClient : option SQSClient;
  s3Client : option S3Client;
  sqsURL : string;
  s3Bucket : string;
}.

(** How [main] ends up: [log.Fatal] exits the process, otherwise the
    server is serving with the worker started or not. *)
Inductive Startup : Type :=
| Fatal (msg : string)
| Serving (app : App) (workerEnabled : bool).

(** [main].  The environment variables, the SDK's configuration loader
    and the result of binding the listening socket are inputs. *)
Definition main (getenv : string → string)
    (LoadDefaultConfig : string → Result Config)
    (listen_error : option string) : Startup :=
  let region := getenv "AWS_REGION" in
  let region := if decide (region = "") then "us-east-1" else region in
  match LoadDefaultConfig region with
  | Err e => Fatal ("failed to load AWS config: " +:+ e)
  | Ok cfg =>
      let sqsURL := getenv "SQS_QUEUE_URL" in
      if decide (sqsURL = "") then
        Fatal "SQS_QUEUE_URL environment variable is required"
      else
        let s3Bucket := getenv "S3_BUCKET" in
        if decide (s3Bucket = "") then
          Fatal "S3_BUCKET environment variable is required"
        else
          let app := {| sqsClient := sqs_NewFromConfig cfg;
                        s3Client := s3_NewFromConfig cfg;
                        sqsURL := sqsURL;
                        s3Bucket := s3Bucket |} in
          let workerEnabled := bool_decide (getenv "WORKER_ENABLED" = "true") in
          match listen_error with
          | Some e => Fatal ("server failed: " +:+ e)
          | None => Serving app workerEnabled
          end
  end.

Definition healthz (a : App) (w : Http.ResponseWriter) (r : Http.Request)
  : Http.ResponseWriter :=
  if negb (bool_decide (Http.Method r = Http.MethodGet)) then
    Http.Error w "method not allowed" Http.StatusMethodNotAllowed
  else
    Http.Write "ok" (Http.WriteHeader Http.StatusOK w).

Definition readyz (a : App) (w : Http.ResponseWriter) (r : Http.Request)
  : Http.ResponseWriter :=
  if negb (bool_decide (Http.Method r = Http.MethodGet)) then
    Http.Error w "method not allowed" Http.StatusMethodNotAllowed
  else if bool_decide (sqsClient a = None) || bool_decide (s3Client a = None)
  then
    Http.Error w "not ready" Http.StatusServiceUnavailable
  else
    Http.Write "ready" (Http.WriteHeader Http.StatusOK w).

(** [fmt.Sprintf("jobs/%s.json", id)]. *)
Definition job_key (id : string) : string := "jobs/" +:+ id +:+ ".json".

(** [json.NewEncoder(w).Encode(v)]: on success the encoding and a line
    feed are written; the handlers drop the error. *)
Definition Encode_to (w : Http.ResponseWriter) (encoded : Result string)
  : Http.ResponseWriter :=
  match encoded with
  | Ok s => Http.Write (s +:+ newline) w
  | Err _ => w
  end.

Section Handlers.
Context `{Json} `{Unicode}.

(** [createJob].  [rnd] is what the random source gives [uuid.New]
    ([None]: the read fails and [uuid.New] panics); [send_fault] is the
    failure of [SendMessage], if the environment decides on one. *)
Definition createJob (a : App) (rnd : option N) (send_fault : option string)
    (w : Http.ResponseWriter) (r : Http.Request) : M Http.ResponseWriter :=
  if negb (bool_decide (Http.Method r = Http.MethodPost)) then
    mret (Http.Error w "method not allowed" Http.StatusMethodNotAllowed)
  else
    match json_Decode_JobRequest (Http.ReqBody r) with
    | Err _ => mret (Http.Error w "invalid JSON" Http.StatusBadRequest)
    | Ok req =>
        match rnd with
        | None => panic "uuid: cannot read random bytes"
        | Some bytes =>
            let jobID := Uuid.to_string bytes in
            let message := {| msg_ID := jobID; msg_Text := req_Text req |} in
            match json_Marshal_JobMessage message with
            | Err _ =>
                mret (Http.Error w "failed to encode message"
                        Http.StatusInternalServerError)
            | Ok messageBody =>
                sent ← SendMessage (sqsClient a) (sqsURL a) messageBody
                         send_fault;
                match sent with
                | Err err =>
                    log_Printf ("failed to send message: " +:+ err);;
                    mret (Http.Error w "failed to send message"
                            Http.StatusInternalServerError)
                | Ok _ =>
                    let w1 := Http.Header_Set "Content-Type"
                                "application/json" w in
                    let w2 := Http.WriteHeader Http.StatusCreated w1 in
                    mret (Encode_to w2 (json_Marshal_id_map jobID))
                end
            end
        end
    end.

(** [getJob].  [get_fault] is the failure of [GetObject] other than a
    missing key, if the environment decides on one. *)
Definition getJob (a : App) (get_fault : option string)
    (w : Http.ResponseWriter) (r : Http.Request) : M Http.ResponseWriter :=
  if negb (bool_decide (Http.Method r = Http.MethodGet)) then
    mret (Http.Error w "method not allowed" Http.StatusMethodNotAllowed)
  else
    match slice_from (String.length "/jobs/") (Http.Path r) with
    | None => panic "slice bounds out of range"
    | Some jobID =>
        if bool_decide (jobID = "") then
          mret (Http.Error w "job id required" Http.StatusBadRequest)
        else
          let key := job_key jobID in
          result ← GetObject (s3Client a) (s3Bucket a) key get_fault;
          match result with
          | Err _ => mret (Http.Error w "job not found" Http.StatusNotFound)
          | Ok body =>
              match json_Decode_JobResult body with
              | Err _ =>
                  mret (Http.Error w "failed to decode job"
                          Http.StatusInternalServerError)
              | Ok jobResult =>
                  let w1 := Http.Header_Set "Content-Type"
                              "application/json" w in
                  mret (Encode_to w1 (json_Marshal_JobResult jobResult))
              end
          end
    end.

(** [processMessage].  [now] is the reading of [time.Now()]; [put_fault]
    is the failure of [PutObject], if any.  The returned [error] is
    [Ok tt] for nil. *)
Definition processMessage (a : App) (now : Time) (put_fault : option string)
    (message : Message) : M (Result unit) :=
  match Body message with
  | None => panic nil_deref
  | Some body =>
      match json_Unmarshal_JobMessage body with
      | Err err => mret (Err ("failed to unmarshal message: " +:+ err))
      | Ok jobMsg =>
          let output := Strings.ToUpper (msg_Text jobMsg) in
          let jobResult := {| ID := msg_ID jobMsg;
                              Text := msg_Text jobMsg;
                              Output := output;
                              ProcessedAt := now |} in
          match json_Marshal_JobResult jobResult with
          | Err err => mret (Err ("failed to marshal result: " +:+ err))
          | Ok resultBody =>
              let key := job_key (msg_ID jobMsg) in
              put ← PutObject (s3Client a) (s3Bucket a) key resultBody
                      "application/json" put_fault;
              match put with
              | Err err => mret (Err ("failed to put object: " +:+ err))
              | Ok _ => mret (Ok tt)
              end
          end
      end
  end.

(** What the environment decides while one received message is handled. *)
Record MessageEnv : Type := mkMessageEnv {
  now : Time;
  put_fault : option string;
  delete_fault : option string;
}.

(** The body of [for _, message := range result.Messages]. *)
Definition handle_message (a : App) (e : MessageEnv) (message : Message)
  : M unit :=
  processed ← processMessage a (now e) (put_fault e) message;
  match processed with
  | Err err => log_Printf ("failed to process message: " +:+ err)
  | Ok _ =>
      deleted ← DeleteMessage (sqsClient a) (sqsURL a)
                  (ReceiptHandle message) (delete_fault e);
      match deleted with
      | Err err => log_Printf ("failed to delete message: " +:+ err)
      | Ok _ => mret tt
      end
  end.

Fixpoint range_messages (a : App) (envs : nat → MessageEnv) (i : nat)
    (messages : list Message) : M unit :=
  match messages with
  | [] => mret tt
  | message :: rest =>
      handle_message a (envs i) message;;
      range_messages a envs (S i) rest
  end.

(** What the environment decides during one turn of the outer loop: the
    outcome of the receive and, per delivered message, a [MessageEnv]. *)
Record IterationEnv : Type := mkIterationEnv {
  receive : Result (list nat);
  message_env : nat → MessageEnv;
}.

(** One turn of the [for { ... }] of [workerLoop]. *)
Definition workerLoop_iteration (a : App) (e : IterationEnv) : M unit :=
  result ← ReceiveMessage (sqsClient a) (sqsURL a) 1 (receive e);
  match result with
  | Err err =>
      log_Printf ("failed to receive message: " +:+ err);;
      time_Sleep 5
  | Ok messages => range_messages a (message_env e) 0 messages
  end.

(** [workerLoop] never returns; its runs are the turns taken so far, one
    per element of the script. *)
Fixpoint workerLoop (a : App) (script : list IterationEnv) : M unit :=
  match script with
  | [] => mret tt
  | e :: rest => workerLoop_iteration a e;; workerLoop a rest
  end.

(** The default mux with the four patterns [main] registers: exact
    matches, and the subtree pattern ["/jobs/"]. *)
Inductive Route : Type :=
| RouteHealthz | RouteReadyz | RouteCreateJob | RouteGetJob | RouteNone.

Definition route (path : string) : Route :=
  if bool_decide (path = "/healthz") then RouteHealthz
  else if bool_decide (path = "/readyz") then RouteReadyz
  else if bool_decide (path = "/jobs") then RouteCreateJob
  else if String.prefix "/jobs/" path then RouteGetJob
  else RouteNone.

(** What the environment decides while one request is served. *)
Record RequestEnv : Type := mkRequestEnv {
  rand_bytes : option N;
  send_fault : option string;
  get_fault : option string;
}.

Definition serveHTTP (a : App) (e : RequestEnv) (r : Http.Request)
  : M Http.ResponseWriter :=
  match route (Http.Path r) with
  | RouteHealthz => mret (healthz a Http.new_writer r)
  | RouteReadyz => mret (readyz a Http.new_writer r)
  | RouteCreateJob =>
      createJob a (rand_bytes e) (send_fault e) Http.new_writer r
  | RouteGetJob => getJob a (get_fault e) Http.new_writer r
  | RouteNone =>
      mret (Http.Error Http.new_writer "404 page not found"
              Http.StatusNotFound)
  end.

(** The running process: the [App] built by [main], whether the worker
    goroutine exists, whether the process is still alive, and the world
    outside. *)
Record System : Type := mkSystem {
  sys_app : App;
  sys_worker : bool;
  sys_alive : bool;
  sys_world : World;
}.

(** A panic in a handler is recovered by the server; a panic in the
    worker goroutine ends the process. *)
Inductive step : System → System → Prop :=
| step_request s e r :
    sys_alive s = true →
    step s {| sys_app := sys_app s; sys_worker := sys_worker s;
              sys_alive := true;
              sys_world := world_of (serveHTTP (sys_app s) e r (sys_world s)) |}
| step_worker s e :
    sys_alive s = true →
    sys_worker s = true →
    step s {| sys_app := sys_app s; sys_worker := sys_worker s;
              sys_alive :=
                match workerLoop_iteration (sys_app s) e (sys_world s) with
                | Done _ _ => true
                | Panicked _ _ => false
                end;
              sys_world :=
                world_of (workerLoop_iteration (sys_app s) e (sys_world s)) |}.

(** The process right after [main] reached [ListenAndServe]: nothing has
    been stored and nothing has happened yet; the queues are arbitrary. *)
Definition started (s : System) : Prop :=
  ∃ getenv load,
    main getenv load None = Serving (sys_app s) (sys_worker s) ∧
    sys_alive s = true ∧
    objects (sys_world s) = ∅ ∧
    events (sys_world s) = [].

Inductive reachable : System → Prop :=
| reachable_start s : started s → reachable s
| reachable_step s s' : reachable s → step s s' → reachable s'.

End Handlers.

End Service.

(* ===================================================================== *)
(** * encoding/json at the shapes of the program                          *)
(* ===================================================================== *)

(** An executable model of the package, written from its documented
    behaviour: the JSON grammar of RFC 8259 with Go's nesting limit, the
    stream decoder that reads one value and leaves the rest of the input
    alone, [Unmarshal] that insists on exactly one value, case-insensitive
    matching of object keys to struct fields, [null] as a no-op, and the
    encoder's escaping (HTML-safe, invalid UTF-8 replaced).  Timestamps
    are read in the canonical RFC 3339 form only. *)
Module GoJson.

Definition byte (n : N) : ascii := ascii_of_N n.
Definition bv (c : ascii) : N := N_of_ascii c.

Definition in_range (lo hi : N) (c : ascii) : bool :=
  ((lo <=? bv c) && (bv c <=? hi))%N.

(** ** unicode/utf8 *)

Definition RuneError : N := 65533.

Definition is_cont (c : ascii) : bool := in_range 128 191 c.

Definition low6 (c : ascii) : N := N.land (bv c) 63.

(** [utf8.DecodeRune]: the rune at the head of [s] and its width; an
    invalid or truncated encoding is [RuneError] of width 1. *)
Definition DecodeRune (s : string) : N * nat :=
  match s with
  | EmptyString => (RuneError, 0)
  | String b0 t =>
      if (bv b0 <? 128)%N then (bv b0, 1)
      else if in_range 194 223 b0 then
        match t with
        | String b1 _ =>
            if is_cont b1
            then (N.lor (N.shiftl (N.land (bv b0) 31) 6) (low6 b1), 2)
            else (RuneError, 1)
        | _ => (RuneError, 1)
        end
      else if in_range 224 239 b0 then
        match t with
        | String b1 (String b2 _) =>
            let lo := if (bv b0 =? 224)%N then 160%N else 128%N in
            let hi := if (bv b0 =? 237)%N then 159%N else 191%N in
            if in_range lo hi b1 && is_cont b2
            then (N.lor (N.shiftl (N.land (bv b0) 15) 12)
                        (N.lor (N.shiftl (low6 b1) 6) (low6 b2)), 3)
            else (RuneError, 1)
        | _ => (RuneError, 1)
        end
      else if in_range 240 244 b0 then
        match t with
        | String b1 (String b2 (String b3 _)) =>
            let lo := if (bv b0 =? 240)%N then 144%N else 128%N in
            let hi := if (bv b0 =? 244)%N then 143%N else 191%N in
            if in_range lo hi b1 && is_cont b2 && is_cont b3
            then (N.lor (N.shiftl (N.land (bv b0) 7) 18)
                        (N.lor (N.shiftl (low6 b1) 12)
                               (N.lor (N.shiftl (low6 b2) 6) (low6 b3))), 4)
            else (RuneError, 1)
        | _ => (RuneError, 1)
        end
      else (RuneError, 1)
  end.

Definition cont_byte (n : N) : ascii := byte (N.lor 128 (N.land n 63)).

(** [utf8.EncodeRune]; surrogates and values past U+10FFFF become
    [RuneError]. *)
Definition EncodeRune (r : N) : string :=
  let r := if ((55296 <=? r) && (r <=? 57343) || (1114111 <? r))%N
           then RuneError else r in
  if (r <? 128)%N then String (byte r) ""
  else if (r <? 2048)%N then
    String (byte (N.lor 192 (N.shiftr r 6))) (String (cont_byte r) "")
  else if (r <? 65536)%N then
    String (byte (N.lor 224 (N.shiftr r 12)))
      (String (cont_byte (N.shiftr r 6)) (String (cont_byte r) ""))
  else
    String (byte (N.lor 240 (N.shiftr r 18)))
      (String (cont_byte (N.shiftr r 12))
         (String (cont_byte (N.shiftr r 6)) (String (cont_byte r) ""))).

Fixpoint drop_bytes (n : nat) (s : string) : string :=
  match n, s with
  | S n', String _ s' => drop_bytes n' s'
  | _, _ => s
  end.

Fixpoint take_bytes (n : nat) (s : string) : string :=
  match n, s with
  | S n', String c s' => String c (take_bytes n' s')
  | _, _ => EmptyString
  end.

(** ** Encoding a Go string as a JSON string *)

Definition hex_lower (n : N) : ascii :=
  if (n <? 10)%N then byte (48 + n) else byte (87 + n).

(** The escape of one byte below 0x80 that is not HTML-safe. *)
Definition escape_ascii (c : ascii) : string :=
  let n := bv c in
  if ((n =? 92) || (n =? 34))%N then String "\" (String c "")
  else if (n =? 8)%N then "\b"
  else if (n =? 12)%N then "\f"
  else if (n =? 10)%N then "\n"
  else if (n =? 13)%N then "\r"
  else if (n =? 9)%N then "\t"
  else "\u00" +:+ String (hex_lower (n / 16)) (String (hex_lower (n mod 16)) "").

(** [htmlSafeSet]: printable ASCII except the quote, the backslash and
    the three HTML characters. *)
Definition html_safe (c : ascii) : bool :=
  let n := bv c in
  ((32 <=? n) && (n <? 128) &&
   negb ((n =? 34) || (n =? 92) || (n =? 60) || (n =? 62) || (n =? 38)))%N.

Fixpoint quote_bytes (fuel : nat) (s : string) : string :=
  match fuel with
  | O => EmptyString
  | S fuel' =>
      match s with
      | EmptyString => EmptyString
      | String c rest =>
          if (bv c <? 128)%N then
            (if html_safe c then String c "" else escape_ascii c)
            +:+ quote_bytes fuel' rest
          else
            let '(r, size) := DecodeRune s in
            if (r =? RuneError)%N && Nat.eqb size 1 then
              "\ufffd" +:+ quote_bytes fuel' rest
            else if (r =? 8232)%N then
              "\u2028" +:+ quote_bytes fuel' (drop_bytes size s)
            else if (r =? 8233)%N then
              "\u2029" +:+ quote_bytes fuel' (drop_bytes size s)
            else
              take_bytes size s +:+ quote_bytes fuel' (drop_bytes size s)
      end
  end.

Definition dquote : string := String (byte 34) "".

Definition quote (s : string) : string :=
  dquote +:+ quote_bytes (String.length s) s +:+ dquote.

(** ** The JSON grammar *)

(** A parsed value.  A string keeps the text between its quotes as
    written ([raw]) next to the Go string it denotes. *)
Inductive value : Type :=
| JNull
| JBool (b : bool)
| JNumber (lit : string)
| JString (raw : string) (s : string)
| JArray (items : list value)
| JObject (members : list (string * value)).

Definition isSpace (c : ascii) : bool :=
  let n := bv c in ((n =? 32) || (n =? 9) || (n =? 13) || (n =? 10))%N.

Fixpoint skip_ws (s : string) : string :=
  match s with
  | String c rest => if isSpace c then skip_ws rest else s
  | EmptyString => s
  end.

Definition is_digit (c : ascii) : bool := in_range 48 57 c.

Definition is_hex_digit (c : ascii) : bool :=
  in_range 48 57 c || in_range 97 102 c || in_range 65 70 c.

Fixpoint strip_prefix (p s : string) : option string :=
  match p, s with
  | EmptyString, _ => Some s
  | String a p', String b s' =>
      if Ascii.eqb a b then strip_prefix p' s' else None
  | _, _ => None
  end.

Fixpoint span_digits (s : string) : string * string :=
  match s with
  | String c rest =>
      if is_digit c
      then let '(d, r) := span_digits rest in (String c d, r)
      else (EmptyString, s)
  | EmptyString => (EmptyString, EmptyString)
  end.

(** One or more digits. *)
Definition digits1 (s : string) : option (string * string) :=
  match span_digits s with
  | (EmptyString, _) => None
  | (d, r) => Some (d, r)
  end.

(** A number literal: an optional minus, then 0 or a digit string that
    does not start with 0, an optional fraction (a point and digits), an
    optional exponent (e or E, an optional sign, digits). *)
Definition scan_number (s : string) : option (string * string) :=
  let '(sign, s1) :=
    match s with
    | String c r => if (bv c =? 45)%N then (String c "", r) else ("", s)
    | EmptyString => ("", s)
    end in
  match s1 with
  | String c r =>
      if is_digit c then
        let '(int, s2) :=
          if (bv c =? 48)%N then (String c "", r)
          else let '(d, r') := span_digits r in (String c d, r') in
        let frac :=
          match s2 with
          | String p r2 =>
              if (bv p =? 46)%N then
                match digits1 r2 with
                | Some (d, r3) => Some (String p d, r3)
                | None => None
                end
              else Some ("", s2)
          | EmptyString => Some ("", s2)
          end in
        match frac with
        | None => None
        | Some (fr, s3) =>
            match s3 with
            | String e r4 =>
                if ((bv e =? 101) || (bv e =? 69))%N then
                  let '(esign, r5) :=
                    match r4 with
                    | String g r' =>
                        if ((bv g =? 43) || (bv g =? 45))%N
                        then (String g "", r') else ("", r4)
                    | EmptyString => ("", r4)
                    end in
                  match digits1 r5 with
                  | Some (d, r6) =>
                      Some (sign +:+ int +:+ fr +:+ String e esign +:+ d, r6)
                  | None => None
                  end
                else Some (sign +:+ int +:+ fr, s3)
            | EmptyString => Some (sign +:+ int +:+ fr, s3)
            end
        end
      else None
  | EmptyString => None
  end.

Definition is_simple_escape (e : ascii) : bool :=
  let n := bv e in
  ((n =? 34) || (n =? 92) || (n =? 47) || (n =? 98) || (n =? 102) ||
   (n =? 110) || (n =? 114) || (n =? 116))%N.

Definition cons_raw (c : ascii) (r : option (string * string))
  : option (string * string) :=
  match r with
  | Some (raw, rest) => Some (String c raw, rest)
  | None => None
  end.

(** The text of a string literal, from after its opening quote up to its
    closing quote, and what follows.  Control bytes and unknown escapes
    are syntax errors. *)
Fixpoint scan_string (s : string) : option (string * string) :=
  match s with
  | EmptyString => None
  | String c rest =>
      if (bv c =? 34)%N then Some (EmptyString, rest)
      else if (bv c =? 92)%N then
        match rest with
        | String e rest' =>
            if is_simple_escape e then
              cons_raw c (cons_raw e (scan_string rest'))
            else if (bv e =? 117)%N then
              match rest' with
              | String h1 (String h2 (String h3 (String h4 rest''))) =>
                  if is_hex_digit h1 && is_hex_digit h2 &&
                     is_hex_digit h3 && is_hex_digit h4
                  then cons_raw c (cons_raw e (cons_raw h1 (cons_raw h2
                         (cons_raw h3 (cons_raw h4 (scan_string rest''))))))
                  else None
              | _ => None
              end
            else None
        | EmptyString => None
        end
      else if (bv c <? 32)%N then None
      else cons_raw c (scan_string rest)
  end.

Definition hexval (c : ascii) : N :=
  if is_digit c then bv c - 48
  else if in_range 97 102 c then bv c - 87
  else bv c - 55.

(** [getu4]: the code unit of a leading \uXXXX. *)
Definition getu4 (s : string) : option N :=
  match s with
  | String b (String u (String h1 (String h2 (String h3 (String h4 _))))) =>
      if (bv b =? 92)%N && (bv u =? 117)%N &&
         is_hex_digit h1 && is_hex_digit h2 &&
         is_hex_digit h3 && is_hex_digit h4
      then Some (((hexval h1 * 16 + hexval h2) * 16 + hexval h3) * 16
                 + hexval h4)%N
      else None
  | _ => None
  end.

Definition unescape (e : ascii) : ascii :=
  let n := bv e in
  if (n =? 98)%N then byte 8
  else if (n =? 102)%N then byte 12
  else if (n =? 110)%N then byte 10
  else if (n =? 114)%N then byte 13
  else if (n =? 116)%N then byte 9
  else e.

Definition is_surrogate (r : N) : bool := ((55296 <=? r) && (r <? 57344))%N.

(** [utf16.DecodeRune]. *)
Definition utf16_DecodeRune (r1 r2 : N) : N :=
  if ((55296 <=? r1) && (r1 <? 56320) && (56320 <=? r2) && (r2 <? 57344))%N
  then (N.lor (N.shiftl (r1 - 55296) 10) (r2 - 56320) + 65536)%N
  else RuneError.

(** [unquote] on the text of a scanned literal: escapes are resolved, a
    lone surrogate and every invalid UTF-8 byte become U+FFFD. *)
Fixpoint unquote_bytes (fuel : nat) (s : string) : string :=
  match fuel with
  | O => EmptyString
  | S fuel' =>
      match s with
      | EmptyString => EmptyString
      | String c rest =>
          if (bv c =? 92)%N then
            match rest with
            | EmptyString => EmptyString
            | String e rest' =>
                if (bv e =? 117)%N then
                  match getu4 s with
                  | None => EmptyString
                  | Some rr =>
                      let after := drop_bytes 6 s in
                      if is_surrogate rr then
                        match getu4 after with
                        | Some rr1 =>
                            let dec := utf16_DecodeRune rr rr1 in
                            if (dec =? RuneError)%N
                            then EncodeRune RuneError
                                   +:+ unquote_bytes fuel' after
                            else EncodeRune dec
                                   +:+ unquote_bytes fuel' (drop_bytes 6 after)
                        | None =>
                            EncodeRune RuneError +:+ unquote_bytes fuel' after
                        end
                      else EncodeRune rr +:+ unquote_bytes fuel' after
                  end
                else String (unescape e) (unquote_bytes fuel' rest')
            end
          else if (bv c <? 128)%N then String c (unquote_bytes fuel' rest)
          else
            let '(r, size) := DecodeRune s in
            EncodeRune r +:+ unquote_bytes fuel' (drop_bytes size s)
      end
  end.

Definition unquote (raw : string) : string :=
  unquote_bytes (String.length raw) raw.

Definition maxNestingDepth : N := 10000.

(** Recursive descent over the grammar.  Every call consumes a byte
    before it recurses twice, so [2 * length + 2] units of fuel reach the
    end of any input ([parse] below). *)
Fixpoint parse_value (fuel : nat) (depth : N) (s : string) {struct fuel}
  : option (value * string) :=
  match fuel with
  | O => None
  | S fuel' =>
      match s with
      | EmptyString => None
      | String c rest =>
          let n := bv c in
          if (n =? 123)%N then
            if (maxNestingDepth <? depth + 1)%N then None
            else parse_members fuel' (depth + 1) true [] (skip_ws rest)
          else if (n =? 91)%N then
            if (maxNestingDepth <? depth + 1)%N then None
            else parse_items fuel' (depth + 1) true [] (skip_ws rest)
          else if (n =? 34)%N then
            match scan_string rest with
            | Some (raw, r) => Some (JString raw (unquote raw), r)
            | None => None
            end
          else if (n =? 110)%N then
            match strip_prefix "null" s with
            | Some r => Some (JNull, r)
            | None => None
            end
          else if (n =? 116)%N then
            match strip_prefix "true" s with
            | Some r => Some (JBool true, r)
            | None => None
            end
          else if (n =? 102)%N then
            match strip_prefix "false" s with
            | Some r => Some (JBool false, r)
            | None => None
            end
          else if (n =? 45)%N || is_digit c then
            match scan_number s with
            | Some (lit, r) => Some (JNumber lit, r)
            | None => None
            end
          else None
      end
  end

with parse_items (fuel : nat) (depth : N) (first : bool) (acc : list value)
    (s : string) {struct fuel} : option (value * string) :=
  match fuel with
  | O => None
  | S fuel' =>
      match s with
      | EmptyString => None
      | String c rest =>
          if first && (bv c =? 93)%N then Some (JArray (rev acc), rest)
          else
            match parse_value fuel' depth s with
            | None => None
            | Some (v, r1) =>
                match skip_ws r1 with
                | String d r2 =>
                    if (bv d =? 44)%N
                    then parse_items fuel' depth false (v :: acc) (skip_ws r2)
                    else if (bv d =? 93)%N
                    then Some (JArray (rev (v :: acc)), r2)
                    else None
                | EmptyString => None
                end
            end
      end
  end

with parse_members (fuel : nat) (depth : N) (first : bool)
    (acc : list (string * value)) (s : string) {struct fuel}
  : option (value * string) :=
  match fuel with
  | O => None
  | S fuel' =>
      match s with
      | EmptyString => None
      | String c rest =>
          if first && (bv c =? 125)%N then Some (JObject (rev acc), rest)
          else if (bv c =? 34)%N then
            match scan_string rest with
            | None => None
            | Some (rawkey, r0) =>
                match skip_ws r0 with
                | String colon r1 =>
                    if (bv colon =? 58)%N then
                      match parse_value fuel' depth (skip_ws r1) with
                      | None => None
                      | Some (v, r2) =>
                          let acc' := (unquote rawkey, v) :: acc in
                          match skip_ws r2 with
                          | String d r3 =>
                              if (bv d =? 44)%N
                              then parse_members fuel' depth false acc'
                                     (skip_ws r3)
                              else if (bv d =? 125)%N
                              then Some (JObject (rev acc'), r3)
                              else None
                          | EmptyString => None
                          end
                      end
                    else None
                | EmptyString => None
                end
            end
          else None
      end
  end.

(** The first value of the input and the bytes after it. *)
Definition parse (s : string) : option (value * string) :=
  let s := skip_ws s in
  parse_value (2 * String.length s + 2) 0 s.

(** RFC 8259: a JSON text is one value between optional white space. *)
Definition valid (s : string) : bool :=
  match parse s with
  | Some (_, rest) => bool_decide (skip_ws rest = "")
  | None => false
  end.

(** ** time.Time as a JSON string *)

Local Open Scope Z_scope.

(** Days since 1970-01-01 to the proleptic Gregorian date, and back. *)
Definition civil_from_days (days : Z) : Z * Z * Z :=
  let z := days + 719468 in
  let era := z / 146097 in
  let doe := z - era * 146097 in
  let yoe := (doe - doe / 1460 + doe / 36524 - doe / 146096) / 365 in
  let doy := doe - (365 * yoe + yoe / 4 - yoe / 100) in
  let mp := (5 * doy + 2) / 153 in
  let d := doy - (153 * mp + 2) / 5 + 1 in
  let m := if mp <? 10 then mp + 3 else mp - 9 in
  let y := yoe + era * 400 in
  (if m <=? 2 then y + 1 else y, m, d).

Definition days_from_civil (y m d : Z) : Z :=
  let y := if m <=? 2 then y - 1 else y in
  let era := y / 400 in
  let yoe := y - era * 400 in
  let mp := if 2 <? m then m - 3 else m + 9 in
  let doy := (153 * mp + 2) / 5 + d - 1 in
  let doe := yoe * 365 + yoe / 4 - yoe / 100 + doy in
  era * 146097 + doe - 719468.

(** The last [width] decimal digits of [n], zero padded. *)
Fixpoint digits_fixed (width : nat) (n : Z) : string :=
  match width with
  | O => EmptyString
  | S w => digits_fixed w (n / 10)
           +:+ String (byte (Z.to_N (48 + n mod 10))) EmptyString
  end.

Fixpoint trim_zeros (s : string) : string :=
  match s with
  | EmptyString => EmptyString
  | String c r =>
      let r' := trim_zeros r in
      if bool_decide (r' = EmptyString) && (bv c =? 48)%N
      then EmptyString else String c r'
  end.

(** [Time.MarshalJSON]: RFC 3339 with nanoseconds, quoted; years outside
    0..9999 and zone hours past 23 cannot be written. *)
Definition time_MarshalJSON (t : Time) : Result string :=
  let abs := unix_sec t + zone_offset t in
  let '(y, m, d) := civil_from_days (abs / 86400) in
  let secs := abs mod 86400 in
  let zone := Z.quot (zone_offset t) 60 in
  if (y <? 0) || (9999 <? y) then
    Err "Time.MarshalJSON: year outside of range [0,9999]"
  else if negb (zone_offset t =? 0) && (24 <=? Z.abs zone / 60) then
    Err "Time.MarshalJSON: timezone hour outside of range [0,23]"
  else
    let frac := if nsec t =? 0 then EmptyString
                else "." +:+ trim_zeros (digits_fixed 9 (nsec t)) in
    let tz := if zone_offset t =? 0 then "Z"
              else (if zone <? 0 then "-" else "+")
                   +:+ digits_fixed 2 (Z.abs zone / 60) +:+ ":"
                   +:+ digits_fixed 2 (Z.abs zone mod 60) in
    Ok (dquote +:+ digits_fixed 4 y +:+ "-" +:+ digits_fixed 2 m +:+ "-"
        +:+ digits_fixed 2 d +:+ "T" +:+ digits_fixed 2 (secs / 3600) +:+ ":"
        +:+ digits_fixed 2 (secs mod 3600 / 60) +:+ ":"
        +:+ digits_fixed 2 (secs mod 60) +:+ frac +:+ tz +:+ dquote).

Fixpoint num_acc (acc : Z) (s : string) : option Z :=
  match s with
  | EmptyString => Some acc
  | String c r =>
      if is_digit c then num_acc (acc * 10 + Z.of_N (bv c) - 48) r else None
  end.

(** The decimal number written in bytes [off .. off+len) of [s], when it
    lies in [lo .. hi]. *)
Definition field (off len : nat) (lo hi : Z) (s : string) : option Z :=
  let digits := take_bytes len (drop_bytes off s) in
  if negb (Nat.eqb (String.length digits) len) then None
  else match num_acc 0 digits with
       | Some n => if (lo <=? n) && (n <=? hi) then Some n else None
       | None => None
       end.

Definition char_is (off : nat) (n : N) (s : string) : bool :=
  match drop_bytes off s with
  | String c _ => (bv c =? n)%N
  | EmptyString => false
  end.

Definition is_leap (y : Z) : bool :=
  (y mod 4 =? 0) && (negb (y mod 100 =? 0) || (y mod 400 =? 0)).

Definition daysIn (m y : Z) : Z :=
  if m =? 2 then (if is_leap y then 29 else 28)
  else if (m =? 4) || (m =? 6) || (m =? 9) || (m =? 11) then 30
  else 31.

(** Up to nine fraction digits, scaled to nanoseconds. *)
Definition parse_nanos (digits : string) : Z :=
  let d9 := take_bytes 9 (digits +:+ "000000000") in
  match num_acc 0 d9 with Some n => n | None => 0 end.

(** The canonical RFC 3339 form: yyyy-mm-ddThh:mm:ss, an optional
    fraction, then Z or a numeric zone. *)
Definition parse_rfc3339 (s : string) : option Time :=
  match field 0 4 0 9999 s, field 5 2 1 12 s with
  | Some year, Some month =>
      match field 8 2 1 (daysIn month year) s,
            field 11 2 0 23 s, field 14 2 0 59 s, field 17 2 0 59 s with
      | Some day, Some hour, Some minute, Some sec =>
          if char_is 4 45 s && char_is 7 45 s && char_is 10 84 s &&
             char_is 13 58 s && char_is 16 58 s then
            let rest := drop_bytes 19 s in
            let '(ns, rest) :=
              match rest with
              | String p r =>
                  if (bv p =? 46)%N then
                    match span_digits r with
                    | (EmptyString, _) => (0, rest)
                    | (d, r') => (parse_nanos d, r')
                    end
                  else (0, rest)
              | EmptyString => (0, rest)
              end in
            let local := days_from_civil year month day * 86400
                         + hour * 3600 + minute * 60 + sec in
            if bool_decide (rest = "Z") then
              Some {| unix_sec := local; nsec := ns; zone_offset := 0 |}
            else if Nat.eqb (String.length rest) 6 then
              match field 1 2 0 23 rest, field 4 2 0 59 rest with
              | Some hr, Some mm =>
                  if (char_is 0 45 rest || char_is 0 43 rest) &&
                     char_is 3 58 rest then
                    let off := (hr * 60 + mm) * 60 in
                    let off := if char_is 0 45 rest then - off else off in
                    Some {| unix_sec := local - off; nsec := ns;
                            zone_offset := off |}
                  else None
              | _, _ => None
              end
            else None
          else None
      | _, _, _, _ => None
      end
  | _, _ => None
  end.

Local Close Scope Z_scope.

(** The zero [time.Time]: January 1, year 1, 00:00:00 UTC. *)
Definition zero_Time : Time :=
  {| unix_sec := (-62135596800)%Z; nsec := 0%Z; zone_offset := 0%Z |}.

(** ** Filling the structs of the program *)

(** Keys match field names up to case.  Folding maps ASCII letters to
    upper case and the two non-ASCII runes whose fold is an ASCII letter
    (U+017F to S, U+212A to K); no other rune can take part in a match
    with the ASCII field names of the program. *)
Fixpoint fold_name (s : string) : string :=
  match s with
  | EmptyString => EmptyString
  | String c rest =>
      if in_range 97 122 c then String (byte (bv c - 32)) (fold_name rest)
      else
        match rest with
        | String c2 rest2 =>
            if (bv c =? 197)%N && (bv c2 =? 191)%N
            then String (byte 83) (fold_name rest2)
            else
              match rest2 with
              | String c3 rest3 =>
                  if (bv c =? 226)%N && (bv c2 =? 132)%N && (bv c3 =? 170)%N
                  then String (byte 75) (fold_name rest3)
                  else String c (fold_name rest)
              | EmptyString => String c (fold_name rest)
              end
        | EmptyString => String c (fold_name rest)
        end
  end.

Definition field_is (name key : string) : bool :=
  bool_decide (fold_name key = fold_name name).

(** A JSON value into a Go [string]: a string is stored, [null] leaves
    the field as it is, anything else is a type error. *)
Definition store_string (v : value) (old : string) : Result string :=
  match v with
  | JString _ s => Ok s
  | JNull => Ok old
  | _ => Err "json: cannot unmarshal value into Go struct field of type string"
  end.

(** A JSON value into a [time.Time] ([Time.UnmarshalJSON] sees the text
    of the value as written). *)
Definition store_time (v : value) (old : Time) : Result Time :=
  match v with
  | JNull => Ok old
  | JString raw _ =>
      match parse_rfc3339 raw with
      | Some t => Ok t
      | None => Err "parsing time: not in RFC 3339 format"
      end
  | _ => Err "Time.UnmarshalJSON: input is not a JSON string"
  end.

Fixpoint fill_JobRequest (ms : list (string * value)) (v : JobRequest)
  : Result JobRequest :=
  match ms with
  | [] => Ok v
  | (k, x) :: rest =>
      if field_is "text" k then
        match store_string x (req_Text v) with
        | Ok s => fill_JobRequest rest {| req_Text := s |}
        | Err e => Err e
        end
      else fill_JobRequest rest v
  end.

Fixpoint fill_JobMessage (ms : list (string * value)) (v : JobMessage)
  : Result JobMessage :=
  match ms with
  | [] => Ok v
  | (k, x) :: rest =>
      if field_is "id" k then
        match store_string x (msg_ID v) with
        | Ok s => fill_JobMessage rest {| msg_ID := s; msg_Text := msg_Text v |}
        | Err e => Err e
        end
      else if field_is "text" k then
        match store_string x (msg_Text v) with
        | Ok s => fill_JobMessage rest {| msg_ID := msg_ID v; msg_Text := s |}
        | Err e => Err e
        end
      else fill_JobMessage rest v
  end.

Fixpoint fill_JobResult (ms : list (string * value)) (v : JobResult)
  : Result JobResult :=
  match ms with
  | [] => Ok v
  | (k, x) :: rest =>
      if field_is "id" k then
        match store_string x (ID v) with
        | Ok s => fill_JobResult rest
                    {| ID := s; Text := Text v; Output := Output v;
                       ProcessedAt := ProcessedAt v |}
        | Err e => Err e
        end
      else if field_is "text" k then
        match store_string x (Text v) with
        | Ok s => fill_JobResult rest
                    {| ID := ID v; Text := s; Output := Output v;
                       ProcessedAt := ProcessedAt v |}
        | Err e => Err e
        end
      else if field_is "output" k then
        match store_string x (Output v) with
        | Ok s => fill_JobResult rest
                    {| ID := ID v; Text := Text v; Output := s;
                       ProcessedAt := ProcessedAt v |}
        | Err e => Err e
        end
      else if field_is "processed_at" k then
        match store_time x (ProcessedAt v) with
        | Ok t => fill_JobResult rest
                    {| ID := ID v; Text := Text v; Output := Output v;
                       ProcessedAt := t |}
        | Err e => Err e
        end
      else fill_JobResult rest v
  end.

(** A value into a struct: an object fills the fields, [null] changes
    nothing, every other kind is a type error. *)
Definition into_struct {A} (fill : list (string * value) → A → Result A)
    (zero : A) (v : value) : Result A :=
  match v with
  | JObject ms => fill ms zero
  | JNull => Ok zero
  | _ => Err "json: cannot unmarshal value into Go value of struct type"
  end.

(** [json.NewDecoder(r).Decode(&v)]: the first JSON value of the stream
    is decoded; what follows it is not looked at. *)
Definition Decode {A} (fill : list (string * value) → A → Result A)
    (zero : A) (input : string) : Result A :=
  if bool_decide (skip_ws input = "") then Err "EOF"
  else match parse input with
       | Some (v, _) => into_struct fill zero v
       | None => Err "invalid character or unexpected end of JSON input"
       end.

(** [json.Unmarshal(data, &v)]: the input has to be exactly one value. *)
Definition Unmarshal {A} (fill : list (string * value) → A → Result A)
    (zero : A) (data : string) : Result A :=
  match parse data with
  | Some (v, rest) =>
      if bool_decide (skip_ws rest = "") then into_struct fill zero v
      else Err "invalid character after top-level value"
  | None => Err "invalid character or unexpected end of JSON input"
  end.

Definition zero_JobRequest : JobRequest := {| req_Text := "" |}.
Definition zero_JobMessage : JobMessage := {| msg_ID := ""; msg_Text := "" |}.
Definition zero_JobResult : JobResult :=
  {| ID := ""; Text := ""; Output := ""; ProcessedAt := zero_Time |}.

(** ** Encoding the structs of the program *)

Definition Marshal_JobMessage (m : JobMessage) : Result string :=
  Ok ("{" +:+ quote "id" +:+ ":" +:+ quote (msg_ID m) +:+ ","
      +:+ quote "text" +:+ ":" +:+ quote (msg_Text m) +:+ "}").

Definition Marshal_JobResult (r : JobResult) : Result string :=
  match time_MarshalJSON (ProcessedAt r) with
  | Err e => Err ("json: error calling MarshalJSON for type time.Time: " +:+ e)
  | Ok ts =>
      Ok ("{" +:+ quote "id" +:+ ":" +:+ quote (ID r) +:+ ","
          +:+ quote "text" +:+ ":" +:+ quote (Text r) +:+ ","
          +:+ quote "output" +:+ ":" +:+ quote (Output r) +:+ ","
          +:+ quote "processed_at" +:+ ":" +:+ ts +:+ "}")
  end.

Definition Marshal_id_map (id : string) : Result string :=
  Ok ("{" +:+ quote "id" +:+ ":" +:+ quote id +:+ "}").

Definition go_json : Json :=
  {| json_Decode_JobRequest := Decode fill_JobRequest zero_JobRequest;
     json_Marshal_JobMessage := Marshal_JobMessage;
     json_Unmarshal_JobMessage := Unmarshal fill_JobMessage zero_JobMessage;
     json_Marshal_JobResult := Marshal_JobResult;
     json_Decode_JobResult := Decode fill_JobResult zero_JobResult;
     json_Marshal_id_map := Marshal_id_map |}.

End GoJson.

(* ===================================================================== *)
(** * unicode, unicode/utf8 and strings.Map                               *)
(* ===================================================================== *)

(** What [strings.ToUpper] calls on a string that holds a byte >= 0x80:
    [strings.Map(unicode.ToUpper, s)].  The case table is the upper-case
    column of [unicode.CaseRanges], the simple upper-case mappings of
    the Unicode Character Database (versions 14.0 and 15.0 agree on
    them). *)
Module GoUnicode.
Import GoJson.

(** ** unicode/utf8 *)

(** [for _, c := range s]: the runes of [s] in order, every byte that
    does not start a valid encoding counting as U+FFFD. *)
Fixpoint range_string (fuel : nat) (s : string) : list N :=
  match fuel with
  | O => []
  | S fuel' =>
      match s with
      | EmptyString => []
      | String _ _ =>
          let '(r, size) := DecodeRune s in
          r :: range_string fuel' (drop_bytes size s)
      end
  end.

(** ** unicode *)

Definition MaxASCII : N := 127.

(** The delta of a [CaseRange] towards upper case: a shift of the code
    point, or the marker [UpperLower] of a stretch of alternating upper
    and lower case letters. *)
Inductive Delta : Type :=
| UpperLower
| Shift (d : Z).

Record CaseRange : Type := CR {
  Lo : N;
  Hi : N;
  ToUpperDelta : Delta;
}.

Definition CaseRanges : list CaseRange := [
  CR 0x0061 0x007A (Shift (-32));
  CR 0x00B5 0x00B5 (Shift 743);
  CR 0x00E0 0x00F6 (Shift (-32));
  CR 0x00F8 0x00FE (Shift (-32));
  CR 0x00FF 0x00FF (Shift 121);
  CR 0x0100 0x012F UpperLower;
  CR 0x0131 0x0131 (Shift (-232));
  CR 0x0132 0x0137 UpperLower;
  CR 0x0139 0x0148 UpperLower;
  CR 0x014A 0x0177 UpperLower;
  CR 0x0179 0x017E UpperLower;
  CR 0x017F 0x017F (Shift (-300));
  CR 0x0180 0x0180 (Shift 195);
  CR 0x0182 0x0185 UpperLower;
  CR 0x0188 0x0188 (Shift (-1));
  CR 0x018C 0x018C (Shift (-1));
  CR 0x0192 0x0192 (Shift (-1));
  CR 0x0195 0x0195 (Shift 97);
  CR 0x0199 0x0199 (Shift (-1));
  CR 0x019A 0x019A (Shift 163);
  CR 0x019E 0x019E (Shift 130);
  CR 0x01A0 0x01A5 UpperLower;
  CR 0x01A8 0x01A8 (Shift (-1));
  CR 0x01AD 0x01AD (Shift (-1));
  CR 0x01B0 0x01B0 (Shift (-1));
  CR 0x01B3 0x01B6 UpperLower;
  CR 0x01B9 0x01B9 (Shift (-1));
  CR 0x01BD 0x01BD (Shift (-1));
  CR 0x01BF 0x01BF (Shift 56);
  CR 0x01C5 0x01C5 (Shift (-1));
  CR 0x01C6 0x01C6 (Shift (-2));
  CR 0x01C8 0x01C8 (Shift (-1));
  CR 0x01C9 0x01C9 (Shift (-2));
  CR 0x01CB 0x01CB (Shift (-1));
  CR 0x01CC 0x01CC (Shift (-2));
  CR 0x01CD 0x01DC UpperLower;
  CR 0x01DD 0x01DD (Shift (-79));
  CR 0x01DE 0x01EF UpperLower;
  CR 0x01F2 0x01F2 (Shift (-1));
  CR 0x01F3 0x01F3 (Shift (-2));
  CR 0x01F5 0x01F5 (Shift (-1));
  CR 0x01F8 0x021F UpperLower;
  CR 0x0222 0x0233 UpperLower;
  CR 0x023C 0x023C (Shift (-1));
  CR 0x023F 0x0240 (Shift 10815);
  CR 0x0242 0x0242 (Shift (-1));
  CR 0x0246 0x024F UpperLower;
  CR 0x0250 0x0250 (Shift 10783);
  CR 0x0251 0x0251 (Shift 10780);
  CR 0x0252 0x0252 (Shift 10782);
  CR 0x0253 0x0253 (Shift (-210));
  CR 0x0254 0x0254 (Shift (-206));
  CR 0x0256 0x0257 (Shift (-205));
  CR 0x0259 0x0259 (Shift (-202));
  CR 0x025B 0x025B (Shift (-203));
  CR 0x025C 0x025C (Shift 42319);
  CR 0x0260 0x0260 (Shift (-205));
  CR 0x0261 0x0261 (Shift 42315);
  CR 0x0263 0x0263 (Shift (-207));
  CR 0x0265 0x0265 (Shift 42280);
  CR 0x0266 0x0266 (Shift 42308);
  CR 0x0268 0x0268 (Shift (-209));
  CR 0x0269 0x0269 (Shift (-211));
  CR 0x026A 0x026A (Shift 42308);
  CR 0x026B 0x026B (Shift 10743);
  CR 0x026C 0x026C (Shift 42305);
  CR 0x026F 0x026F (Shift (-211));
  CR 0x0271 0x0271 (Shift 10749);
  CR 0x0272 0x0272 (Shift (-213));
  CR 0x0275 0x0275 (Shift (-214));
  CR 0x027D 0x027D (Shift 10727);
  CR 0x0280 0x0280 (Shift (-218));
  CR 0x0282 0x0282 (Shift 42307);
  CR 0x0283 0x0283 (Shift (-218));
  CR 0x0287 0x0287 (Shift 42282);
  CR 0x0288 0x0288 (Shift (-218));
  CR 0x0289 0x0289 (Shift (-69));
  CR 0x028A 0x028B (Shift (-217));
  CR 0x028C 0x028C (Shift (-71));
  CR 0x0292 0x0292 (Shift (-219));
  CR 0x029D 0x029D (Shift 42261);
  CR 0x029E 0x029E (Shift 42258);
  CR 0x0345 0x0345 (Shift 84);
  CR 0x0370 0x0373 UpperLower;
  CR 0x0377 0x0377 (Shift (-1));
  CR 0x037B 0x037D (Shift 130);
  CR 0x03AC 0x03AC (Shift (-38));
  CR 0x03AD 0x03AF (Shift (-37));
  CR 0x03B1 0x03C1 (Shift (-32));
  CR 0x03C2 0x03C2 (Shift (-31));
  CR 0x03C3 0x03CB (Shift (-32));
  CR 0x03CC 0x03CC (Shift (-64));
  CR 0x03CD 0x03CE (Shift (-63));
  CR 0x03D0 0x03D0 (Shift (-62));
  CR 0x03D1 0x03D1 (Shift (-57));
  CR 0x03D5 0x03D5 (Shift (-47));
  CR 0x03D6 0x03D6 (Shift (-54));
  CR 0x03D7 0x03D7 (Shift (-8));
  CR 0x03D8 0x03EF UpperLower;
  CR 0x03F0 0x03F0 (Shift (-86));
  CR 0x03F1 0x03F1 (Shift (-80));
  CR 0x03F2 0x03F2 (Shift 7);
  CR 0x03F3 0x03F3 (Shift (-116));
  CR 0x03F5 0x03F5 (Shift (-96));
  CR 0x03F8 0x03F8 (Shift (-1));
  CR 0x03FB 0x03FB (Shift (-1));
  CR 0x0430 0x044F (Shift (-32));
  CR 0x0450 0x045F (Shift (-80));
  CR 0x0460 0x0481 UpperLower;
  CR 0x048A 0x04BF UpperLower;
  CR 0x04C1 0x04CE UpperLower;
  CR 0x04CF 0x04CF (Shift (-15));
  CR 0x04D0 0x052F UpperLower;
  CR 0x0561 0x0586 (Shift (-48));
  CR 0x10D0 0x10FA (Shift 3008);
  CR 0x10FD 0x10FF (Shift 3008);
  CR 0x13F8 0x13FD (Shift (-8));
  CR 0x1C80 0x1C80 (Shift (-6254));
  CR 0x1C81 0x1C81 (Shift (-6253));
  CR 0x1C82 0x1C82 (Shift (-6244));
  CR 0x1C83 0x1C84 (Shift (-6242));
  CR 0x1C85 0x1C85 (Shift (-6243));
  CR 0x1C86 0x1C86 (Shift (-6236));
  CR 0x1C87 0x1C87 (Shift (-6181));
  CR 0x1C88 0x1C88 (Shift 35266);
  CR 0x1D79 0x1D79 (Shift 35332);
  CR 0x1D7D 0x1D7D (Shift 3814);
  CR 0x1D8E 0x1D8E (Shift 35384);
  CR 0x1E00 0x1E95 UpperLower;
  CR 0x1E9B 0x1E9B (Shift (-59));
  CR 0x1EA0 0x1EFF UpperLower;
  CR 0x1F00 0x1F07 (Shift 8);
  CR 0x1F10 0x1F15 (Shift 8);
  CR 0x1F20 0x1F27 (Shift 8);
  CR 0x1F30 0x1F37 (Shift 8);
  CR 0x1F40 0x1F45 (Shift 8);
  CR 0x1F51 0x1F51 (Shift 8);
  CR 0x1F53 0x1F53 (Shift 8);
  CR 0x1F55 0x1F55 (Shift 8);
  CR 0x1F57 0x1F57 (Shift 8);
  CR 0x1F60 0x1F67 (Shift 8);
  CR 0x1F70 0x1F71 (Shift 74);
  CR 0x1F72 0x1F75 (Shift 86);
  CR 0x1F76 0x1F77 (Shift 100);
  CR 0x1F78 0x1F79 (Shift 128);
  CR 0x1F7A 0x1F7B (Shift 112);
  CR 0x1F7C 0x1F7D (Shift 126);
  CR 0x1F80 0x1F87 (Shift 8);
  CR 0x1F90 0x1F97 (Shift 8);
  CR 0x1FA0 0x1FA7 (Shift 8);
  CR 0x1FB0 0x1FB1 (Shift 8);
  CR 0x1FB3 0x1FB3 (Shift 9);
  CR 0x1FBE 0x1FBE (Shift (-7205));
  CR 0x1FC3 0x1FC3 (Shift 9);
  CR 0x1FD0 0x1FD1 (Shift 8);
  CR 0x1FE0 0x1FE1 (Shift 8);
  CR 0x1FE5 0x1FE5 (Shift 7);
  CR 0x1FF3 0x1FF3 (Shift 9);
  CR 0x214E 0x214E (Shift (-28));
  CR 0x2170 0x217F (Shift (-16));
  CR 0x2184 0x2184 (Shift (-1));
  CR 0x24D0 0x24E9 (Shift (-26));
  CR 0x2C30 0x2C5F (Shift (-48));
  CR 0x2C61 0x2C61 (Shift (-1));
  CR 0x2C65 0x2C65 (Shift (-10795));
  CR 0x2C66 0x2C66 (Shift (-10792));
  CR 0x2C67 0x2C6C UpperLower;
  CR 0x2C73 0x2C73 (Shift (-1));
  CR 0x2C76 0x2C76 (Shift (-1));
  CR 0x2C80 0x2CE3 UpperLower;
  CR 0x2CEB 0x2CEE UpperLower;
  CR 0x2CF3 0x2CF3 (Shift (-1));
  CR 0x2D00 0x2D25 (Shift (-7264));
  CR 0x2D27 0x2D27 (Shift (-7264));
  CR 0x2D2D 0x2D2D (Shift (-7264));
  CR 0xA640 0xA66D UpperLower;
  CR 0xA680 0xA69B UpperLower;
  CR 0xA722 0xA72F UpperLower;
  CR 0xA732 0xA76F UpperLower;
  CR 0xA779 0xA77C UpperLower;
  CR 0xA77E 0xA787 UpperLower;
  CR 0xA78C 0xA78C (Shift (-1));
  CR 0xA790 0xA793 UpperLower;
  CR 0xA794 0xA794 (Shift 48);
  CR 0xA796 0xA7A9 UpperLower;
  CR 0xA7B4 0xA7C3 UpperLower;
  CR 0xA7C7 0xA7CA UpperLower;
  CR 0xA7D1 0xA7D1 (Shift (-1));
  CR 0xA7D6 0xA7D9 UpperLower;
  CR 0xA7F6 0xA7F6 (Shift (-1));
  CR 0xAB53 0xAB53 (Shift (-928));
  CR 0xAB70 0xABBF (Shift (-38864));
  CR 0xFF41 0xFF5A (Shift (-32));
  CR 0x10428 0x1044F (Shift (-40));
  CR 0x104D8 0x104FB (Shift (-40));
  CR 0x10597 0x105A1 (Shift (-39));
  CR 0x105A3 0x105B1 (Shift (-39));
  CR 0x105B3 0x105B9 (Shift (-39));
  CR 0x105BB 0x105BC (Shift (-39));
  CR 0x10CC0 0x10CF2 (Shift (-64));
  CR 0x118C0 0x118DF (Shift (-32));
  CR 0x16E60 0x16E7F (Shift (-32));
  CR 0x1E922 0x1E943 (Shift (-34))
]%N.

(** [unicode.to(UpperCase, r, caseRange)].  The ranges are sorted and
    disjoint, so the range the binary search of the library finds is the
    first one that holds [r].  In an [UpperLower] stretch the letters at
    even offsets are the upper-case ones: the low bit of the offset is
    cleared. *)
Fixpoint to_UpperCase (r : N) (caseRange : list CaseRange) : N :=
  match caseRange with
  | [] => r
  | cr :: rest =>
      if ((Lo cr <=? r) && (r <=? Hi cr))%N then
        match ToUpperDelta cr with
        | UpperLower => (Lo cr + N.ldiff (r - Lo cr) 1)%N
        | Shift d => Z.to_N (Z.of_N r + d)
        end
      else to_UpperCase r rest
  end.

(** [unicode.ToUpper]. *)
Definition ToUpper (r : N) : N :=
  if (r <=? MaxASCII)%N then
    if ((97 <=? r) && (r <=? 122))%N then (r - 32)%N else r
  else to_UpperCase r CaseRanges.

(** ** strings.Map *)

(** [strings.Map(mapping, s)]: the encodings of the mapped runes of [s].
    (The library returns [s] itself when no rune changes and no byte is
    invalid, which is the same bytes; a mapping to a negative value,
    which drops the rune, does not occur with [unicode.ToUpper].) *)
Definition Map (mapping : N → N) (s : string) : string :=
  foldr (λ c out, EncodeRune (mapping c) +:+ out) EmptyString
        (range_string (String.length s) s).

Definition go_unicode : Unicode :=
  {| strings_Map_unicode_ToUpper := Map ToUpper |}.

End GoUnicode.

(* ===================================================================== *)
(** * Vocabulary of the encoding lemmas                                   *)
(* ===================================================================== *)

Module Codec.
Import GoJson.

(** The scalar value [EncodeRune] writes for [r]: surrogates and values
    past U+10FFFF are replaced. *)
Definition scalar (r : N) : N :=
  if ((55296 <=? r) && (r <=? 57343) || (1114111 <? r))%N
  then RuneError else r.

Definition high_bytes (s : string) : bool :=
  string_forallb (λ c, (128 <=? bv c)%N) s.

(** Well-formed UTF-8: a sequence of encoded runes. *)
Inductive Utf8 : string → Prop :=
| Utf8_nil : Utf8 ""
| Utf8_rune r s : Utf8 s → Utf8 (EncodeRune r +:+ s).

(** The text of a string literal the scanner accepts: bytes other than
    the backslash, two-byte escapes and \u escapes. *)
Inductive Escaped : string → Prop :=
| Escaped_nil : Escaped ""
| Escaped_byte c s : bv c ≠ 92%N → Escaped s → Escaped (String c s)
| Escaped_simple e s :
    is_simple_escape e = true → Escaped s →
    Escaped (String (byte 92) (String e s))
| Escaped_u h1 h2 h3 h4 s :
    is_hex_digit h1 && is_hex_digit h2 && is_hex_digit h3 && is_hex_digit h4
    = true →
    Escaped s →
    Escaped (String (byte 92) (String (byte 117)
               (String h1 (String h2 (String h3 (String h4 s)))))).

(** What [quote_bytes] writes for the rune [r]. *)
Definition quoted_rune (r : N) : string :=
  let q := scalar r in
  if (q <? 128)%N then
    (if html_safe (byte q) then String (byte q) "" else escape_ascii (byte q))
  else if (q =? 8232)%N then "\u2028"
  else if (q =? 8233)%N then "\u2029"
  else EncodeRune r.

(** A byte that stands for itself in a string literal. *)
Definition plain_byte (c : ascii) : bool :=
  ((32 <=? bv c) && negb (bv c =? 34) && negb (bv c =? 92))%N.

Definition not_number (v : value) : Prop :=
  match v with JNumber _ => False | _ => True end.

End Codec.

(* ===================================================================== *)
(** * Vocabulary of the statements                                        *)
(* ===================================================================== *)

Module Spec.
Import Service.

(** The value of a finished computation. *)
Definition value_of {A} (o : Outcome A) : option A :=
  match o with Done a _ => Some a | Panicked _ _ => None end.

(** An object was written: a [PutObject] on the key succeeded. *)
Definition written (bucket key : string) (tr : list Event) : Prop :=
  ∃ body, EvPutObject bucket key body true ∈ tr.

(** A message was dequeued: some [ReceiveMessage] returned it. *)
Definition delivered (m : Message) (tr : list Event) : Prop :=
  ∃ url msgs, EvReceiveMessage url (Ok msgs) ∈ tr ∧ m ∈ msgs.

(** The message carries id [X]: its body decodes to a JobMessage with
    that id. *)
Definition carries `{Json} (m : Message) (X : string) : Prop :=
  ∃ body jm, Body m = Some body ∧
             json_Unmarshal_JobMessage body = Ok jm ∧ msg_ID jm = X.

(** A message carrying [X] was dequeued and, after that, the result for
    [X] was written. *)
Definition processed `{Json} (a : App) (X : string) (tr : list Event)
  : Prop :=
  ∃ before after m,
    tr = before ++ after ∧ delivered m before ∧ carries m X ∧
    written (s3Bucket a) (job_key X) after.

(** Two JobResults that differ at most in the timestamp. *)
Definition same_payload (r1 r2 : JobResult) : Prop :=
  ID r1 = ID r2 ∧ Text r1 = Text r2 ∧ Output r1 = Output r2.

(** The JSON package reads back what it wrote for [R]: the encoding of
    [R] decodes, to a JobResult with the id, text and output of [R]. *)
Definition reads_back `{Json} (R : JobResult) : Prop :=
  ∀ rb, json_Marshal_JobResult R = Ok rb →
        ∃ R', json_Decode_JobResult rb = Ok R' ∧ same_payload R R'.

(** The stored object that [processMessage] writes for encoded bytes. *)
Definition json_object (body : string) : Object :=
  {| obj_body := body; obj_content_type := "application/json" |}.

(** The world after a successful [PutObject]. *)
Definition put_world (a : App) (key body : string) (w : World) : World :=
  {| queues := queues w;
     objects := <[(s3Bucket a, key) := json_object body]> (objects w);
     next_receipt := next_receipt w;
     events := events w ++ [EvPutObject (s3Bucket a) key body true] |}.

(** Events that neither store a result nor acknowledge a message. *)
Definition quiet (ev : Event) : Prop :=
  match ev with
  | EvPutObject _ _ _ true => False
  | EvDeleteMessage _ _ _ => False
  | _ => True
  end.

(** In a stretch of events, every [DeleteMessage] comes right after the
    successful [PutObject] of the result of the message it acknowledges,
    one of [msgs]. *)
Definition ack_ordered `{Json} (a : App) (msgs : list Message)
    (evs : list Event) : Prop :=
  ∀ before after url h ok,
    evs = before ++ EvDeleteMessage url h ok :: after →
    ∃ before' m X rb,
      before = before' ++ [EvPutObject (s3Bucket a) (job_key X) rb true] ∧
      m ∈ msgs ∧ carries m X ∧ h = ReceiptHandle m ∧ url = sqsURL a.

(** Every successful [PutObject] of a stretch of events is at the key of
    the id of one of [msgs], in the bucket of the [App]. *)
Definition accounted `{Json} (a : App) (msgs : list Message) (ev : Event)
  : Prop :=
  match ev with
  | EvPutObject b k _ true =>
      b = s3Bucket a ∧ ∃ m X, m ∈ msgs ∧ carries m X ∧ k = job_key X
  | _ => True
  end.

(** The object is the encoding of a JobResult, stored at the key of
    its id as [application/json]. *)
Definition is_result `{Json} (a : App) (key : string * string) (o : Object)
  : Prop :=
  ∃ R rb, json_Marshal_JobResult R = Ok rb ∧ o = json_object rb ∧
          key = (s3Bucket a, job_key (ID R)).

(** A stretch [evs] of worker events leading from [w] to [w']: its
    writes are accounted for, its acknowledgments are ordered, and the
    objects of [w'] are those of [w] and the results written on the
    way. *)
Definition worker_trace `{Json} (a : App) (msgs : list Message)
    (w w' : World) (evs : list Event) : Prop :=
  events w' = events w ++ evs ∧
  Forall (accounted a msgs) evs ∧
  ack_ordered a msgs evs ∧
  (∀ b k, is_Some (objects w' !! (b, k)) ↔
          is_Some (objects w !! (b, k)) ∨ written b k evs) ∧
  (∀ key o, objects w' !! key = Some o →
            objects w !! key = Some o ∨ is_result a key o).

(** The invariant of the store: an object exists exactly where a write
    succeeded, every successful write belongs to a processed id, and
    every object is the encoding of a JobResult at the key of its id. *)
Definition store_invariant `{Json} (a : App) (w : World) : Prop :=
  (∀ b k, is_Some (objects w !! (b, k)) ↔ written b k (events w)) ∧
  (∀ b k body, EvPutObject b k body true ∈ events w →
               b = s3Bucket a ∧ ∃ X, k = job_key X ∧ processed a X (events w)) ∧
  (∀ key o, objects w !! key = Some o → is_result a key o).

(** The world [w] after the events [evs], nothing else changed. *)
Definition add_events (w : World) (evs : list Event) : World :=
  {| queues := queues w; objects := objects w;
     next_receipt := next_receipt w; events := events w ++ evs |}.

Definition is_put (ev : Event) : bool :=
  match ev with EvPutObject _ _ _ _ => true | _ => false end.

Definition is_receive (ev : Event) : bool :=
  match ev with EvReceiveMessage _ _ => true | _ => false end.

(** How many events of a stretch satisfy [p]. *)
Definition count (p : Event → bool) (evs : list Event) : nat :=
  length (List.filter p evs).

(** The object is the encoding of a JobResult whose output is the
    upper-cased text, stored at the key of its id. *)
Definition is_upper_result `{Json} `{Unicode} (a : App)
    (key : string * string) (o : Object) : Prop :=
  ∃ R rb, json_Marshal_JobResult R = Ok rb ∧ o = json_object rb ∧
          key = (s3Bucket a, job_key (ID R)) ∧
          Output R = Strings.ToUpper (Text R).

(** From [w] to [w'] no queue appears or disappears and every queue
    only loses messages, the others keeping their order. *)
Definition dequeues_only (w w' : World) : Prop :=
  ∀ url,
    match queues w !! url with
    | Some q => ∃ q', queues w' !! url = Some q' ∧ q' `sublist_of` q
    | None => queues w' !! url = None
    end.

(** From [w] to [w'] no queue appears or disappears and every queue
    keeps its messages in place, at most one being appended. *)
Definition enqueues_at_most_one (w w' : World) : Prop :=
  ∀ url,
    match queues w !! url with
    | Some q => ∃ extra, queues w' !! url = Some (q ++ extra) ∧
                         length extra ≤ 1
    | None => queues w' !! url = None
    end.

(** Every object of [w'] is an object of [w] or satisfies [P]. *)
Definition objects_grow_by (P : string * string → Object → Prop)
    (w w' : World) : Prop :=
  ∀ key o, objects w' !! key = Some o → objects w !! key = Some o ∨ P key o.

(** From [w] to [w'] the history is only extended and no object is
    removed. *)
Definition only_adds (w w' : World) : Prop :=
  events w `prefix_of` events w' ∧
  ∀ key, is_Some (objects w !! key) → is_Some (objects w' !! key).

Definition is_delete (ev : Event) : bool :=
  match ev with EvDeleteMessage _ _ _ => true | _ => false end.

(** The first JSON value of a body has no [text] member to offer: it
    is [null], or an object none of whose keys matches the field. *)
Definition lacks_text (v : GoJson.value) : Prop :=
  match v with
  | GoJson.JObject ms =>
      Forall (λ kv, GoJson.field_is "text" kv.1 = false) ms
  | GoJson.JNull => True
  | _ => False
  end.

(** A JSON value of the kinds that never fit a struct. *)
Definition not_struct_like (v : GoJson.value) : Prop :=
  match v with
  | GoJson.JObject _ | GoJson.JNull => False
  | _ => True
  end.

(** A member offered to the field [text] that is neither a string nor
    [null]. *)
Definition mistyped_text (kv : string * GoJson.value) : Prop :=
  GoJson.field_is "text" kv.1 = true ∧
  match kv.2 with
  | GoJson.JString _ _ | GoJson.JNull => False
  | _ => True
  end.

(** The body does not start with a JSON value that fits a JobRequest:
    it is blank or broken before its first value ends, or that value is
    an array, a string, a number or a boolean, or it is an object with a
    mistyped [text] member. *)
Definition unfit_body (body : string) : Prop :=
  match GoJson.parse body with
  | None => True
  | Some (GoJson.JObject ms, _) => Exists mistyped_text ms
  | Some (GoJson.JNull, _) => False
  | Some (_, _) => True
  end.

(** The response of a successful readiness probe. *)
Definition ready_response : Http.ResponseWriter :=
  {| Http.rw_header := ∅; Http.rw_code := Some 200%Z;
     Http.rw_body := "ready" |}.

End Spec.

(* ===================================================================== *)
(** * A concrete deployment                                               *)
(* ===================================================================== *)

(** The settings of [run-local.sh], with [encoding/json] as modelled in
    [GoJson]. *)
Module Fixtures.
Import Service Spec.

Definition queue_url : string :=
  "https://sqs.us-east-1.amazonaws.com/123456789012/my-test-queue".

Definition getenv (name : string) : string :=
  if bool_decide (name = "AWS_REGION") then "us-east-1"
  else if bool_decide (name = "SQS_QUEUE_URL") then queue_url
  else if bool_decide (name = "S3_BUCKET") then "my-test-bucket"
  else if bool_decide (name = "WORKER_ENABLED") then "true"
  else "".

Definition load (region : string) : Result Config := Ok (mkConfig region).

Definition app : App :=
  {| sqsClient := Some (mkSQS (mkConfig "us-east-1"));
     s3Client := Some (mkS3 (mkConfig "us-east-1"));
     sqsURL := queue_url;
     s3Bucket := "my-test-bucket" |}.

(** The queue exists and is empty; the bucket is empty. *)
Definition world0 : World :=
  {| queues := {[ queue_url := [] ]}; objects := ∅;
     next_receipt := 0; events := [] |}.

Definition sys0 : System :=
  {| sys_app := app; sys_worker := true; sys_alive := true;
     sys_world := world0 |}.

Definition get (path : string) : Http.Request :=
  {| Http.Method := "GET"; Http.Path := path; Http.ReqBody := "" |}.

Definition post (path body : string) : Http.Request :=
  {| Http.Method := "POST"; Http.Path := path; Http.ReqBody := body |}.

(** 2026-11-03T07:00:00.12+07:00 *)
Definition noon : Time :=
  {| unix_sec := 1793664000; nsec := 120000000; zone_offset := 25200 |}.

Definition calm : MessageEnv :=
  {| now := noon; put_fault := None; delete_fault := None |}.

(** JSON texts of the examples. *)
Definition q (s : string) : string :=
  GoJson.dquote +:+ s +:+ GoJson.dquote.

(** {"text":"hello"} *)
Definition hello_body : string :=
  "{" +:+ q "text" +:+ ":" +:+ q "hello" +:+ "}".

(** {"text":"hello"} followed by a stray bracket *)
Definition trailing_body : string := hello_body +:+ " ]".

(** {"text":"x"}: a message without an id, as another producer may
    leave it in the queue. *)
Definition anonymous_message : string :=
  "{" +:+ q "text" +:+ ":" +:+ q "x" +:+ "}".

(** What the random source delivers in the examples. *)
Definition dice : N := 12345678901234567890123456789.

(** The identifier drawn from [dice]. *)
Definition job_id : string := "00000000-27e4-4b32-86be-c9b16e398115".

(** {"id":"00000000-27e4-4b32-86be-c9b16e398115","text":"hello"} *)
Definition hello_message : string :=
  "{" +:+ q "id" +:+ ":" +:+ q job_id +:+ ","
      +:+ q "text" +:+ ":" +:+ q "hello" +:+ "}".

(** The stored result of the hello job, processed at [noon]. *)
Definition hello_result : string :=
  "{" +:+ q "id" +:+ ":" +:+ q job_id +:+ ","
      +:+ q "text" +:+ ":" +:+ q "hello" +:+ ","
      +:+ q "output" +:+ ":" +:+ q "HELLO" +:+ ","
      +:+ q "processed_at" +:+ ":" +:+ q "2026-11-03T07:00:00.12+07:00"
      +:+ "}".

(** One turn of the worker that is handed the head of the queue, with
    every remote call succeeding. *)
Definition tick : IterationEnv :=
  {| receive := Ok [0]; message_env := λ _, calm |}.

(** The world after the hello job was submitted, and after the worker
    took one turn. *)
Definition world1 : World :=
  world_of (@createJob GoJson.go_json app (Some dice) None Http.new_writer
              (post "/jobs" hello_body) world0).

Definition world2 : World :=
  world_of (@workerLoop_iteration GoJson.go_json GoUnicode.go_unicode
              app tick world1).

(** The same two steps as states of the process. *)
Definition calm_request : RequestEnv :=
  {| rand_bytes := Some dice; send_fault := None; get_fault := None |}.

Definition sys1 : System :=
  {| sys_app := app; sys_worker := true; sys_alive := true;
     sys_world :=
       world_of (@serveHTTP GoJson.go_json app calm_request
                   (post "/jobs" hello_body) world0) |}.

Definition sys2 : System :=
  {| sys_app := app; sys_worker := true;
     sys_alive :=
       match @workerLoop_iteration GoJson.go_json GoUnicode.go_unicode
               app tick (sys_world sys1) with
       | Done _ _ => true
       | Panicked _ _ => false
       end;
     sys_world :=
       world_of (@workerLoop_iteration GoJson.go_json
                   GoUnicode.go_unicode app tick (sys_world sys1)) |}.

(** The message of the hello job as the queue delivers it. *)
Definition hello_delivery : Message :=
  {| Body := Some hello_message; ReceiptHandle := Some "rh-0" |}.

(** The JobResult of the hello job. *)
Definition hello_R : JobResult :=
  {| ID := job_id; Text := "hello"; Output := "HELLO"; ProcessedAt := noon |}.

(** One minute after [noon], and the result of the hello job processed
    then. *)
Definition later : Time :=
  {| unix_sec := 1793664060; nsec := 120000000; zone_offset := 25200 |}.

Definition hello_result_later : string :=
  "{" +:+ q "id" +:+ ":" +:+ q job_id +:+ ","
      +:+ q "text" +:+ ":" +:+ q "hello" +:+ ","
      +:+ q "output" +:+ ":" +:+ q "HELLO" +:+ ","
      +:+ q "processed_at" +:+ ":" +:+ q "2026-11-03T07:01:00.12+07:00"
      +:+ "}".

(** A delivery whose body pointer is nil. *)
Definition empty_delivery : Message :=
  {| Body := None; ReceiptHandle := Some "rh-9" |}.

(** The store answers, the queue times out on the acknowledgment. *)
Definition ack_lost : MessageEnv :=
  {| now := noon; put_fault := None; delete_fault := Some "RequestTimeout" |}.

(** Every call succeeds, one minute after [noon]. *)
Definition calm_later : MessageEnv :=
  {| now := later; put_fault := None; delete_fault := None |}.

(** A turn of the worker on which the receive times out. *)
Definition deaf_turn : IterationEnv :=
  {| receive := Err "RequestTimeout"; message_env := λ _, calm |}.

(** A queue that holds a message without an id, and the world after the
    worker took one turn on it. *)
Definition anonymous_world0 : World :=
  {| queues := {[ queue_url :=
                    [ {| Body := Some anonymous_message;
                         ReceiptHandle := Some "rh-7" |} ] ]};
     objects := ∅; next_receipt := 8; events := [] |}.

Definition anonymous_world : World :=
  world_of (@workerLoop_iteration GoJson.go_json GoUnicode.go_unicode
              app tick anonymous_world0).

(** The JobResult stored for the message without an id. *)
Definition anonymous_R : JobResult :=
  {| ID := ""; Text := "x"; Output := "X"; ProcessedAt := noon |}.

(** {"id":"00000000-27e4-4b32-86be-c9b16e398115","text":"héllo"}: a
    message whose text leaves ASCII, and its stored result. *)
Definition accent_message : string :=
  "{" +:+ q "id" +:+ ":" +:+ q job_id +:+ ","
      +:+ q "text" +:+ ":" +:+ q "héllo" +:+ "}".

Definition accent_delivery : Message :=
  {| Body := Some accent_message; ReceiptHandle := Some "rh-3" |}.

Definition accent_result : string :=
  "{" +:+ q "id" +:+ ":" +:+ q job_id +:+ ","
      +:+ q "text" +:+ ":" +:+ q "héllo" +:+ ","
      +:+ q "output" +:+ ":" +:+ q "HÉLLO" +:+ ","
      +:+ q "processed_at" +:+ ":" +:+ q "2026-11-03T07:00:00.12+07:00"
      +:+ "}".

(** A replica without worker on a bucket that already holds the result
    of the hello job, before and after it served a submission. *)
Definition replica_world : World :=
  {| queues := {[ queue_url := [] ]};
     objects := {[ ("my-test-bucket", job_key job_id)
                   := json_object hello_result ]};
     next_receipt := 0; events := [] |}.

Definition sys_replica : System :=
  {| sys_app := app; sys_worker := false; sys_alive := true;
     sys_world := replica_world |}.

Definition sys_replica1 : System :=
  {| sys_app := app; sys_worker := false; sys_alive := true;
     sys_world :=
       world_of (@serveHTTP GoJson.go_json app calm_request
                   (post "/jobs" hello_body) replica_world) |}.

End Fixtures.

(* ===================================================================== *)
(** * Properties                                                          *)
(* ===================================================================== *)

Module Properties.
Import Service Spec.

(** Unfolds the monad of remote calls down to worlds and outcomes. *)
Ltac run :=
  unfold mbind, M_bind, mret, M_ret, bind, ret, panic, emit,
         log_Printf, time_Sleep in *; simpl in *.

Section Startup.
Context `{Json} `{Unicode}.

Lemma main_clients getenv load le app we :
  main getenv load le = Serving app we →
  sqsClient app ≠ None ∧ s3Client app ≠ None.
Proof.
  unfold main. intros Hm.
  repeat case_match; simplify_eq; simpl; done.
Qed.

Lemma step_keeps_app s s' :
  step s s' → sys_app s' = sys_app s ∧ sys_worker s' = sys_worker s.
Proof. by destruct 1. Qed.

Lemma reachable_app s :
  reachable s →
  ∃ getenv load, main getenv load None = Serving (sys_app s) (sys_worker s).
Proof.
  induction 1 as [s (getenv & load & Hm & _) | s s' _ IH Hstep].
  - eauto.
  - destruct (step_keeps_app _ _ Hstep) as [-> ->]. exact IH.
Qed.

(** C9.  In every state the running process can reach, the [App] is the
    one [main] built, both of its clients are non-nil, and a GET on
    /readyz, called directly or through the mux, answers 200 with the
    body [ready]: the 503 branch is never taken. *)
Theorem readyz_always_ready s r :
  reachable s →
  Http.Method r = Http.MethodGet →
  (∃ getenv load,
      main getenv load None = Serving (sys_app s) (sys_worker s)) ∧
  sqsClient (sys_app s) ≠ None ∧ s3Client (sys_app s) ≠ None ∧
  readyz (sys_app s) Http.new_writer r = ready_response ∧
  Http.status (readyz (sys_app s) Http.new_writer r) = 200%Z ∧
  Http.rw_body (readyz (sys_app s) Http.new_writer r) = "ready" ∧
  (∀ e, Http.Path r = "/readyz" →
        serveHTTP (sys_app s) e r (sys_world s)
        = Done ready_response (sys_world s)).
Proof.
  intros Hreach Hget.
  destruct (reachable_app s Hreach) as (getenv & load & Hm).
  destruct (main_clients _ _ _ _ _ Hm) as [Hq Hs].
  assert (Hr : readyz (sys_app s) Http.new_writer r = ready_response).
  { unfold readyz. rewrite Hget. simpl.
    rewrite !bool_decide_eq_false_2 by done. reflexivity. }
  split; [eauto|]. split; [done|]. split; [done|].
  rewrite Hr. split; [done|]. split; [done|]. split; [done|].
  intros e Hpath. unfold serveHTTP. rewrite Hpath. simpl.
  by rewrite Hr.
Qed.

End Startup.

(* --------------------------------------------------------------------- *)
(** ** Byte strings                                                       *)
(* --------------------------------------------------------------------- *)

(** Linear arithmetic with division and remainder by constants. *)
Ltac lia_div := zify; Z.to_euclidean_division_equations; lia.

Section ByteStrings.
Import GoJson.

Lemma append_String c s x : String c s +:+ x = String c (s +:+ x).
Proof. reflexivity. Qed.

Lemma append_assoc (s1 s2 s3 : string) :
  (s1 +:+ s2) +:+ s3 = s1 +:+ (s2 +:+ s3).
Proof.
  induction s1 as [|c s1 IH]; [done|]. rewrite !append_String. by rewrite IH.
Qed.

Lemma append_nil_r (s : string) : s +:+ "" = s.
Proof.
  induction s as [|c s IH]; [done|]. rewrite append_String. by rewrite IH.
Qed.

Lemma append_length (s x : string) :
  String.length (s +:+ x) = String.length s + String.length x.
Proof.
  induction s as [|c s IH]; [done|]. rewrite append_String. simpl.
  by rewrite IH.
Qed.

Lemma string_forallb_app p a b :
  string_forallb p (a +:+ b) = string_forallb p a && string_forallb p b.
Proof.
  induction a as [|c a IH]; [done|]. rewrite append_String. simpl.
  by rewrite IH, andb_assoc.
Qed.

Lemma string_forallb_impl (p q : ascii → bool) s :
  (∀ c, p c = true → q c = true) →
  string_forallb p s = true → string_forallb q s = true.
Proof.
  intros Hpq. induction s as [|c s IH]; [done|]. simpl.
  intros [Hc Hs]%andb_true_iff. by rewrite (Hpq c Hc), IH.
Qed.

Lemma Ok_inj {A} (a b : A) : Ok a = Ok b → a = b.
Proof. by intros [= ->]. Qed.

Lemma drop_bytes_app e s : drop_bytes (String.length e) (e +:+ s) = s.
Proof. induction e as [|c e IH]; [by destruct s|]. exact IH. Qed.

Lemma take_bytes_app e s : take_bytes (String.length e) (e +:+ s) = e.
Proof.
  induction e as [|c e IH]; [by destruct s|]. rewrite append_String. simpl.
  by rewrite IH.
Qed.

Lemma cons_raw_Some c o raw r :
  cons_raw c o = Some (raw, r) →
  ∃ raw', o = Some (raw', r) ∧ raw = String c raw'.
Proof.
  destruct o as [[raw' r']|]; simpl; [|done]. intros [= <- <-]. eauto.
Qed.

Lemma byte_bv c : byte (bv c) = c.
Proof. apply ascii_N_embedding. Qed.

Lemma bv_byte n : (n < 256)%N → bv (byte n) = n.
Proof. apply N_ascii_embedding. Qed.

Lemma bv_eq c n : (n < 256)%N → (bv c =? n)%N = true → c = byte n.
Proof. intros Hn <-%N.eqb_eq. by rewrite byte_bv. Qed.

End ByteStrings.
(* --------------------------------------------------------------------- *)
(** ** unicode/utf8: encoding and decoding runes                          *)
(* --------------------------------------------------------------------- *)

Section Utf8.
Import GoJson GoUnicode Codec.

Ltac decide_cmp :=
  repeat match goal with
  | |- context [(?a <? ?b)%N] =>
      first [rewrite (proj2 (N.ltb_lt a b)) by lia
            |rewrite (proj2 (N.ltb_ge a b)) by lia]
  | |- context [(?a <=? ?b)%N] =>
      first [rewrite (proj2 (N.leb_le a b)) by lia
            |rewrite (proj2 (N.leb_gt a b)) by lia]
  | |- context [(?a =? ?b)%N] =>
      first [rewrite (proj2 (N.eqb_eq a b)) by lia
            |rewrite (proj2 (N.eqb_neq a b)) by lia]
  end.

Ltac to_arith :=
  unfold is_cont, in_range, low6;
  change 63%N with (N.ones 6); change 31%N with (N.ones 5);
  change 15%N with (N.ones 4); change 7%N with (N.ones 3);
  rewrite ?N.land_ones;
  change (2 ^ 6)%N with 64%N; change (2 ^ 5)%N with 32%N;
  change (2 ^ 4)%N with 16%N; change (2 ^ 3)%N with 8%N.

Ltac pow_consts :=
  change (2 ^ 6)%N with 64%N; change (2 ^ 12)%N with 4096%N;
  change (2 ^ 18)%N with 262144%N.

Lemma lor_shiftl_add a b k :
  (b < 2 ^ k)%N → N.lor (N.shiftl a k) b = (a * 2 ^ k + b)%N.
Proof.
  intros Hb. rewrite N.shiftl_mul_pow2.
  rewrite <- N.lxor_lor, <- N.add_nocarry_lxor; [done| |].
  all: rewrite <- N.shiftl_mul_pow2.
  all: apply N.bits_inj_0; intros n; rewrite N.land_spec.
  all: destruct (N.lt_ge_cases n k) as [Hn|Hn];
    [by rewrite N.shiftl_spec_low|].
  all: destruct (N.eq_dec b 0%N) as [->|Hb0];
    [by rewrite N.bits_0, andb_false_r|].
  all: rewrite (N.bits_above_log2 b n), andb_false_r; [done|].
  all: apply N.log2_lt_pow2; [lia|].
  all: eapply N.lt_le_trans; [exact Hb|].
  all: apply N.pow_le_mono_r; lia.
Qed.

Lemma lor_const c k a b :
  c = (a * 2 ^ k)%N → (b < 2 ^ k)%N → N.lor c b = (c + b)%N.
Proof. intros -> Hb. rewrite <- N.shiftl_mul_pow2. rewrite lor_shiftl_add by done. by rewrite N.shiftl_mul_pow2. Qed.

Lemma scalar_range r :
  (scalar r <= 1114111)%N ∧ ¬ (55296 <= scalar r <= 57343)%N.
Proof.
  unfold scalar, RuneError.
  destruct ((55296 <=? r)%N && (r <=? 57343)%N || (1114111 <? r)%N) eqn:E;
    [lia|].
  apply orb_false_iff in E as [E1 E2]. apply N.ltb_ge in E2.
  apply andb_false_iff in E1 as [E1|E1];
    [apply N.leb_gt in E1|apply N.leb_gt in E1]; lia.
Qed.

Lemma EncodeRune_cases r :
  let q := scalar r in
  EncodeRune r =
    if (q <? 128)%N then String (byte q) ""
    else if (q <? 2048)%N then
      String (byte (192 + q / 64)) (String (byte (128 + q mod 64)) "")
    else if (q <? 65536)%N then
      String (byte (224 + q / 4096))
        (String (byte (128 + (q / 64) mod 64))
           (String (byte (128 + q mod 64)) ""))
    else
      String (byte (240 + q / 262144))
        (String (byte (128 + (q / 4096) mod 64))
           (String (byte (128 + (q / 64) mod 64))
              (String (byte (128 + q mod 64)) ""))).
Proof.
  intros q. destruct (scalar_range r) as [Hmax Hsur]. fold q in Hmax, Hsur.
  unfold EncodeRune. fold (scalar r). fold q. cbv zeta.
  unfold cont_byte. change 63%N with (N.ones 6).
  rewrite !N.land_ones, !N.shiftr_div_pow2.
  change (2 ^ 6)%N with 64%N. change (2 ^ 12)%N with 4096%N.
  change (2 ^ 18)%N with 262144%N.
  rewrite !(lor_const 128 6 2) by (done || apply N.mod_upper_bound; lia).
  destruct (q <? 128)%N eqn:E1; [done|]. apply N.ltb_ge in E1.
  destruct (q <? 2048)%N eqn:E2.
  { apply N.ltb_lt in E2.
    rewrite (lor_const 192 6 3) by (done || change (2^6)%N with 64%N; lia_div).
    done. }
  apply N.ltb_ge in E2.
  destruct (q <? 65536)%N eqn:E3.
  { apply N.ltb_lt in E3.
    rewrite (lor_const 224 5 7) by (done || change (2^5)%N with 32%N; lia_div).
    done. }
  apply N.ltb_ge in E3.
  rewrite (lor_const 240 4 15) by (done || change (2^4)%N with 16%N; lia_div).
  done.
Qed.

(** [DecodeRune] on a well-formed encoding of two, three and four
    bytes, the bytes given by their values. *)
Lemma DecodeRune_2 e0 e1 rest :
  (194 <= e0 <= 223)%N → (128 <= e1 <= 191)%N →
  DecodeRune (String (byte e0) (String (byte e1) rest))
  = (((e0 - 192) * 64 + (e1 - 128))%N, 2).
Proof.
  intros H0 H1. simpl. to_arith. rewrite !bv_byte by lia. decide_cmp. simpl.
  rewrite lor_shiftl_add by (apply N.mod_upper_bound; lia).
  f_equal. pow_consts. lia_div.
Qed.

Lemma DecodeRune_3 e0 e1 e2 rest :
  (224 <= e0 <= 239)%N → (128 <= e1 <= 191)%N →
  (e0 = 224 → 160 <= e1)%N → (e0 = 237 → e1 <= 159)%N →
  (128 <= e2 <= 191)%N →
  DecodeRune (String (byte e0) (String (byte e1) (String (byte e2) rest)))
  = (((e0 - 224) * 4096 + (e1 - 128) * 64 + (e2 - 128))%N, 3).
Proof.
  intros H0 H1 Hlo Hhi H2. simpl. to_arith. rewrite !bv_byte by lia.
  destruct (N.eq_dec e0 224%N), (N.eq_dec e0 237%N); try lia;
    decide_cmp; simpl;
    rewrite (lor_shiftl_add _ _ 6) by (apply N.mod_upper_bound; lia);
    rewrite (lor_shiftl_add _ _ 12) by (pow_consts; lia_div);
    f_equal; pow_consts; lia_div.
Qed.

Lemma DecodeRune_4 e0 e1 e2 e3 rest :
  (240 <= e0 <= 244)%N → (128 <= e1 <= 191)%N →
  (e0 = 240 → 144 <= e1)%N → (e0 = 244 → e1 <= 143)%N →
  (128 <= e2 <= 191)%N → (128 <= e3 <= 191)%N →
  DecodeRune (String (byte e0) (String (byte e1) (String (byte e2)
                (String (byte e3) rest))))
  = (((e0 - 240) * 262144 + (e1 - 128) * 4096 + (e2 - 128) * 64
      + (e3 - 128))%N, 4).
Proof.
  intros H0 H1 Hlo Hhi H2 H3. simpl. to_arith. rewrite !bv_byte by lia.
  destruct (N.eq_dec e0 240%N), (N.eq_dec e0 244%N); try lia;
    decide_cmp; simpl;
    rewrite (lor_shiftl_add _ _ 6) by (apply N.mod_upper_bound; lia);
    rewrite (lor_shiftl_add _ _ 12) by (pow_consts; lia_div);
    rewrite (lor_shiftl_add _ _ 18) by (pow_consts; lia_div);
    f_equal; pow_consts; lia_div.
Qed.

Lemma DecodeRune_EncodeRune r rest :
  DecodeRune (EncodeRune r +:+ rest)
  = (scalar r, String.length (EncodeRune r)).
Proof.
  rewrite EncodeRune_cases. cbv zeta.
  destruct (scalar_range r) as [Hmax Hsur].
  set (q := scalar r) in *. clearbody q.
  destruct (q <? 128)%N eqn:E1.
  { apply N.ltb_lt in E1. simpl. rewrite bv_byte by lia.
    by rewrite (proj2 (N.ltb_lt _ _) E1). }
  apply N.ltb_ge in E1.
  destruct (q <? 2048)%N eqn:E2.
  { apply N.ltb_lt in E2. rewrite !append_String.
    rewrite DecodeRune_2 by lia_div. simpl. f_equal. lia_div. }
  apply N.ltb_ge in E2.
  destruct (q <? 65536)%N eqn:E3.
  { apply N.ltb_lt in E3. rewrite !append_String.
    rewrite DecodeRune_3 by lia_div. simpl. f_equal. lia_div. }
  apply N.ltb_ge in E3. rewrite !append_String.
  rewrite DecodeRune_4 by lia_div. simpl. f_equal. lia_div.
Qed.

Lemma scalar_idem r : scalar (scalar r) = scalar r.
Proof.
  destruct (scalar_range r) as [Hmax Hsur]. unfold scalar at 1.
  replace ((55296 <=? scalar r)%N && (scalar r <=? 57343)%N
           || (1114111 <? scalar r)%N) with false; [done|].
  symmetry. apply orb_false_iff. split; [|apply N.ltb_ge; lia].
  apply not_true_is_false. intros [?%N.leb_le ?%N.leb_le]%andb_true_iff. lia.
Qed.

Lemma EncodeRune_scalar r : EncodeRune (scalar r) = EncodeRune r.
Proof. by rewrite !EncodeRune_cases, scalar_idem. Qed.

Lemma EncodeRune_low r :
  (scalar r < 128)%N → EncodeRune r = String (byte (scalar r)) "".
Proof.
  intros Hr. rewrite EncodeRune_cases. cbv zeta.
  by rewrite (proj2 (N.ltb_lt _ _) Hr).
Qed.

Lemma EncodeRune_high r :
  (128 <= scalar r)%N →
  high_bytes (EncodeRune r) = true ∧ 2 ≤ String.length (EncodeRune r).
Proof.
  intros Hr. rewrite EncodeRune_cases. cbv zeta.
  destruct (scalar_range r) as [Hmax Hsur].
  set (q := scalar r) in *. clearbody q.
  rewrite (proj2 (N.ltb_ge _ _) Hr).
  unfold high_bytes.
  destruct (N.ltb_spec q 2048); [|destruct (N.ltb_spec q 65536)];
    simpl; rewrite ?bv_byte by lia_div;
    (split; [|lia]);
    repeat (apply andb_true_iff; split); try done; apply N.leb_le; lia_div.
Qed.

Lemma EncodeRune_length r : 1 ≤ String.length (EncodeRune r) ≤ 4.
Proof. rewrite EncodeRune_cases. cbv zeta. repeat case_match; simpl; lia. Qed.

Lemma bv_lt c : (bv c < 256)%N.
Proof. apply N_ascii_bounded. Qed.

(** A byte below 0x80 is the encoding of its own value. *)
Lemma EncodeRune_byte c :
  (bv c < 128)%N → EncodeRune (bv c) = String c "".
Proof.
  intros Hc. assert (Hs : scalar (bv c) = bv c).
  { unfold scalar.
    replace ((55296 <=? bv c)%N && (bv c <=? 57343)%N
             || (1114111 <? bv c)%N) with false; [done|].
    symmetry. apply orb_false_iff. split; [|apply N.ltb_ge; lia].
    apply andb_false_iff. left. apply N.leb_gt. lia. }
  rewrite EncodeRune_low by (rewrite Hs; done). by rewrite Hs, byte_bv.
Qed.

Lemma Utf8_byte c s : (bv c < 128)%N → Utf8 s → Utf8 (String c s).
Proof.
  intros Hc Hs. change (String c s) with (String c "" +:+ s).
  rewrite <- EncodeRune_byte by done. by constructor.
Qed.

Lemma Utf8_app s1 s2 : Utf8 s1 → Utf8 s2 → Utf8 (s1 +:+ s2).
Proof.
  induction 1 as [|r s _ IH]; [done|]. intros H2.
  rewrite append_assoc. constructor. by apply IH.
Qed.

(** The output of [strings.Map] is well-formed whatever the input. *)
Lemma Utf8_Map f s : Utf8 (Map f s).
Proof.
  unfold Map. induction (range_string _ s) as [|c l IH]; simpl;
    by constructor.
Qed.

End Utf8.
(* --------------------------------------------------------------------- *)
(** ** strings.ToUpper is the rune-wise mapping                           *)
(* --------------------------------------------------------------------- *)

Section UpperCase.
Import GoJson GoUnicode.

Lemma EncodeRune_ascii r :
  (r < 128)%N → EncodeRune r = String (byte r) "".
Proof.
  intros Hr. unfold EncodeRune.
  replace ((55296 <=? r)%N && (r <=? 57343)%N || (1114111 <? r)%N) with false.
  - by rewrite (proj2 (N.ltb_lt _ _) Hr).
  - symmetry. apply orb_false_iff. split.
    + apply andb_false_iff. left. apply N.leb_gt. lia.
    + apply N.ltb_ge. lia.
Qed.

Lemma ToUpper_rune_ascii c :
  Strings.is_ascii_byte c = true →
  EncodeRune (ToUpper (bv c)) = String (Strings.upper_byte c) "".
Proof.
  unfold Strings.is_ascii_byte, Strings.RuneSelf, byte_val. intros Hc.
  apply N.ltb_lt in Hc. fold (bv c) in Hc.
  unfold ToUpper, MaxASCII, Strings.upper_byte, Strings.is_lower, byte_val.
  fold (bv c).
  rewrite (proj2 (N.leb_le _ _)) by lia.
  destruct ((97 <=? bv c)%N && (bv c <=? 122)%N) eqn:Hlow.
  - rewrite EncodeRune_ascii by lia. done.
  - rewrite EncodeRune_ascii by lia. unfold byte, bv.
    by rewrite ascii_N_embedding.
Qed.

Lemma Map_ToUpper_ascii_fuel n s :
  String.length s ≤ n →
  string_forallb Strings.is_ascii_byte s = true →
  foldr (λ c out, EncodeRune (ToUpper c) +:+ out) EmptyString
        (range_string n s)
  = string_map Strings.upper_byte s.
Proof.
  revert s. induction n as [|n IH]; intros [|c t] Hlen Hascii;
    simpl in *; try done; try lia.
  apply andb_true_iff in Hascii as [Hc Ht].
  assert (Hc' : (bv c <? 128)%N = true) by exact Hc.
  rewrite Hc'. simpl. rewrite IH by (done || lia).
  by rewrite ToUpper_rune_ascii.
Qed.

Lemma upper_byte_no_lower s :
  string_existsb Strings.is_lower s = false →
  string_map Strings.upper_byte s = s.
Proof.
  induction s as [|c t IH]; [done|]. simpl. intros Hlow.
  apply orb_false_iff in Hlow as [Hc Ht].
  rewrite IH by done. unfold Strings.upper_byte. by rewrite Hc.
Qed.

(** [strings.ToUpper] is the rune-wise mapping on every string: its
    ASCII fast path computes what [Map(unicode.ToUpper, s)] computes. *)
Lemma ToUpper_is_Map s :
  Strings.ToUpper (H:=go_unicode) s = Map ToUpper s.
Proof.
  unfold Strings.ToUpper.
  destruct (string_forallb Strings.is_ascii_byte s) eqn:Hascii; [|done].
  unfold Map. rewrite Map_ToUpper_ascii_fuel by done.
  destruct (string_existsb Strings.is_lower s) eqn:Hlow; [done|].
  simpl. by rewrite upper_byte_no_lower.
Qed.

End UpperCase.
(* --------------------------------------------------------------------- *)
(** ** The identifier                                                     *)
(* --------------------------------------------------------------------- *)

Section Identifier.

(** A boolean property checked on 0 .. k-1 holds below k. *)
Lemma below_forall (P : N → bool) (k : nat) :
  forallb P (map N.of_nat (seq 0 k)) = true →
  ∀ n, (n < N.of_nat k)%N → P n = true.
Proof.
  intros Hall n Hn. rewrite forallb_forall in Hall. apply Hall.
  apply in_map_iff. exists (N.to_nat n). split; [lia|].
  apply in_seq. lia.
Qed.

Lemma is_hex_hexdigit n : (n < 16)%N → Uuid.is_hex (Uuid.hexdigit n) = true.
Proof.
  revert n.
  apply (below_forall (λ n, Uuid.is_hex (Uuid.hexdigit n)) 16).
  by vm_compute.
Qed.

Lemma uuid_byte_lt rnd i : (Uuid.uuid_byte rnd i < 256)%N.
Proof.
  unfold Uuid.uuid_byte, Uuid.byte_at.
  set (b := (N.shiftr rnd (8 * (15 - i)) mod 256)%N).
  assert (Hb : (b < 256)%N) by (apply N.mod_upper_bound; lia).
  repeat case_match; [| |done].
  - change 15%N with (N.ones 4). rewrite N.land_ones.
    apply N.ltb_lt.
    apply (below_forall (λ x, (N.lor x 64 <? 256)%N) 16); [by vm_compute|].
    apply N.mod_upper_bound. by vm_compute.
  - change 63%N with (N.ones 6). rewrite N.land_ones.
    apply N.ltb_lt.
    apply (below_forall (λ x, (N.lor x 128 <? 256)%N) 64); [by vm_compute|].
    apply N.mod_upper_bound. by vm_compute.
Qed.

Lemma hex2_well_formed b :
  (b < 256)%N →
  Uuid.is_hex (Uuid.hexdigit (b / 16)) = true ∧
  Uuid.is_hex (Uuid.hexdigit (b mod 16)) = true.
Proof.
  intros Hb. split; apply is_hex_hexdigit.
  - apply N.Div0.div_lt_upper_bound. lia.
  - apply N.mod_upper_bound. lia.
Qed.

(** Whatever the random source delivers, the identifier has the
    canonical 36-byte form. *)
Lemma uuid_well_formed rnd : Uuid.well_formed (Uuid.to_string rnd) = true.
Proof.
  unfold Uuid.well_formed, Uuid.to_string.
  cbn [Uuid.hex_bytes]. unfold Uuid.hex2.
  lazy beta iota zeta delta
    [String.append Uuid.well_formed_from Nat.eqb orb andb Ascii.eqb
     Bool.eqb].
  repeat match goal with
  | |- context [Uuid.is_hex (Uuid.hexdigit (Uuid.uuid_byte ?r ?i / 16))] =>
      rewrite (proj1 (hex2_well_formed _ (uuid_byte_lt r i)))
  | |- context [Uuid.is_hex (Uuid.hexdigit (Uuid.uuid_byte ?r ?i mod 16))] =>
      rewrite (proj2 (hex2_well_formed _ (uuid_byte_lt r i)))
  end.
  reflexivity.
Qed.

End Identifier.

(* --------------------------------------------------------------------- *)
(** ** The HTTP handlers                                                  *)
(* --------------------------------------------------------------------- *)

Section Handlers.
Context `{Json}.

Lemma status_Error w msg code :
  Http.rw_code w = None → Http.status (Http.Error w msg code) = code.
Proof.
  intros Hw. unfold Http.Error, Http.Write, Http.WriteHeader, Http.Header_Set,
    Http.Header_Del, Http.status. by rewrite Hw.
Qed.

Lemma body_Error w msg code :
  Http.rw_code w = None →
  Http.rw_body (Http.Error w msg code) = Http.rw_body w +:+ msg +:+ newline.
Proof.
  intros Hw. unfold Http.Error, Http.Write, Http.WriteHeader, Http.Header_Set,
    Http.Header_Del. by rewrite Hw.
Qed.

Lemma status_Encode_to w encoded :
  Http.rw_code w = None → Http.status (Encode_to w encoded) = 200%Z.
Proof.
  intros Hw. unfold Encode_to, Http.Write, Http.WriteHeader, Http.status.
  destruct encoded; simpl; by rewrite Hw.
Qed.

Lemma slice_jobs_prefix id :
  slice_from (String.length "/jobs/") ("/jobs/" +:+ id) = Some id.
Proof. reflexivity. Qed.

(** C7.  A GET on /jobs/{id}, served by an [App] whose store client is
    non-nil: an empty id is answered 400; every failure of the retrieval,
    be it a missing object or any other error, is answered 404 with the
    same body; stored bytes that do not decode as a JobResult are
    answered 500; otherwise the answer is 200, typed application/json,
    with the encoding of the decoded JobResult followed by a line feed.
    No case changes the queues or the objects. *)
Theorem getJob_error_mapping (a : App) (c : S3Client) (id : string)
    (fault : option string) (r : Http.Request) (w : World) :
  s3Client a = Some c →
  Http.Method r = Http.MethodGet →
  Http.Path r = "/jobs/" +:+ id →
  ∃ rw w',
    getJob a fault Http.new_writer r w = Done rw w' ∧
    queues w' = queues w ∧ objects w' = objects w ∧
    (id = "" →
       rw = Http.Error Http.new_writer "job id required" 400 ∧
       Http.status rw = 400%Z ∧ w' = w) ∧
    (id ≠ "" →
       match fault, objects w !! (s3Bucket a, job_key id) with
       | Some _, _ | None, None =>
           rw = Http.Error Http.new_writer "job not found" 404 ∧
           Http.status rw = 404%Z
       | None, Some o =>
           match json_Decode_JobResult (obj_body o) with
           | Err _ =>
               rw = Http.Error Http.new_writer "failed to decode job" 500 ∧
               Http.status rw = 500%Z
           | Ok jobResult =>
               Http.status rw = 200%Z ∧
               Http.rw_header rw = {[ "Content-Type" := "application/json" ]} ∧
               match json_Marshal_JobResult jobResult with
               | Ok s => Http.rw_body rw = s +:+ newline
               | Err _ => Http.rw_body rw = ""
               end
           end
       end).
Proof.
  intros Hc Hget Hpath. unfold getJob.
  rewrite Hget, Hpath, slice_jobs_prefix, Hc. simpl.
  destruct (decide (id = "")) as [->|Hid].
  - simpl. run. eexists _, _. split; [reflexivity|]. repeat split; done.
  - rewrite bool_decide_eq_false_2 by done.
    unfold GetObject. run.
    destruct fault as [e|].
    + eexists _, _. split; [reflexivity|]. repeat split; done.
    + destruct (objects w !! (s3Bucket a, job_key id)) as [o|] eqn:Ho.
      * simpl. destruct (json_Decode_JobResult (obj_body o)) as [R|e] eqn:HR.
        -- eexists _, _. split; [reflexivity|]. simpl.
           split; [done|]. split; [done|]. split; [done|]. intros _.
           destruct (json_Marshal_JobResult R); simpl;
             by rewrite insert_empty.
        -- eexists _, _. split; [reflexivity|]. repeat split; done.
      * eexists _, _. split; [reflexivity|]. repeat split; done.
Qed.

(** What [createJob] does once the body has decoded. *)
Lemma createJob_after_decode (a : App) (c : SQSClient) (bytes : N)
    (fault : option string) (r : Http.Request) (w : World)
    (req : JobRequest) (messageBody : string) :
  let J := Uuid.to_string bytes in
  sqsClient a = Some c →
  Http.Method r = Http.MethodPost →
  json_Decode_JobRequest (Http.ReqBody r) = Ok req →
  json_Marshal_JobMessage {| msg_ID := J; msg_Text := req_Text req |}
  = Ok messageBody →
  Uuid.well_formed J = true ∧
  ∃ rw w',
    createJob a (Some bytes) fault Http.new_writer r w = Done rw w' ∧
    objects w' = objects w ∧
    match fault, queues w !! sqsURL a with
    | None, Some q =>
        Http.status rw = 201%Z ∧
        Http.rw_header rw = {[ "Content-Type" := "application/json" ]} ∧
        match json_Marshal_id_map J with
        | Ok s => Http.rw_body rw = s +:+ newline
        | Err _ => Http.rw_body rw = ""
        end ∧
        queues w' =
          <[sqsURL a :=
              q ++ [ {| Body := Some messageBody;
                        ReceiptHandle := Some (receipt_of (next_receipt w)) |} ]]>
            (queues w) ∧
        events w' = events w ++ [EvSendMessage (sqsURL a) messageBody true]
    | _, _ =>
        Http.status rw = 500%Z ∧
        Http.rw_body rw = "failed to send message" +:+ newline ∧
        queues w' = queues w
    end.
Proof.
  intros J Hc Hpost Hdec Hmar. split; [apply uuid_well_formed|].
  unfold createJob. rewrite Hpost, Hdec. simpl. fold J. rewrite Hmar.
  unfold SendMessage. rewrite Hc. run.
  destruct fault as [e|].
  - eexists _, _. split; [reflexivity|]. repeat split; done.
  - destruct (queues w !! sqsURL a) as [q|] eqn:Hq.
    + eexists _, _. split; [reflexivity|]. simpl.
      split; [done|].
      destruct (json_Marshal_id_map J); simpl; by rewrite insert_empty.
    + eexists _, _. split; [reflexivity|]. repeat split; done.
Qed.

(** C3, as the code has it.  A POST on /jobs whose body decodes to a
    JobRequest: the identifier [J] drawn for the request has the
    canonical UUID form.  When [SendMessage] succeeds the answer is 201
    with the encoding of [{"id": J}], and the queue has grown by exactly
    one message, the encoding of the JobMessage with id [J] and the text
    of the request.  When [SendMessage] fails the answer is 500 and no
    message is enqueued. *)
Theorem createJob_enqueues_once (a : App) (c : SQSClient) (bytes : N)
    (fault : option string) (r : Http.Request) (w : World)
    (req : JobRequest) (messageBody : string) :
  let J := Uuid.to_string bytes in
  sqsClient a = Some c →
  Http.Method r = Http.MethodPost →
  json_Decode_JobRequest (Http.ReqBody r) = Ok req →
  json_Marshal_JobMessage {| msg_ID := J; msg_Text := req_Text req |}
  = Ok messageBody →
  Uuid.well_formed J = true ∧
  ∃ rw w',
    createJob a (Some bytes) fault Http.new_writer r w = Done rw w' ∧
    objects w' = objects w ∧
    match fault, queues w !! sqsURL a with
    | None, Some q =>
        Http.status rw = 201%Z ∧
        Http.rw_header rw = {[ "Content-Type" := "application/json" ]} ∧
        match json_Marshal_id_map J with
        | Ok s => Http.rw_body rw = s +:+ newline
        | Err _ => Http.rw_body rw = ""
        end ∧
        queues w' =
          <[sqsURL a :=
              q ++ [ {| Body := Some messageBody;
                        ReceiptHandle := Some (receipt_of (next_receipt w)) |} ]]>
            (queues w) ∧
        events w' = events w ++ [EvSendMessage (sqsURL a) messageBody true]
    | _, _ =>
        Http.status rw = 500%Z ∧
        Http.rw_body rw = "failed to send message" +:+ newline ∧
        queues w' = queues w
    end.
Proof. apply createJob_after_decode. Qed.

End Handlers.

(* --------------------------------------------------------------------- *)
(** ** The request decoder of [GoJson]                                    *)
(* --------------------------------------------------------------------- *)

Section RequestDecoder.
Import GoJson.

Lemma parse_not_blank body v rest :
  parse body = Some (v, rest) → skip_ws body ≠ "".
Proof.
  unfold parse. intros Hp Hblank. rewrite Hblank in Hp. discriminate.
Qed.

Lemma fill_JobRequest_unmatched ms v0 :
  Forall (λ kv, field_is "text" kv.1 = false) ms →
  fill_JobRequest ms v0 = Ok v0.
Proof.
  induction 1 as [|[k x] ms Hk _ IH]; [done|].
  simpl in *. by rewrite Hk.
Qed.

Lemma Decode_JobRequest_lacking body v rest :
  parse body = Some (v, rest) →
  lacks_text v →
  Decode fill_JobRequest zero_JobRequest body = Ok {| req_Text := "" |}.
Proof.
  intros Hp Hv. unfold Decode.
  rewrite bool_decide_eq_false_2 by eauto using parse_not_blank.
  rewrite Hp. destruct v; simpl in *; try done.
  by apply fill_JobRequest_unmatched.
Qed.

Lemma Decode_JobRequest_other_kind body v rest :
  parse body = Some (v, rest) →
  not_struct_like v →
  ∃ e, Decode fill_JobRequest zero_JobRequest body = Err e.
Proof.
  intros Hp Hv. unfold Decode.
  rewrite bool_decide_eq_false_2 by eauto using parse_not_blank.
  rewrite Hp. destruct v; simpl in *; try done; eauto.
Qed.

(** C10, as the code has it.  With [encoding/json] as modelled, a POST
    on /jobs whose body starts with a JSON value [v].  If [v] is [null]
    or an object without a key that matches [text], the body decodes to
    a JobRequest with empty text and, when [SendMessage] succeeds, the
    answer is 201 and the one message enqueued is the encoding of the
    JobMessage with the drawn id and the empty string as text.  If [v]
    is of another kind (array, string, number, boolean) the answer is
    400 and the world is unchanged, although the body is JSON without a
    [text] field. *)
Theorem createJob_missing_text (a : App) (c : SQSClient) (bytes : N)
    (r : Http.Request) (w : World) (queue : list Message)
    (v : value) (rest : string) :
  let J := Uuid.to_string bytes in
  sqsClient a = Some c →
  Http.Method r = Http.MethodPost →
  parse (Http.ReqBody r) = Some (v, rest) →
  queues w !! sqsURL a = Some queue →
  (lacks_text v →
     @json_Decode_JobRequest go_json (Http.ReqBody r)
     = Ok {| req_Text := "" |} ∧
     ∃ rw w' body,
       @createJob go_json a (Some bytes) None Http.new_writer r w
       = Done rw w' ∧
       Http.status rw = 201%Z ∧
       Marshal_JobMessage {| msg_ID := J; msg_Text := "" |} = Ok body ∧
       queues w' =
         <[sqsURL a :=
             queue ++ [ {| Body := Some body;
                           ReceiptHandle :=
                             Some (receipt_of (next_receipt w)) |} ]]>
           (queues w)) ∧
  (not_struct_like v →
     @createJob go_json a (Some bytes) None Http.new_writer r w
     = Done (Http.Error Http.new_writer "invalid JSON" 400) w).
Proof.
  intros J Hc Hpost Hp Hq. split.
  - intros Hv.
    pose proof (Decode_JobRequest_lacking _ _ _ Hp Hv) as Hdec.
    split; [exact Hdec|].
    destruct (createJob_after_decode (H:=go_json) a c bytes None r w
                {| req_Text := "" |} _ Hc Hpost Hdec eq_refl)
      as (_ & rw & w' & Hrun & _ & Hres).
    rewrite Hq in Hres. destruct Hres as (Hst & _ & _ & Hqueue & _).
    exists rw, w'. eexists. split; [exact Hrun|]. split; [exact Hst|].
    split; [reflexivity|]. exact Hqueue.
  - intros Hv.
    destruct (Decode_JobRequest_other_kind _ _ _ Hp Hv) as [e Hdec].
    unfold createJob. rewrite Hpost. simpl.
    change (json_Decode_JobRequest (Http.ReqBody r))
      with (Decode fill_JobRequest zero_JobRequest (Http.ReqBody r)).
    by rewrite Hdec.
Qed.

(** *** The stream decoder and what follows the first value *)

Import Codec.


Lemma skip_ws_app s x :
  skip_ws s ≠ "" → skip_ws (s +:+ x) = skip_ws s +:+ x.
Proof.
  induction s as [|c t IH]; [done|]. rewrite append_String. simpl.
  destruct (isSpace c); [exact IH|done].
Qed.

Lemma strip_prefix_app p s r x :
  strip_prefix p s = Some r → strip_prefix p (s +:+ x) = Some (r +:+ x).
Proof.
  revert s. induction p as [|a p IH]; intros s; simpl.
  - by intros [= ->].
  - destruct s as [|b s]; [done|]. rewrite append_String.
    destruct (Ascii.eqb a b); [apply IH|done].
Qed.

Lemma scan_string_app_len n s raw r x :
  String.length s < n →
  scan_string s = Some (raw, r) →
  scan_string (s +:+ x) = Some (raw, r +:+ x).
Proof.
  revert s raw r. induction n as [|n IH]; [lia|].
  intros [|c rest] raw r Hlen; [done|]. rewrite append_String.
  simpl in Hlen. simpl.
  destruct (bv c =? 34)%N; [by intros [= <- <-]|].
  destruct (bv c =? 92)%N.
  - destruct rest as [|e rest']; [done|]. rewrite append_String.
    simpl in Hlen.
    destruct (is_simple_escape e).
    + intros (raw1 & (raw2 & Hs & ->)%cons_raw_Some & ->)%cons_raw_Some.
      rewrite (IH rest' raw2 r) by (done || lia). done.
    + destruct (bv e =? 117)%N; [|done].
      destruct rest' as [|h1 [|h2 [|h3 [|h4 rest'']]]]; try done.
      rewrite !append_String. simpl in Hlen.
      destruct (is_hex_digit h1 && is_hex_digit h2 &&
                is_hex_digit h3 && is_hex_digit h4); [|done].
      intros (? & (? & (? & (? & (? & (raw6 & Hs & ->)%cons_raw_Some & ->)
        %cons_raw_Some & ->)%cons_raw_Some & ->)%cons_raw_Some & ->)
        %cons_raw_Some & ->)%cons_raw_Some.
      rewrite (IH rest'' raw6 r) by (done || lia). done.
  - destruct (bv c <? 32)%N; [done|].
    intros (raw1 & Hs & ->)%cons_raw_Some.
    rewrite (IH rest raw1 r) by (done || lia). done.
Qed.

Lemma scan_string_app s raw r x :
  scan_string s = Some (raw, r) →
  scan_string (s +:+ x) = Some (raw, r +:+ x).
Proof. apply (scan_string_app_len (S (String.length s))). lia. Qed.

Lemma span_digits_app s d r x :
  span_digits s = (d, r) → r ≠ "" → span_digits (s +:+ x) = (d, r +:+ x).
Proof.
  revert d. induction s as [|c t IH]; intros d; simpl.
  - by intros [= <- <-].
  - rewrite ?append_String. simpl. destruct (is_digit c).
    + destruct (span_digits t) as [d' r'] eqn:Ht. intros [= <- <-] Hr.
      by rewrite (IH d' eq_refl Hr).
    + by intros [= <- <-].
Qed.

Lemma digits1_app s d r x :
  digits1 s = Some (d, r) → r ≠ "" → digits1 (s +:+ x) = Some (d, r +:+ x).
Proof.
  unfold digits1. destruct (span_digits s) as [d' r'] eqn:Hs.
  destruct d' as [|c d']; [done|]. intros [= <- <-] Hr.
  by rewrite (span_digits_app _ _ _ _ Hs Hr).
Qed.

Lemma scan_number_app s lit rz x :
  scan_number s = Some (lit, rz) → rz ≠ "" →
  scan_number (s +:+ x) = Some (lit, rz +:+ x).
Proof.
  unfold scan_number. intros H Hr.
  destruct s as [|c0 r0]; [done|]. rewrite append_String.
  destruct (bv c0 =? 45)%N;
    [destruct r0 as [|c r]; [done|]; rewrite ?append_String
    |revert H; generalize c0 r0; clear c0 r0; intros c r H].
  all: destruct (is_digit c); [|done].
  all: destruct (bv c =? 48)%N;
    [destruct r as [|p r2]; [by simplify_eq/=|]
    |destruct (span_digits r) as [d [|p r2]] eqn:Hsd; [by simplify_eq/=|];
     rewrite (span_digits_app _ _ _ x Hsd) by done].
  all: rewrite ?append_String; cbv beta iota zeta in H |- *.
  all: destruct (bv p =? 46)%N;
    [destruct (digits1 r2) as [[d' [|e r4]]|] eqn:Hd;
       [by simplify_eq/=| |done];
     rewrite (digits1_app _ _ _ x Hd) by done;
     rewrite ?append_String; cbv beta iota zeta in H |- *
    |revert H; generalize p r2; intros e r4 H].
  all: destruct ((bv e =? 101)%N || (bv e =? 69)%N);
    [|by injection H as <- <-].
  all: destruct r4 as [|g r']; [by cbv in H|].
  all: rewrite append_String.
  all: destruct ((bv g =? 43)%N || (bv g =? 45)%N);
    cbv beta iota zeta in H |- *; rewrite <- ?(append_String g r' x).
  all: match type of H with
       | context [digits1 ?u] =>
           destruct (digits1 u) as [[d6 r6]|] eqn:Hd6; [|done];
           injection H as <- <-;
           by rewrite (digits1_app _ _ _ x Hd6 Hr)
       end.
Qed.

Lemma parse_items_empty fuel depth first acc :
  parse_items fuel depth first acc "" = None.
Proof. by destruct fuel. Qed.

Lemma parse_members_empty fuel depth first acc :
  parse_members fuel depth first acc "" = None.
Proof. by destruct fuel. Qed.

Lemma parse_stable fuel :
  ∀ fuel' x, fuel ≤ fuel' →
  (∀ depth s v r,
     parse_value fuel depth s = Some (v, r) → r ≠ "" ∨ not_number v →
     parse_value fuel' depth (s +:+ x) = Some (v, r +:+ x)) ∧
  (∀ depth first acc s v r,
     parse_items fuel depth first acc s = Some (v, r) →
     parse_items fuel' depth first acc (s +:+ x) = Some (v, r +:+ x)) ∧
  (∀ depth first acc s v r,
     parse_members fuel depth first acc s = Some (v, r) →
     parse_members fuel' depth first acc (s +:+ x) = Some (v, r +:+ x)).
Proof.
  induction fuel as [|f IH]; intros fuel' x Hle.
  { repeat split; intros; done. }
  destruct fuel' as [|f']; [lia|].
  destruct (IH f' x ltac:(lia)) as (IHv & IHi & IHm).
  split; [|split].
  - intros depth [|c rest] v r; [done|]. rewrite append_String.
    cbn [parse_value parse_items parse_members].
    rewrite <- !(append_String c rest x). intros H Hc.
    destruct (bv c =? 123)%N.
    { destruct (maxNestingDepth <? depth + 1)%N; [done|].
      rewrite skip_ws_app; [by apply IHm|].
      intros Hws. by rewrite Hws, parse_members_empty in H. }
    destruct (bv c =? 91)%N.
    { destruct (maxNestingDepth <? depth + 1)%N; [done|].
      rewrite skip_ws_app; [by apply IHi|].
      intros Hws. by rewrite Hws, parse_items_empty in H. }
    destruct (bv c =? 34)%N.
    { destruct (scan_string rest) as [[raw r0]|] eqn:Hs; [|done].
      injection H as <- <-. by rewrite (scan_string_app _ _ _ x Hs). }
    destruct (bv c =? 110)%N.
    { destruct (strip_prefix "null" (String c rest)) eqn:Hs; [|done].
      injection H as <- <-. by rewrite (strip_prefix_app _ _ _ x Hs). }
    destruct (bv c =? 116)%N.
    { destruct (strip_prefix "true" (String c rest)) eqn:Hs; [|done].
      injection H as <- <-. by rewrite (strip_prefix_app _ _ _ x Hs). }
    destruct (bv c =? 102)%N.
    { destruct (strip_prefix "false" (String c rest)) eqn:Hs; [|done].
      injection H as <- <-. by rewrite (strip_prefix_app _ _ _ x Hs). }
    destruct ((bv c =? 45)%N || is_digit c); [|done].
    destruct (scan_number (String c rest)) as [[lit r0]|] eqn:Hs; [|done].
    injection H as <- <-. destruct Hc as [Hr|[]].
    by rewrite (scan_number_app _ _ _ x Hs Hr).
  - intros depth first acc [|c rest] v r; [done|]. rewrite append_String.
    cbn [parse_value parse_items parse_members].
    rewrite <- !(append_String c rest x). intros H.
    destruct (first && (bv c =? 93)%N); [by injection H as <- <-|].
    destruct (parse_value f depth (String c rest)) as [[v1 r1]|] eqn:Hv;
      [|done].
    destruct (skip_ws r1) as [|d r2] eqn:Hws; [done|].
    assert (Hr1 : r1 ≠ "") by (by intros ->).
    rewrite (IHv _ _ _ _ Hv (or_introl Hr1)).
    rewrite skip_ws_app by (by rewrite Hws). rewrite Hws, append_String.
    destruct (bv d =? 44)%N.
    { rewrite skip_ws_app; [by apply IHi|].
      intros Hw2. by rewrite Hw2, parse_items_empty in H. }
    destruct (bv d =? 93)%N; [|done]. by injection H as <- <-.
  - intros depth first acc [|c rest] v r; [done|]. rewrite append_String.
    cbn [parse_value parse_items parse_members]. intros H.
    destruct (first && (bv c =? 125)%N); [by injection H as <- <-|].
    destruct (bv c =? 34)%N; [|done].
    destruct (scan_string rest) as [[rawkey r0]|] eqn:Hk; [|done].
    rewrite (scan_string_app _ _ _ x Hk).
    destruct (skip_ws r0) as [|colon r1] eqn:Hws0; [done|].
    rewrite skip_ws_app by (by rewrite Hws0). rewrite Hws0, append_String.
    destruct (bv colon =? 58)%N; [|done].
    destruct (parse_value f depth (skip_ws r1)) as [[v1 r2]|] eqn:Hv; [|done].
    assert (Hr1 : skip_ws r1 ≠ "").
    { intros Hw. rewrite Hw in Hv. by destruct f. }
    destruct (skip_ws r2) as [|d r3] eqn:Hws2; [done|].
    assert (Hr2 : r2 ≠ "") by (by intros ->).
    rewrite skip_ws_app by done.
    rewrite (IHv _ _ _ _ Hv (or_introl Hr2)).
    rewrite skip_ws_app by (by rewrite Hws2). rewrite Hws2, append_String.
    destruct (bv d =? 44)%N.
    { rewrite skip_ws_app; [by apply IHm|].
      intros Hw3. by rewrite Hw3, parse_members_empty in H. }
    destruct (bv d =? 125)%N; [|done]. by injection H as <- <-.
Qed.

(** Once the input holds a complete first value, appended bytes do not
    change it (a number that ends with the input excepted: it may go
    on). *)
Lemma parse_app b v r x :
  parse b = Some (v, r) → r ≠ "" ∨ not_number v →
  parse (b +:+ x) = Some (v, r +:+ x).
Proof.
  unfold parse. intros Hp Hc.
  assert (Hws : skip_ws b ≠ "").
  { intros Hw. rewrite Hw in Hp. done. }
  rewrite skip_ws_app by done.
  eapply parse_stable; [|exact Hp|exact Hc].
  rewrite append_length. lia.
Qed.

Lemma parse_kinds fuel :
  (∀ depth first acc s v r,
     parse_items fuel depth first acc s = Some (v, r) → ∃ l, v = JArray l) ∧
  (∀ depth first acc s v r,
     parse_members fuel depth first acc s = Some (v, r) → ∃ l, v = JObject l).
Proof.
  induction fuel as [|f [IHi IHm]]; [by split|]. split.
  - intros depth first acc [|c rest] v r; [done|].
    cbn [parse_value parse_items parse_members]. intros H.
    destruct (first && (bv c =? 93)%N); [injection H as <- <-; eauto|].
    destruct (parse_value f depth (String c rest)) as [[v1 r1]|]; [|done].
    destruct (skip_ws r1) as [|d r2]; [done|].
    destruct (bv d =? 44)%N; [eauto|].
    destruct (bv d =? 93)%N; [|done]. injection H as <- <-; eauto.
  - intros depth first acc [|c rest] v r; [done|].
    cbn [parse_value parse_items parse_members]. intros H.
    destruct (first && (bv c =? 125)%N); [injection H as <- <-; eauto|].
    destruct (bv c =? 34)%N; [|done].
    destruct (scan_string rest) as [[rawkey r0]|]; [|done].
    destruct (skip_ws r0) as [|colon r1]; [done|].
    destruct (bv colon =? 58)%N; [|done].
    destruct (parse_value f depth (skip_ws r1)) as [[v1 r2]|]; [|done].
    destruct (skip_ws r2) as [|d r3]; [done|].
    destruct (bv d =? 44)%N; [eauto|].
    destruct (bv d =? 125)%N; [|done]. injection H as <- <-; eauto.
Qed.

(** The first byte of a value decides its kind: what starts like a
    number is a number or nothing. *)
Lemma parse_value_number fuel depth c rest lit r :
  parse_value fuel depth (String c rest) = Some (JNumber lit, r) →
  ∀ fuel' depth' rest' v' r',
    parse_value fuel' depth' (String c rest') = Some (v', r') →
    ∃ lit', v' = JNumber lit'.
Proof.
  destruct fuel as [|f]; [done|].
  cbn [parse_value parse_items parse_members]. intros H.
  destruct (bv c =? 123)%N eqn:E1.
  { destruct (maxNestingDepth <? depth + 1)%N; [done|].
    by apply (proj2 (parse_kinds f)) in H as [? ?]. }
  destruct (bv c =? 91)%N eqn:E2.
  { destruct (maxNestingDepth <? depth + 1)%N; [done|].
    by apply (proj1 (parse_kinds f)) in H as [? ?]. }
  destruct (bv c =? 34)%N eqn:E3; [by destruct (scan_string rest) as [[??]|]|].
  destruct (bv c =? 110)%N eqn:E4; [by destruct (strip_prefix _ _)|].
  destruct (bv c =? 116)%N eqn:E5; [by destruct (strip_prefix _ _)|].
  destruct (bv c =? 102)%N eqn:E6; [by destruct (strip_prefix _ _)|].
  clear H. intros [|f'] depth' rest' v' r'; [done|].
  cbn [parse_value parse_items parse_members].
  rewrite E1, E2, E3, E4, E5, E6.
  destruct ((bv c =? 45)%N || is_digit c); [|done].
  destruct (scan_number _) as [[lit' r0]|]; [|done].
  intros [= <- <-]. eauto.
Qed.

Lemma fill_JobRequest_cases ms v0 :
  (Exists mistyped_text ms ∧ ∃ e, fill_JobRequest ms v0 = Err e) ∨
  (¬ Exists mistyped_text ms ∧ ∃ req, fill_JobRequest ms v0 = Ok req).
Proof.
  revert v0. induction ms as [|[k v] ms IH]; intros v0; simpl.
  - right. split; [by intros ?%Exists_nil|eauto].
  - destruct (field_is "text" k) eqn:Hk.
    + destruct v; simpl;
        try (left; split; [by left|eauto]);
        (destruct (IH {| req_Text := s |}) as [[Hex He]|[Hno Hok]] ||
         destruct (IH {| req_Text := req_Text v0 |}) as [[Hex He]|[Hno Hok]]);
        try (left; split; [by right|done]);
        right; (split; [|done]);
        intros [[_ []]|?]%Exists_cons; done.
    + destruct (IH v0) as [[Hex He]|[Hno Hok]].
      * left. split; [by right|done].
      * right. split; [|done].
        intros [[Hm _]|?]%Exists_cons; [simpl in Hm; congruence|done].
Qed.

(** The request decoder rejects exactly the unfit bodies. *)
Lemma Decode_JobRequest_unfit body :
  (unfit_body body ∧ ∃ e, Decode fill_JobRequest zero_JobRequest body = Err e) ∨
  (¬ unfit_body body ∧
   ∃ req, Decode fill_JobRequest zero_JobRequest body = Ok req).
Proof.
  unfold Decode, unfit_body.
  destruct (parse body) as [[v rest]|] eqn:Hp.
  - rewrite bool_decide_eq_false_2 by eauto using parse_not_blank.
    destruct v; simpl; try (left; split; [done|eauto]).
    + right. split; [by intros []|eauto].
    + apply fill_JobRequest_cases.
  - left. split; [done|]. case_bool_decide; eauto.
Qed.

Lemma Decode_app {A} (fill : list (string * value) → A → Result A)
    (zero : A) body v rest x :
  parse body = Some (v, rest) →
  match Decode fill zero (body +:+ x), Decode fill zero body with
  | Ok r1, Ok r2 => r1 = r2
  | Err _, Err _ => True
  | _, _ => False
  end.
Proof.
  intros Hp.
  assert (Hws : skip_ws body ≠ "") by eauto using parse_not_blank.
  assert (Hws' : skip_ws (body +:+ x) ≠ "").
  { rewrite skip_ws_app by done. destruct (skip_ws body); done. }
  unfold Decode. rewrite !bool_decide_eq_false_2 by done. rewrite Hp.
  destruct v as [| |lit| | |];
    try (rewrite (parse_app _ _ _ x Hp (or_intror I));
         by destruct (into_struct fill zero _)).
  destruct rest as [|c0 rest].
  - simpl. unfold parse in *. rewrite skip_ws_app by done.
    destruct (skip_ws body) as [|c t] eqn:Hb; [done|].
    rewrite append_String.
    destruct (parse_value _ 0 (String c (t +:+ x))) as [[v' r']|] eqn:Hp';
      [|done].
    destruct (parse_value_number _ _ _ _ _ _ Hp _ _ _ _ _ Hp') as [lit' ->].
    done.
  - assert (Hc : String c0 rest ≠ "") by done.
    by rewrite (parse_app _ _ _ x Hp (or_introl Hc)).
Qed.

(** C8, as the code has it.  With [encoding/json] as modelled, a POST
    on /jobs is answered 400 with the text [invalid JSON], the world left
    as it was (no message enqueued, nothing logged), exactly when its
    body is unfit: blank or broken before its first JSON value ends, or
    that value is an array, a string, a number or a boolean, or an
    object whose [text] member is neither a string nor [null].  No other
    body is answered 400.  The bytes after the first value are not
    examined: once a body holds a complete first value, whatever is
    appended to it leaves the outcome of the request as it is. *)
Theorem createJob_rejected_body (a : App) (rnd : option N)
    (fault : option string) (r : Http.Request) (w : World) :
  Http.Method r = Http.MethodPost →
  (unfit_body (Http.ReqBody r) →
     @createJob go_json a rnd fault Http.new_writer r w
     = Done (Http.Error Http.new_writer "invalid JSON" 400) w ∧
     Http.status (Http.Error Http.new_writer "invalid JSON" 400) = 400%Z) ∧
  (∀ rw w',
     @createJob go_json a rnd fault Http.new_writer r w = Done rw w' →
     Http.status rw = 400%Z → unfit_body (Http.ReqBody r)) ∧
  (∀ v rest x,
     parse (Http.ReqBody r) = Some (v, rest) →
     @createJob go_json a rnd fault Http.new_writer
       {| Http.Method := Http.Method r; Http.Path := Http.Path r;
          Http.ReqBody := Http.ReqBody r +:+ x |} w
     = @createJob go_json a rnd fault Http.new_writer r w).
Proof.
  intros Hpost. unfold createJob. rewrite Hpost. simpl.
  change (@json_Decode_JobRequest go_json)
    with (Decode fill_JobRequest zero_JobRequest).
  split; [|split].
  - intros Hun.
    destruct (Decode_JobRequest_unfit (Http.ReqBody r))
      as [[_ [e ->]]|[Hfit _]]; done.
  - intros rw w'.
    destruct (Decode_JobRequest_unfit (Http.ReqBody r))
      as [[Hun _]|[_ [req ->]]]; [done|].
    destruct rnd as [bytes|]; [|done]. simpl.
    unfold SendMessage. destruct (sqsClient a); [|done]. run.
    destruct fault; [by intros [= <- <-]|].
    destruct (queues w !! sqsURL a); by intros [= <- <-].
  - intros v rest x Hp.
    pose proof (Decode_app fill_JobRequest zero_JobRequest _ _ _ x Hp) as Hd.
    destruct (Decode _ _ (Http.ReqBody r +:+ x)),
             (Decode _ _ (Http.ReqBody r)); try done.
    by subst.
Qed.

End RequestDecoder.

(* --------------------------------------------------------------------- *)
(** ** processMessage                                                     *)
(* --------------------------------------------------------------------- *)

Section Process.
Context `{Json} `{Unicode}.

Lemma ToUpper_empty : Strings.ToUpper "" = "".
Proof. reflexivity. Qed.

(** On ASCII text the transform is the byte-wise upper-casing. *)
Lemma ToUpper_ascii t :
  string_forallb Strings.is_ascii_byte t = true →
  Strings.ToUpper t = string_map Strings.upper_byte t.
Proof.
  intros Hascii. unfold Strings.ToUpper. rewrite Hascii.
  destruct (string_existsb Strings.is_lower t) eqn:Hlow; [done|]. simpl.
  clear Hascii. induction t as [|c t IH]; [done|].
  simpl in *. apply orb_false_iff in Hlow as [Hc Ht].
  rewrite <- IH by done. unfold Strings.upper_byte. by rewrite Hc.
Qed.

(** The run of [processMessage] on a message that decodes and whose
    result encodes: one [PutObject] at the key of the id, and its
    outcome is the outcome of the call. *)
Lemma processMessage_run (a : App) (c : S3Client) (t : Time)
    (fault : option string) (m : Message) (body : string) (jm : JobMessage)
    (rb : string) (w : World) :
  s3Client a = Some c →
  Body m = Some body →
  json_Unmarshal_JobMessage body = Ok jm →
  json_Marshal_JobResult
    {| ID := msg_ID jm; Text := msg_Text jm;
       Output := Strings.ToUpper (msg_Text jm); ProcessedAt := t |} = Ok rb →
  processMessage a t fault m w =
    match fault with
    | None => Done (Ok tt) (put_world a (job_key (msg_ID jm)) rb w)
    | Some e =>
        Done (Err ("failed to put object: " +:+ e))
          {| queues := queues w; objects := objects w;
             next_receipt := next_receipt w;
             events := events w ++ [EvPutObject (s3Bucket a)
                                      (job_key (msg_ID jm)) rb false] |}
    end.
Proof.
  intros Hc Hb Hu Hm. unfold processMessage, PutObject.
  rewrite Hb, Hu, Hm, Hc. run. by destruct fault.
Qed.

(** A success of [processMessage] always comes from that run. *)
Lemma processMessage_success (a : App) (t : Time) (fault : option string)
    (m : Message) (w w' : World) :
  processMessage a t fault m w = Done (Ok tt) w' →
  ∃ body jm rb,
    Body m = Some body ∧
    json_Unmarshal_JobMessage body = Ok jm ∧
    json_Marshal_JobResult
      {| ID := msg_ID jm; Text := msg_Text jm;
         Output := Strings.ToUpper (msg_Text jm); ProcessedAt := t |}
    = Ok rb ∧
    fault = None ∧
    w' = put_world a (job_key (msg_ID jm)) rb w.
Proof.
  unfold processMessage, PutObject. run. intros Hrun.
  repeat case_match; simplify_eq.
  eexists _, _, _. repeat split; eauto.
Qed.

(** C5.  Two successful runs of [processMessage] on the same message,
    at times [t1] and [t2]: each stores the encoding of a JobResult at
    the key of the id; the two results agree on id, text and output and
    carry their own timestamps; after the second run the object at the
    key is exactly the encoding of the second result, every other
    object being as it was before the first run. *)
Theorem processing_is_idempotent (a : App) (t1 t2 : Time)
    (f1 f2 : option string) (m : Message) (body : string) (jm : JobMessage)
    (w w1 w2 : World) :
  Body m = Some body →
  json_Unmarshal_JobMessage body = Ok jm →
  processMessage a t1 f1 m w = Done (Ok tt) w1 →
  processMessage a t2 f2 m w1 = Done (Ok tt) w2 →
  let key := (s3Bucket a, job_key (msg_ID jm)) in
  ∃ R1 R2 b1 b2,
    json_Marshal_JobResult R1 = Ok b1 ∧
    json_Marshal_JobResult R2 = Ok b2 ∧
    objects w1 !! key = Some (json_object b1) ∧
    objects w2 !! key = Some (json_object b2) ∧
    same_payload R1 R2 ∧
    ID R2 = msg_ID jm ∧ Text R2 = msg_Text jm ∧
    Output R2 = Strings.ToUpper (msg_Text jm) ∧
    ProcessedAt R1 = t1 ∧ ProcessedAt R2 = t2 ∧
    objects w2 = <[key := json_object b2]> (objects w) ∧
    (∀ k, k ≠ key → objects w2 !! k = objects w !! k).
Proof.
  intros Hb Hu Hrun1 Hrun2 key.
  destruct (processMessage_success _ _ _ _ _ _ Hrun1)
    as (body1 & jm1 & b1 & Hb1 & Hu1 & Hm1 & _ & ->).
  destruct (processMessage_success _ _ _ _ _ _ Hrun2)
    as (body2 & jm2 & b2 & Hb2 & Hu2 & Hm2 & _ & ->).
  assert (body1 = body) as -> by congruence.
  assert (body2 = body) as -> by congruence.
  assert (jm1 = jm) as -> by congruence.
  assert (jm2 = jm) as -> by congruence.
  eexists _, _, b1, b2.
  split; [exact Hm1|]. split; [exact Hm2|]. simpl.
  split; [apply lookup_insert_eq|]. split; [apply lookup_insert_eq|].
  split; [done|]. do 5 (split; [done|]).
  split; [apply insert_insert_eq|].
  intros k Hk. by rewrite !lookup_insert_ne.
Qed.

End Process.

(* --------------------------------------------------------------------- *)
(** ** The output transform                                               *)
(* --------------------------------------------------------------------- *)

Section OutputTransform.
Context `{Json}.
#[local] Existing Instance GoUnicode.go_unicode.

(** C4.  With [unicode.ToUpper] as in [GoUnicode].  Whenever
    [processMessage] succeeds on a message carrying the JobMessage [jm],
    the object it stores is the encoding of a JobResult whose text is the
    text [T] of [jm] and whose output is [strings.ToUpper T].  For every
    [T] that is the rune-wise upper-casing of [T]: the UTF-8 encoding of
    [unicode.ToUpper] of each rune of [T], a byte that starts no valid
    encoding counting as U+FFFD.  The transform sends the empty string
    to the empty string and upper-cases ASCII text byte by byte. *)
Theorem output_is_upper (a : App) (t : Time) (fault : option string)
    (m : Message) (body : string) (jm : JobMessage) (w w' : World) :
  Body m = Some body →
  json_Unmarshal_JobMessage body = Ok jm →
  processMessage a t fault m w = Done (Ok tt) w' →
  (∃ R rb,
     json_Marshal_JobResult R = Ok rb ∧
     objects w' !! (s3Bucket a, job_key (msg_ID jm)) = Some (json_object rb) ∧
     ID R = msg_ID jm ∧ Text R = msg_Text jm ∧
     Output R = GoUnicode.Map GoUnicode.ToUpper (msg_Text jm) ∧
     Output R = Strings.ToUpper (msg_Text jm) ∧
     (msg_Text jm = "" → Output R = "") ∧
     (string_forallb Strings.is_ascii_byte (msg_Text jm) = true →
      Output R = string_map Strings.upper_byte (msg_Text jm))) ∧
  (∀ T, Strings.ToUpper T = GoUnicode.Map GoUnicode.ToUpper T) ∧
  Strings.ToUpper "" = "".
Proof.
  intros Hb Hu Hrun.
  split; [|split; [apply ToUpper_is_Map|apply ToUpper_empty]].
  destruct (processMessage_success _ _ _ _ _ _ Hrun)
    as (body' & jm' & rb & Hb' & Hu' & Hm & _ & ->).
  assert (body' = body) as -> by congruence.
  assert (jm' = jm) as -> by congruence.
  eexists _, rb. split; [exact Hm|]. cbn [objects put_world ID Text Output].
  split; [apply lookup_insert_eq|].
  split; [done|]. split; [done|]. split; [apply ToUpper_is_Map|].
  split; [done|].
  split; [intros ->; apply ToUpper_empty | apply ToUpper_ascii].
Qed.

End OutputTransform.

(* --------------------------------------------------------------------- *)
(** ** The worker loop                                                    *)
(* --------------------------------------------------------------------- *)

Section Worker.
Context `{Json} `{Unicode}.

(** [processMessage] panics before touching the world, fails without a
    successful write, or succeeds through exactly one. *)
Lemma processMessage_cases (a : App) (t : Time) (fault : option string)
    (m : Message) (w : World) :
  (∃ msg, processMessage a t fault m w = Panicked msg w) ∨
  (∃ e w' evs,
      processMessage a t fault m w = Done (Err e) w' ∧
      queues w' = queues w ∧ objects w' = objects w ∧
      events w' = events w ++ evs ∧ Forall quiet evs) ∨
  (∃ X rb,
      carries m X ∧
      is_result a (s3Bucket a, job_key X) (json_object rb) ∧
      processMessage a t fault m w
      = Done (Ok tt) (put_world a (job_key X) rb w)).
Proof.
  unfold processMessage, PutObject, carries, is_result. run.
  destruct (Body m) as [body|]; [|left; eauto].
  destruct (json_Unmarshal_JobMessage body) as [jm|e] eqn:Hu.
  2:{ right; left. exists ("failed to unmarshal message: " +:+ e), w, [].
      rewrite app_nil_r. repeat split; done. }
  destruct (json_Marshal_JobResult _) as [rb|e] eqn:Hm.
  2:{ right; left. exists ("failed to marshal result: " +:+ e), w, [].
      rewrite app_nil_r. repeat split; done. }
  destruct (s3Client a); [|left; eauto].
  destruct fault as [e|].
  - right; left. eexists _, _, [_]. repeat split; try done.
    by repeat constructor.
  - right; right. exists (msg_ID jm), rb. split; [eauto|].
    split; [|done]. eexists _, rb. split; [exact Hm|]. done.
Qed.

Lemma DeleteMessage_cases (c : option SQSClient) (url : string)
    (h fault : option string) (w : World) :
  (∃ msg, DeleteMessage c url h fault w = Panicked msg w) ∨
  (∃ r w' ok,
      DeleteMessage c url h fault w = Done r w' ∧
      objects w' = objects w ∧
      events w' = events w ++ [EvDeleteMessage url h ok] ∧
      (ok = false → queues w' = queues w)).
Proof.
  unfold DeleteMessage. run.
  destruct c; [|left; eauto]. right.
  destruct fault, h, (queues w !! url);
    eexists _, _, _; (split; [reflexivity|]); simpl; repeat split; done.
Qed.

(** The trace of the loop body on one message: nothing but quiet events
    and no change to queue or store, or a successful write that the
    acknowledgment, if it is reached, follows at once. *)
Lemma handle_message_shape (a : App) (me : MessageEnv) (m : Message)
    (w : World) :
  let w' := world_of (handle_message a me m w) in
  ∃ evs,
    events w' = events w ++ evs ∧
    ((Forall quiet evs ∧ objects w' = objects w ∧ queues w' = queues w) ∨
     (∃ X rb tail,
        carries m X ∧
        is_result a (s3Bucket a, job_key X) (json_object rb) ∧
        evs = EvPutObject (s3Bucket a) (job_key X) rb true :: tail ∧
        objects w' = <[(s3Bucket a, job_key X) := json_object rb]> (objects w) ∧
        (tail = [] ∨
         ∃ ok rest,
           tail = EvDeleteMessage (sqsURL a) (ReceiptHandle m) ok :: rest ∧
           Forall quiet rest))).
Proof.
  intros w'. subst w'. unfold handle_message. run.
  destruct (processMessage_cases a (now me) (put_fault me) m w)
    as [[msg ->] | [(e & w1 & evs & -> & Hq & Ho & He & Hquiet)
                   | (X & rb & HX & HR & ->)]].
  - exists []. simpl. rewrite app_nil_r. split; [done|]. left.
    split; [constructor|done].
  - exists (evs ++ [EvLog ("failed to process message: " +:+ e)]).
    run. rewrite He, app_assoc. split; [done|]. left.
    split; [|done]. apply Forall_app. split; [done|]. by repeat constructor.
  - destruct (DeleteMessage_cases (sqsClient a) (sqsURL a) (ReceiptHandle m)
                (delete_fault me) (put_world a (job_key X) rb w))
      as [[msg ->] | (r & w2 & ok & -> & Ho & He & _)].
    + eexists [_]. simpl. split; [done|]. right.
      eexists X, rb, []. repeat split; eauto.
    + destruct r as [[]|e]; run.
      * eexists [_; _]. rewrite He, Ho. simpl. rewrite <- app_assoc.
        split; [done|]. right. eexists X, rb, _.
        split; [done|]. split; [done|]. split; [done|]. split; [done|].
        right. by eexists ok, [].
      * eexists [_; _; _]. rewrite He, Ho. simpl. rewrite <- !app_assoc.
        split; [done|]. right. eexists X, rb, _.
        split; [done|]. split; [done|]. split; [done|]. split; [done|].
        right. eexists ok, [_]. split; [done|]. by repeat constructor.
Qed.

Lemma quiet_not_written b k evs : Forall quiet evs → ¬ written b k evs.
Proof.
  intros Hq [body Hin]. rewrite Forall_forall in Hq.
  exact (Hq _ Hin).
Qed.

Lemma quiet_ack_ordered a msgs evs : Forall quiet evs → ack_ordered a msgs evs.
Proof.
  intros Hq before after url h ok ->.
  apply Forall_app in Hq as [_ Hq]. by inversion Hq.
Qed.

Lemma quiet_accounted a msgs evs :
  Forall quiet evs → Forall (accounted a msgs) evs.
Proof.
  intros Hq. eapply Forall_impl; [exact Hq|].
  intros [] Hev; try done. by destruct ok.
Qed.

Lemma worker_trace_nil a msgs w : worker_trace a msgs w w [].
Proof.
  split; [by rewrite app_nil_r|]. split; [constructor|].
  split; [by apply quiet_ack_ordered; constructor|].
  split; [|by left].
  intros b k. split; [by left|]. intros [?|[body Hin]]; [done|].
  by apply elem_of_nil in Hin.
Qed.

Lemma written_app b k l1 l2 :
  written b k (l1 ++ l2) ↔ written b k l1 ∨ written b k l2.
Proof.
  unfold written. split.
  - intros [body Hin]. apply elem_of_app in Hin as [?|?]; eauto.
  - intros [[body Hin]|[body Hin]]; exists body; apply elem_of_app; eauto.
Qed.

Lemma ack_ordered_app a msgs l1 l2 :
  ack_ordered a msgs l1 → ack_ordered a msgs l2 →
  ack_ordered a msgs (l1 ++ l2).
Proof.
  intros H1 H2 before after url h ok Heq.
  apply app_eq_app in Heq as [l [[-> Heq]|[-> ->]]].
  - destruct l as [|ev l]; simpl in Heq.
    + destruct (H2 [] after url h ok (eq_sym Heq))
        as (b' & m & X & rb & Hnil & _).
      by destruct b'.
    + injection Heq as <- ->.
      destruct (H1 before l url h ok eq_refl) as (b' & m & X & rb & ?).
      eauto.
  - destruct (H2 l after url h ok eq_refl)
      as (b' & m & X & rb & -> & ?).
    exists (l1 ++ b'), m, X, rb. by rewrite app_assoc.
Qed.

Lemma worker_trace_app a msgs w w1 w2 l1 l2 :
  worker_trace a msgs w w1 l1 → worker_trace a msgs w1 w2 l2 →
  worker_trace a msgs w w2 (l1 ++ l2).
Proof.
  intros (He1 & Ha1 & Ho1 & Hs1 & Hr1) (He2 & Ha2 & Ho2 & Hs2 & Hr2).
  split; [by rewrite He2, He1, app_assoc|].
  split; [by apply Forall_app|].
  split; [by apply ack_ordered_app|].
  split.
  - intros b k. rewrite Hs2, Hs1, written_app. tauto.
  - intros key o Hlook. destruct (Hr2 _ _ Hlook) as [Hold|?]; [|by right].
    by apply Hr1.
Qed.

(** The loop body on one of the received messages. *)
Lemma handle_message_trace (a : App) (all : list Message) (me : MessageEnv)
    (m : Message) (w : World) :
  m ∈ all →
  ∃ evs, worker_trace a all w (world_of (handle_message a me m w)) evs.
Proof.
  intros Hm.
  destruct (handle_message_shape a me m w)
    as (evs & He & [(Hq & Ho & _)
                   | (X & rb & tail & HX & HR & -> & Ho & Htail)]).
  - exists evs. split; [done|]. split; [by apply quiet_accounted|].
    split; [by apply quiet_ack_ordered|]. rewrite Ho.
    split; [|by left].
    intros b k. split; [by left|].
    intros [?|Hw]; [done|]. by apply quiet_not_written in Hw.
  - eexists. split; [exact He|].
    assert (Hacc : accounted a all
                     (EvPutObject (s3Bucket a) (job_key X) rb true)).
    { split; [done|]. eauto. }
    assert (Hw : ∀ b k, written b k
                   (EvPutObject (s3Bucket a) (job_key X) rb true :: tail)
                 ↔ (b, k) = (s3Bucket a, job_key X)).
    { intros b k. split.
      - intros [body Hin]. apply elem_of_cons in Hin as [Heq|Hin].
        + by simplify_eq.
        + destruct Htail as [->|(ok & rest & -> & Hq)].
          * by apply elem_of_nil in Hin.
          * apply elem_of_cons in Hin as [?|Hin]; [done|].
            rewrite Forall_forall in Hq. destruct (Hq _ Hin).
      - intros [= -> ->]. exists rb. apply elem_of_cons. by left. }
    split; [|split; [|split]].
    + constructor; [done|].
      destruct Htail as [->|(ok & rest & -> & Hq)]; [constructor|].
      constructor; [done|]. by apply quiet_accounted.
    + intros before after url h ok Heq.
      destruct Htail as [->|(ok' & rest & -> & Hq)].
      * destruct before as [|? [|]]; simplify_eq/=.
      * destruct before as [|ev1 [|ev2 before]]; simplify_eq/=.
        -- exists [], m, X, rb. repeat split; done.
        -- apply Forall_app in Hq as [_ Hq]. by inversion Hq.
    + intros b k. rewrite Ho, Hw. split.
      * intros Hsome. destruct (decide ((s3Bucket a, job_key X) = (b, k)))
          as [<-|Hne]; [by right|]. left. by rewrite lookup_insert_ne in Hsome.
      * intros [Hsome|<-].
        -- destruct (decide ((s3Bucket a, job_key X) = (b, k))) as [<-|Hne].
           ++ rewrite lookup_insert_eq. eauto.
           ++ by rewrite lookup_insert_ne.
        -- rewrite lookup_insert_eq. eauto.
    + intros key o. rewrite Ho.
      destruct (decide ((s3Bucket a, job_key X) = key)) as [<-|Hne].
      * rewrite lookup_insert_eq. intros [= <-]. by right.
      * rewrite lookup_insert_ne by done. by left.
Qed.

(** The inner loop over the received messages. *)
Lemma range_messages_trace (a : App) (all : list Message)
    (envs : nat → MessageEnv) (msgs : list Message) :
  Forall (λ m, m ∈ all) msgs →
  ∀ i w,
    ∃ evs, worker_trace a all w (world_of (range_messages a envs i msgs w)) evs.
Proof.
  induction 1 as [|m msgs Hm _ IH]; intros i w.
  - exists []. apply worker_trace_nil.
  - destruct (handle_message_trace a all (envs i) m w Hm) as [evs1 Ht1].
    simpl. run.
    destruct (handle_message a (envs i) m w) as [[] w1|msg w1]; simpl in *.
    + destruct (IH (S i) w1) as [evs2 Ht2].
      exists (evs1 ++ evs2). by eapply worker_trace_app.
    + by exists evs1.
Qed.

(** One turn of the outer loop: the receive panics on a nil client,
    fails (log and sleep), or delivers messages that the inner loop then
    handles. *)
Lemma iteration_trace (a : App) (e : IterationEnv) (w : World) :
  let w' := world_of (workerLoop_iteration a e w) in
  w' = w ∨
  (∃ err evs,
      events w' = events w ++ EvReceiveMessage (sqsURL a) (Err err) :: evs ∧
      Forall quiet evs ∧ objects w' = objects w ∧ queues w' = queues w) ∨
  (∃ msgs w1 evs,
      events w1 = events w ++ [EvReceiveMessage (sqsURL a) (Ok msgs)] ∧
      objects w1 = objects w ∧
      worker_trace a msgs w1 w' evs).
Proof.
  intros w'. subst w'. unfold workerLoop_iteration, ReceiveMessage. run.
  destruct (sqsClient a); [|by left]. right.
  match goal with
  | |- context [EvReceiveMessage _ ?g] => destruct g as [msgs|err] eqn:Hgot
  end.
  - right.
    edestruct (range_messages_trace a msgs (message_env e) msgs) as [evs Ht].
    { by apply Forall_forall. }
    eexists msgs, _, evs. split; [|split; [|exact Ht]]; done.
  - left. exists err, [EvLog ("failed to receive message: " +:+ err); EvSleep 5].
    simpl. rewrite <- !app_assoc. repeat split; try done.
    by repeat constructor.
Qed.

(** The loop body on a message whose processing fails. *)
Lemma handle_message_failed (a : App) (me : MessageEnv) (m : Message)
    (w w1 : World) (err : string) :
  processMessage a (now me) (put_fault me) m w = Done (Err err) w1 →
  handle_message a me m w
  = Done tt {| queues := queues w1; objects := objects w1;
               next_receipt := next_receipt w1;
               events := events w1
                         ++ [EvLog ("failed to process message: " +:+ err)] |}.
Proof. intros Hp. unfold handle_message. run. by rewrite Hp. Qed.

(** C2.  In every turn of the worker loop each [DeleteMessage] is issued
    right after the successful [PutObject] of the result of the message
    it acknowledges, a message delivered by the receive of that turn.
    When the body of a received message does not decode, or the store
    write fails, handling that message ends normally: it issues no
    [DeleteMessage], leaves queue and store as they were, and the loop
    goes on with the remaining messages. *)
Theorem ack_after_store (a : App) (c : S3Client) :
  s3Client a = Some c →
  (∀ (e : IterationEnv) (w : World),
     ∃ new,
       events (world_of (workerLoop_iteration a e w)) = events w ++ new ∧
       ∀ before after url h ok,
         new = before ++ EvDeleteMessage url h ok :: after →
         ∃ before' m X rb,
           before = before'
                    ++ [EvPutObject (s3Bucket a) (job_key X) rb true] ∧
           delivered m before' ∧ carries m X ∧
           h = ReceiptHandle m ∧ url = sqsURL a) ∧
  (∀ (me : MessageEnv) (m : Message) (body : string) (w : World),
     Body m = Some body →
     (∃ err, json_Unmarshal_JobMessage body = Err err) ∨
       is_Some (put_fault me) →
     ∃ w' evs,
       handle_message a me m w = Done tt w' ∧
       events w' = events w ++ evs ∧
       Forall (λ ev, is_delete ev = false) evs ∧
       queues w' = queues w ∧ objects w' = objects w ∧
       ∀ envs i rest,
         envs i = me →
         range_messages a envs i (m :: rest) w
         = range_messages a envs (S i) rest w').
Proof.
  intros Hc. split.
  - intros e w.
    destruct (iteration_trace a e w)
      as [-> | [(err & evs & He & Hq & _)
               | (msgs & w1 & evs & He1 & _ & He & _ & Hack & _ & _)]].
    + exists []. split; [by rewrite app_nil_r|].
      intros before after url h ok Heq. by destruct before.
    + eexists. split; [exact He|].
      intros before after url h ok Heq.
      destruct before as [|ev before]; simplify_eq/=.
      apply Forall_app in Hq as [_ Hq]. by inversion Hq.
    + exists (EvReceiveMessage (sqsURL a) (Ok msgs) :: evs).
      split; [by rewrite He, He1, <- app_assoc|].
      intros before after url h ok Heq.
      destruct before as [|ev before]; simplify_eq/=.
      destruct (Hack before after url h ok eq_refl)
        as (b' & m & X & rb & -> & Hm & HX & -> & ->).
      exists (EvReceiveMessage (sqsURL a) (Ok msgs) :: b'), m, X, rb.
      repeat split; try done.
      exists (sqsURL a), msgs. split; [|done]. apply elem_of_cons. by left.
  - intros me m body w Hb Hfail.
    assert (∃ err w1 evs,
              processMessage a (now me) (put_fault me) m w = Done (Err err) w1 ∧
              queues w1 = queues w ∧ objects w1 = objects w ∧
              events w1 = events w ++ evs ∧
              Forall (λ ev, is_delete ev = false) evs)
      as (err & w1 & evs & Hp & Hq & Ho & He & Hnd).
    { unfold processMessage, PutObject. rewrite Hb, Hc. run.
      destruct (json_Unmarshal_JobMessage body) as [jm|err] eqn:Hu.
      - destruct Hfail as [[err Herr]|[f Hf]]; [done|].
        destruct (json_Marshal_JobResult _) as [rb|err].
        + rewrite Hf. eexists _, _, [_]. repeat split; try done.
          by repeat constructor.
        + eexists _, w, []. rewrite app_nil_r. repeat split; done.
      - eexists _, w, []. rewrite app_nil_r. repeat split; done. }
    pose proof (handle_message_failed a me m w w1 err Hp) as Hh.
    eexists _, (evs ++ [EvLog ("failed to process message: " +:+ err)]).
    split; [exact Hh|]. simpl. rewrite He, app_assoc.
    split; [done|]. split; [|split; [done|split; [done|]]].
    + apply Forall_app. split; [done|]. by repeat constructor.
    + intros envs i rest <-. rewrite <- He. simpl. run. by rewrite Hh.
Qed.

End Worker.

(* --------------------------------------------------------------------- *)
(** ** The lifecycle of a result                                          *)
(* --------------------------------------------------------------------- *)

Section Lifecycle.
Context `{Json} `{Unicode}.

Lemma length_append s1 s2 :
  String.length (s1 +:+ s2) = String.length s1 + String.length s2.
Proof. induction s1 as [|c s1 IH]; simpl; [done|]. by rewrite IH. Qed.

Lemma append_inv_tail x y s : x +:+ s = y +:+ s → x = y.
Proof.
  revert y. induction x as [|c x IH]; intros [|d y] Heq.
  - done.
  - apply (f_equal String.length) in Heq.
    rewrite !length_append in Heq. simpl in Heq. lia.
  - apply (f_equal String.length) in Heq.
    rewrite !length_append in Heq. simpl in Heq. lia.
  - injection Heq as -> Heq. f_equal. by apply IH.
Qed.

(** Distinct ids have distinct keys. *)
Lemma job_key_inj X Y : job_key X = job_key Y → X = Y.
Proof.
  unfold job_key. intros Heq. apply (inj (String.append "jobs/")) in Heq.
  by apply append_inv_tail in Heq.
Qed.

(** Closes a goal about a world that differs from [w] by at most two
    quiet events. *)
Ltac quiet_world :=
  simpl; split; [done|];
  first [ by exists []; rewrite app_nil_r
        | by eexists [_]; split; [|repeat constructor]
        | by eexists [_; _]; split;
            [rewrite <- app_assoc|repeat constructor] ].

Lemma createJob_quiet (a : App) (rnd : option N) (fault : option string)
    (rw : Http.ResponseWriter) (r : Http.Request) (w : World) :
  let w' := world_of (createJob a rnd fault rw r w) in
  objects w' = objects w ∧
  ∃ evs, events w' = events w ++ evs ∧ Forall quiet evs.
Proof.
  intros w'. subst w'. unfold createJob.
  destruct (negb _); [quiet_world|].
  destruct (json_Decode_JobRequest _); [|quiet_world].
  destruct rnd; [|quiet_world].
  destruct (json_Marshal_JobMessage _); [|quiet_world].
  unfold SendMessage. run.
  destruct (sqsClient a); [|quiet_world].
  destruct fault; [quiet_world|].
  destruct (queues w !! sqsURL a); quiet_world.
Qed.

Lemma getJob_quiet (a : App) (fault : option string)
    (rw : Http.ResponseWriter) (r : Http.Request) (w : World) :
  let w' := world_of (getJob a fault rw r w) in
  objects w' = objects w ∧
  ∃ evs, events w' = events w ++ evs ∧ Forall quiet evs.
Proof.
  intros w'. subst w'. unfold getJob.
  destruct (negb _); [quiet_world|].
  destruct (slice_from _ _) as [jobID|]; [|quiet_world].
  destruct (bool_decide _); [quiet_world|].
  unfold GetObject. run.
  destruct (s3Client a); [|quiet_world].
  destruct fault; [quiet_world|].
  destruct (objects w !! _); [|quiet_world]. simpl.
  destruct (json_Decode_JobResult _); quiet_world.
Qed.

(** No HTTP handler writes to the store or acknowledges a message. *)
Lemma serveHTTP_quiet (a : App) (e : RequestEnv) (r : Http.Request)
    (w : World) :
  let w' := world_of (serveHTTP a e r w) in
  objects w' = objects w ∧
  ∃ evs, events w' = events w ++ evs ∧ Forall quiet evs.
Proof.
  intros w'. subst w'. unfold serveHTTP.
  destruct (route _); try quiet_world.
  - apply createJob_quiet.
  - apply getJob_quiet.
Qed.

Lemma processed_mono (a : App) (X : string) (tr new : list Event) :
  processed a X tr → processed a X (tr ++ new).
Proof.
  intros (before & after & m & -> & Hd & HX & [body Hw]).
  exists before, (after ++ new), m. rewrite app_assoc.
  repeat split; try done. exists body. apply elem_of_app. by left.
Qed.

(** Quiet events preserve the invariant of the store. *)
Lemma store_invariant_quiet (a : App) (w w' : World) (evs : list Event) :
  store_invariant a w →
  objects w' = objects w →
  events w' = events w ++ evs →
  Forall quiet evs →
  store_invariant a w'.
Proof.
  intros (Hi & Hii & Hiii) Ho He Hq. rewrite Forall_forall in Hq.
  split; [|split].
  - intros b k. rewrite Ho, He, Hi, written_app.
    split; [by left|]. intros [?|Hw]; [done|].
    apply quiet_not_written in Hw; [done|]. by apply Forall_forall.
  - intros b k body. rewrite He. intros Hin.
    apply elem_of_app in Hin as [Hin|Hin]; [|destruct (Hq _ Hin)].
    destruct (Hii _ _ _ Hin) as (-> & X & -> & HX).
    split; [done|]. exists X. split; [done|]. by apply processed_mono.
  - intros key o. rewrite Ho. apply Hiii.
Qed.

(** A turn of the worker preserves the invariant of the store. *)
Lemma store_invariant_worker (a : App) (e : IterationEnv) (w : World) :
  store_invariant a w →
  store_invariant a (world_of (workerLoop_iteration a e w)).
Proof.
  intros Hinv.
  destruct (iteration_trace a e w)
    as [-> | [(err & evs & He & Hq & Ho & _)
             | (msgs & w1 & evs & He1 & Ho1 & He & Hacc & _ & Hs & Hr)]].
  - done.
  - eapply store_invariant_quiet; [exact Hinv|exact Ho|exact He|].
    by constructor.
  - destruct Hinv as (Hi & Hii & Hiii).
    rewrite Forall_forall in Hacc.
    split; [|split].
    + intros b k. rewrite Hs, Ho1, Hi, He, He1, <- app_assoc.
      rewrite !written_app. split; [tauto|].
      intros [?|[[body Hin]|?]]; [tauto| |tauto].
      by apply list_elem_of_singleton in Hin.
    + intros b k body. rewrite He, He1. intros Hin.
      apply elem_of_app in Hin as [Hin|Hin].
      * apply elem_of_app in Hin as [Hin|Hin];
          [|by apply list_elem_of_singleton in Hin].
        destruct (Hii _ _ _ Hin) as (-> & X & -> & HX).
        split; [done|]. exists X. split; [done|].
        rewrite <- app_assoc. by apply processed_mono.
      * destruct (Hacc _ Hin) as (-> & m & X & Hm & HX & ->).
        split; [done|]. exists X. split; [done|].
        exists (events w ++ [EvReceiveMessage (sqsURL a) (Ok msgs)]), evs, m.
        split; [done|]. split; [|split; [done|by exists body]].
        exists (sqsURL a), msgs. split; [|done].
        apply elem_of_app. right. by apply list_elem_of_singleton.
    + intros key o Hlook. destruct (Hr _ _ Hlook) as [Hold|?]; [|done].
      apply Hiii. by rewrite <- Ho1.
Qed.

Lemma reachable_store_invariant s :
  reachable s → store_invariant (sys_app s) (sys_world s).
Proof.
  induction 1 as [s (_ & _ & _ & _ & Ho & He) | s s' _ IH Hstep].
  - unfold store_invariant. rewrite Ho, He. split; [|split].
    + intros b k. rewrite lookup_empty. split; [by intros [? ?]|].
      intros [body Hin]. by apply elem_of_nil in Hin.
    + intros b k body Hin. by apply elem_of_nil in Hin.
    + intros key o. by rewrite lookup_empty.
  - destruct Hstep as [s e r _ | s e _ _]; simpl.
    + destruct (serveHTTP_quiet (sys_app s) e r (sys_world s))
        as (Ho & evs & He & Hq).
      by eapply store_invariant_quiet.
    + by apply store_invariant_worker.
Qed.

(** C1.  In every state the running process can reach, started on an
    empty bucket: an object exists under jobs/X.json exactly when a
    message carrying id X was dequeued and, after that, the write of its
    result succeeded; the object is then the encoding of a JobResult
    with id X.  Nothing else is in the bucket, serving a request never
    changes the store, and no step of the process removes an object. *)
Theorem lifecycle_invariant s :
  reachable s →
  let a := sys_app s in
  let w := sys_world s in
  (∀ X, is_Some (objects w !! (s3Bucket a, job_key X))
        ↔ processed a X (events w)) ∧
  (∀ X o, objects w !! (s3Bucket a, job_key X) = Some o →
          ∃ R rb, json_Marshal_JobResult R = Ok rb ∧
                  o = json_object rb ∧ ID R = X) ∧
  (∀ b k, is_Some (objects w !! (b, k)) →
          b = s3Bucket a ∧ ∃ X, k = job_key X) ∧
  (∀ e r, objects (world_of (serveHTTP a e r w)) = objects w) ∧
  (∀ s' key, step s s' →
             is_Some (objects w !! key) →
             is_Some (objects (sys_world s') !! key)).
Proof.
  intros Hreach a w.
  destruct (reachable_store_invariant s Hreach) as (Hi & Hii & Hiii).
  fold a w in Hi, Hii, Hiii.
  split; [|split; [|split; [|split]]].
  - intros X. rewrite Hi. split.
    + intros [body Hin].
      destruct (Hii _ _ _ Hin) as (_ & X' & Hk & HX).
      by apply job_key_inj in Hk as <-.
    + intros (before & after & m & -> & _ & _ & [body Hin]).
      exists body. apply elem_of_app. by right.
  - intros X o Hlook.
    destruct (Hiii _ _ Hlook) as (R & rb & Hm & -> & HX).
    apply (f_equal snd) in HX. simpl in HX.
    apply job_key_inj in HX as ->. eauto.
  - intros b k Hsome. apply Hi in Hsome as [body Hin].
    destruct (Hii _ _ _ Hin) as (-> & X & -> & _). eauto.
  - intros e r. apply serveHTTP_quiet.
  - intros s' [b k] Hstep Hsome.
    destruct Hstep as [s e r _ | s e _ _]; simpl.
    + subst a w. by rewrite (proj1 (serveHTTP_quiet _ e r _)).
    + subst a w.
      destruct (iteration_trace (sys_app s) e (sys_world s))
        as [-> | [(err & evs & _ & _ & -> & _)
                 | (msgs & w1 & evs & _ & Ho1 & _ & _ & _ & Hs & _)]];
        [done|done|].
      apply Hs. left. by rewrite Ho1.
Qed.

End Lifecycle.
(* --------------------------------------------------------------------- *)
(** ** JSON strings: what is written is read back                         *)
(* --------------------------------------------------------------------- *)

Section JsonStrings.
Import GoJson GoUnicode Codec.

Lemma quote_bytes_nil n : quote_bytes n "" = "".
Proof. by destruct n. Qed.

Lemma unquote_bytes_nil n : unquote_bytes n "" = "".
Proof. by destruct n. Qed.

(** What the encoder writes for a byte below 0x80 is read by the scanner
    as part of the literal. *)
Lemma scan_string_ascii c X raw r :
  (bv c < 128)%N →
  scan_string X = Some (raw, r) →
  scan_string ((if html_safe c then String c "" else escape_ascii c) +:+ X)
  = Some ((if html_safe c then String c "" else escape_ascii c) +:+ raw, r).
Proof.
  intros Hc HX.
  destruct c as [b0 b1 b2 b3 b4 b5 b6 b7].
  destruct b7; [by destruct b0, b1, b2, b3, b4, b5, b6|]. clear Hc.
  destruct b0, b1, b2, b3, b4, b5, b6; simpl;
    change ("" +:+ X) with X; rewrite HX; vm_compute; reflexivity.
Qed.

Lemma unquote_bytes_ascii c m X :
  (bv c < 128)%N →
  unquote_bytes (S m)
    ((if html_safe c then String c "" else escape_ascii c) +:+ X)
  = String c (unquote_bytes m X).
Proof.
  intros Hc.
  destruct c as [b0 b1 b2 b3 b4 b5 b6 b7].
  destruct b7; [by destruct b0, b1, b2, b3, b4, b5, b6|]. clear Hc.
  destruct b0, b1, b2, b3, b4, b5, b6; simpl;
    change ("" +:+ X) with X; reflexivity.
Qed.

Lemma scan_string_high e X raw r :
  high_bytes e = true →
  scan_string X = Some (raw, r) →
  scan_string (e +:+ X) = Some (e +:+ raw, r).
Proof.
  unfold high_bytes. intros He HX.
  induction e as [|c e IH]; [done|]. simpl in He.
  apply andb_true_iff in He as [Hc He]. apply N.leb_le in Hc.
  rewrite !append_String. simpl.
  rewrite (proj2 (N.eqb_neq _ _)) by lia.
  rewrite (proj2 (N.eqb_neq _ _)) by lia.
  rewrite (proj2 (N.ltb_ge _ _)) by lia.
  by rewrite IH.
Qed.

Lemma quote_bytes_rune r n s :
  quote_bytes (S n) (EncodeRune r +:+ s) = quoted_rune r +:+ quote_bytes n s.
Proof.
  unfold quoted_rune. cbv zeta.
  destruct (N.ltb_spec (scalar r) 128) as [Hq|Hq].
  - rewrite EncodeRune_low by done. rewrite append_String. simpl.
    rewrite bv_byte by lia. by rewrite (proj2 (N.ltb_lt _ _) Hq).
  - destruct (EncodeRune_high r Hq) as [Hhigh Hlen].
    pose proof (DecodeRune_EncodeRune r s) as Hdec.
    pose proof (drop_bytes_app (EncodeRune r) s) as Hdrop.
    pose proof (take_bytes_app (EncodeRune r) s) as Htake.
    destruct (EncodeRune r) as [|c e] eqn:He; [simpl in Hlen; lia|].
    rewrite append_String in *. unfold high_bytes in Hhigh. simpl in Hhigh.
    apply andb_true_iff in Hhigh as [Hc _]. apply N.leb_le in Hc.
    cbn [quote_bytes]. rewrite (proj2 (N.ltb_ge _ _)) by lia.
    rewrite Hdec, Hdrop, Htake.
    replace (Nat.eqb (String.length (String c e)) 1) with false
      by (symmetry; apply Nat.eqb_neq; lia).
    rewrite andb_false_r. by repeat case_match.
Qed.

Lemma scan_string_rune r X raw r' :
  scan_string X = Some (raw, r') →
  scan_string (quoted_rune r +:+ X) = Some (quoted_rune r +:+ raw, r').
Proof.
  intros HX. unfold quoted_rune. cbv zeta.
  destruct (N.ltb_spec (scalar r) 128) as [Hq|Hq].
  - apply scan_string_ascii; [|done]. rewrite bv_byte by lia. done.
  - destruct (scalar r =? 8232)%N;
      [simpl; change ("" +:+ X) with X; by rewrite HX|].
    destruct (scalar r =? 8233)%N;
      [simpl; change ("" +:+ X) with X; by rewrite HX|].
    apply scan_string_high; [|done]. by apply EncodeRune_high.
Qed.

Lemma unquote_bytes_rune r m X :
  unquote_bytes (S m) (quoted_rune r +:+ X)
  = EncodeRune r +:+ unquote_bytes m X.
Proof.
  unfold quoted_rune. cbv zeta.
  destruct (N.ltb_spec (scalar r) 128) as [Hq|Hq].
  - rewrite unquote_bytes_ascii by (rewrite bv_byte by lia; done).
    by rewrite EncodeRune_low.
  - destruct (N.eqb_spec (scalar r) 8232) as [E1|E1].
    { rewrite <- EncodeRune_scalar, E1. reflexivity. }
    destruct (N.eqb_spec (scalar r) 8233) as [E2|E2].
    { rewrite <- EncodeRune_scalar, E2. reflexivity. }
    destruct (EncodeRune_high r Hq) as [Hhigh Hlen].
    pose proof (DecodeRune_EncodeRune r X) as Hdec.
    pose proof (drop_bytes_app (EncodeRune r) X) as Hdrop.
    pose proof (EncodeRune_scalar r) as Hsc.
    destruct (EncodeRune r) as [|c e] eqn:He; [simpl in Hlen; lia|].
    rewrite append_String in *. unfold high_bytes in Hhigh. simpl in Hhigh.
    apply andb_true_iff in Hhigh as [Hc _]. apply N.leb_le in Hc.
    cbn [unquote_bytes]. rewrite (proj2 (N.eqb_neq _ _)) by lia.
    rewrite (proj2 (N.ltb_ge _ _)) by lia.
    rewrite Hdec, Hdrop, Hsc. done.
Qed.

Lemma quoted_rune_length r : 1 ≤ String.length (quoted_rune r).
Proof.
  unfold quoted_rune. cbv zeta.
  destruct (scalar r <? 128)%N.
  - destruct (html_safe _); [simpl; lia|].
    unfold escape_ascii. cbv zeta. repeat case_match; simpl; lia.
  - repeat case_match; simpl; try lia. apply EncodeRune_length.
Qed.

(** The scanner reads the encoding of a well-formed string up to the
    closing quote. *)
Lemma scan_string_quote_bytes s :
  Utf8 s → ∀ n rest, String.length s ≤ n →
  scan_string (quote_bytes n s +:+ dquote +:+ rest)
  = Some (quote_bytes n s, rest).
Proof.
  induction 1 as [|r s _ IH]; intros n rest Hn.
  - by rewrite quote_bytes_nil.
  - rewrite append_length in Hn. pose proof (EncodeRune_length r).
    destruct n as [|n]; [lia|].
    rewrite quote_bytes_rune, append_assoc.
    apply scan_string_rune, IH. lia.
Qed.

(** Decoding the encoding of a well-formed string gives it back. *)
Lemma unquote_quote_bytes s :
  Utf8 s → ∀ n m, String.length s ≤ n →
  String.length (quote_bytes n s) ≤ m →
  unquote_bytes m (quote_bytes n s) = s.
Proof.
  induction 1 as [|r s _ IH]; intros n m Hn Hm.
  - by rewrite quote_bytes_nil, unquote_bytes_nil.
  - rewrite append_length in Hn. pose proof (EncodeRune_length r).
    destruct n as [|n]; [lia|].
    rewrite quote_bytes_rune in *. rewrite append_length in Hm.
    pose proof (quoted_rune_length r).
    destruct m as [|m]; [lia|].
    rewrite unquote_bytes_rune. f_equal. apply IH; lia.
Qed.

(** A quoted well-formed string is read as the string it encodes. *)
Lemma parse_value_quote s fuel depth rest :
  Utf8 s →
  parse_value (S fuel) depth (quote s +:+ rest)
  = Some (JString (quote_bytes (String.length s) s) s, rest).
Proof.
  intros Hs. unfold quote. rewrite !append_assoc.
  change (dquote +:+ ?x) with (String (byte 34) x).
  cbn [parse_value]. simpl (bv _ =? _)%N. cbv iota.
  rewrite <- append_assoc, append_assoc.
  rewrite scan_string_quote_bytes by done.
  unfold unquote. by rewrite unquote_quote_bytes.
Qed.

Lemma scan_string_Escaped_len n s raw r :
  String.length s < n → scan_string s = Some (raw, r) → Escaped raw.
Proof.
  revert s raw r. induction n as [|n IH]; [lia|].
  intros [|c rest] raw r Hlen; [done|]. simpl in Hlen. simpl.
  destruct (bv c =? 34)%N eqn:E34; [intros [= <- <-]; constructor|].
  destruct (bv c =? 92)%N eqn:E92.
  - apply bv_eq in E92 as ->; [|done].
    destruct rest as [|e rest']; [done|]. simpl in Hlen.
    destruct (is_simple_escape e) eqn:Hsimple.
    + intros (raw1 & (raw2 & Hs & ->)%cons_raw_Some & ->)%cons_raw_Some.
      apply Escaped_simple; [done|]. apply (IH rest' _ r); [lia|done].
    + destruct (bv e =? 117)%N eqn:E117; [|done].
      apply bv_eq in E117 as ->; [|done].
      destruct rest' as [|h1 [|h2 [|h3 [|h4 rest'']]]]; try done.
      simpl in Hlen.
      destruct (is_hex_digit h1 && is_hex_digit h2 &&
                is_hex_digit h3 && is_hex_digit h4) eqn:Hhex; [|done].
      intros (? & (? & (? & (? & (? & (raw6 & Hs & ->)%cons_raw_Some & ->)
        %cons_raw_Some & ->)%cons_raw_Some & ->)%cons_raw_Some & ->)
        %cons_raw_Some & ->)%cons_raw_Some.
      apply Escaped_u; [done|]. apply (IH rest'' _ r); [lia|done].
  - destruct (bv c <? 32)%N; [done|].
    intros (raw1 & Hs & ->)%cons_raw_Some.
    apply Escaped_byte; [by apply N.eqb_neq|].
    apply (IH rest _ r); [lia|done].
Qed.

Lemma scan_string_Escaped s raw r :
  scan_string s = Some (raw, r) → Escaped raw.
Proof. apply (scan_string_Escaped_len (S (String.length s))). lia. Qed.

Lemma Escaped_cons_inv c s : bv c ≠ 92%N → Escaped (String c s) → Escaped s.
Proof. intros Hc H. inversion H; subst; done. Qed.

Lemma Escaped_backslash_inv e s :
  Escaped (String (byte 92) (String e s)) →
  (is_simple_escape e = true ∧ Escaped s) ∨
  (∃ h1 h2 h3 h4 s',
     e = byte 117 ∧ s = String h1 (String h2 (String h3 (String h4 s'))) ∧
     is_hex_digit h1 && is_hex_digit h2 && is_hex_digit h3 && is_hex_digit h4
     = true ∧ Escaped s').
Proof.
  intros H. inversion H; subst; [done|by left|].
  right. eexists _, _, _, _, _. eauto.
Qed.

Lemma Escaped_drop_high k s :
  Escaped s → high_bytes (take_bytes k s) = true → Escaped (drop_bytes k s).
Proof.
  revert s. induction k as [|k IH]; intros [|c t] Hs; simpl; try done.
  unfold high_bytes. simpl. intros [Hc Ht]%andb_true_iff.
  apply N.leb_le in Hc. apply IH; [|done].
  apply (Escaped_cons_inv c); [lia|done].
Qed.

Lemma DecodeRune_high c t r size :
  (128 <= bv c)%N → DecodeRune (String c t) = (r, size) →
  high_bytes (take_bytes size (String c t)) = true.
Proof.
  intros Hc. unfold DecodeRune, high_bytes, is_cont, in_range.
  rewrite (proj2 (N.ltb_ge _ _)) by lia.
  intros Hd.
  repeat case_match; simplify_eq; simpl;
    repeat match goal with
    | H : _ && _ = true |- _ => apply andb_true_iff in H as [? ?]
    | H : (_ <=? _)%N = true |- _ => apply N.leb_le in H
    end;
    repeat (apply andb_true_iff; split); try done; apply N.leb_le; lia.
Qed.

Lemma DecodeRune_size c t r size :
  DecodeRune (String c t) = (r, size) → 1 ≤ size.
Proof.
  unfold DecodeRune. intros Hd. repeat case_match; simplify_eq; lia.
Qed.

Lemma simple_escape_ascii e :
  is_simple_escape e = true → (bv (unescape e) < 128)%N.
Proof.
  destruct e as [b0 b1 b2 b3 b4 b5 b6 b7].
  destruct b0, b1, b2, b3, b4, b5, b6, b7; by vm_compute.
Qed.

(** Whatever text the scanner accepted, the string it denotes is
    well-formed UTF-8. *)
Lemma Utf8_unquote_bytes fuel raw :
  Escaped raw → Utf8 (unquote_bytes fuel raw).
Proof.
  revert raw. induction fuel as [|fuel IH]; intros raw Hraw; [constructor|].
  destruct raw as [|c rest]; [constructor|]. cbn [unquote_bytes].
  destruct (bv c =? 92)%N eqn:E92.
  - apply bv_eq in E92 as ->; [|done].
    destruct rest as [|e rest']; [constructor|].
    apply Escaped_backslash_inv in Hraw
      as [[Hsimple Hrest]|(h1 & h2 & h3 & h4 & s' & -> & -> & Hhex & Hs')].
    + destruct (bv e =? 117)%N eqn:E117.
      { apply bv_eq in E117 as ->; done. }
      apply Utf8_byte; [by apply simple_escape_ascii|by apply IH].
    + change (bv (byte 117) =? 117)%N with true. cbv iota.
      unfold getu4 at 1.
      change (bv (byte 92) =? 92)%N with true.
      change (bv (byte 117) =? 117)%N with true.
      rewrite !andb_true_l, Hhex.
      cbn [drop_bytes].
      destruct (is_surrogate _).
      * destruct (getu4 s') as [rr1|] eqn:Hu; [|by constructor; apply IH].
        destruct (_ =? RuneError)%N; [by constructor; apply IH|].
        constructor. apply IH.
        unfold getu4 in Hu.
        destruct s' as [|g0 [|g1 [|g2 [|g3 [|g4 [|g5 tail]]]]]]; try done.
        destruct (bv g0 =? 92)%N eqn:G0; [|done].
        destruct (bv g1 =? 117)%N eqn:G1; [|done].
        apply bv_eq in G0 as ->; [|done]. apply bv_eq in G1 as ->; [|done].
        apply Escaped_backslash_inv in Hs'
          as [[Hsimple _]|(?&?&?&?&?& _ & [= -> -> -> -> ->] & _ & Hs'')];
          done.
      * constructor. by apply IH.
  - destruct (bv c <? 128)%N eqn:E128.
    + apply N.ltb_lt in E128. apply N.eqb_neq in E92.
      apply Utf8_byte; [done|]. apply IH. by apply (Escaped_cons_inv c).
    + apply N.ltb_ge in E128.
      destruct (DecodeRune (String c rest)) as [r size] eqn:Hd.
      constructor. apply IH. apply Escaped_drop_high; [done|].
      by apply (DecodeRune_high c rest r).
Qed.

Lemma parse_value_string fuel depth s raw str r :
  parse_value fuel depth s = Some (JString raw str, r) → Utf8 str.
Proof.
  destruct fuel as [|f]; [done|]. destruct s as [|c rest]; [done|].
  cbn [parse_value parse_items parse_members]. intros H.
  destruct (bv c =? 123)%N.
  { destruct (maxNestingDepth <? depth + 1)%N; [done|].
    by apply (proj2 (parse_kinds f)) in H as [? ?]. }
  destruct (bv c =? 91)%N.
  { destruct (maxNestingDepth <? depth + 1)%N; [done|].
    by apply (proj1 (parse_kinds f)) in H as [? ?]. }
  destruct (bv c =? 34)%N.
  { destruct (scan_string rest) as [[raw' r']|] eqn:Hs; [|done].
    injection H as <- <- <-. apply Utf8_unquote_bytes.
    by apply scan_string_Escaped in Hs. }
  destruct (bv c =? 110)%N; [by destruct (strip_prefix _ _)|].
  destruct (bv c =? 116)%N; [by destruct (strip_prefix _ _)|].
  destruct (bv c =? 102)%N; [by destruct (strip_prefix _ _)|].
  destruct ((bv c =? 45)%N || is_digit c); [|done].
  by destruct (scan_number _) as [[??]|].
Qed.

(** Every string that is a member of a parsed object is well-formed. *)
Lemma parse_members_strings fuel depth first acc s v r :
  parse_members fuel depth first acc s = Some (v, r) →
  (∀ k raw str, (k, JString raw str) ∈ acc → Utf8 str) →
  ∃ ms, v = JObject ms ∧ ∀ k raw str, (k, JString raw str) ∈ ms → Utf8 str.
Proof.
  revert first acc s v r.
  induction fuel as [|f IH]; intros first acc s v r; [done|].
  destruct s as [|c rest]; [done|].
  cbn [parse_value parse_items parse_members]. intros H Hacc.
  destruct (first && (bv c =? 125)%N).
  { injection H as <- <-. eexists. split; [done|].
    intros k raw str Hin%list_elem_of_In%in_rev%list_elem_of_In. eauto. }
  destruct (bv c =? 34)%N; [|done].
  destruct (scan_string rest) as [[rawkey r0]|]; [|done].
  destruct (skip_ws r0) as [|colon r1]; [done|].
  destruct (bv colon =? 58)%N; [|done].
  destruct (parse_value f depth (skip_ws r1)) as [[v1 r2]|] eqn:Hv; [|done].
  assert (Hacc' : ∀ k raw str,
            (k, JString raw str) ∈ (unquote rawkey, v1) :: acc → Utf8 str).
  { intros k raw str [[= ? <-]|Hin]%elem_of_cons; [|eauto].
    by apply parse_value_string in Hv. }
  destruct (skip_ws r2) as [|d r3]; [done|].
  destruct (bv d =? 44)%N; [by eapply IH|].
  destruct (bv d =? 125)%N; [|done].
  injection H as <- <-. eexists. split; [done|].
  intros k raw str Hin. apply (Hacc' k raw).
  apply list_elem_of_In, (proj2 (in_rev _ _)), list_elem_of_In. exact Hin.
Qed.

Lemma parse_strings body v rest :
  parse body = Some (v, rest) →
  match v with
  | JObject ms => ∀ k raw str, (k, JString raw str) ∈ ms → Utf8 str
  | _ => True
  end.
Proof.
  unfold parse. destruct (2 * _ + 2) as [|f]; [done|].
  destruct (skip_ws body) as [|c t]; [done|].
  cbn [parse_value parse_items parse_members]. intros H.
  destruct v; try done.
  destruct (bv c =? 123)%N.
  { destruct (maxNestingDepth <? 0 + 1)%N; [done|].
    apply parse_members_strings in H as (ms & [= ->] & Hms); [done|].
    intros ??? Hin. by apply elem_of_nil in Hin. }
  destruct (bv c =? 91)%N.
  { destruct (maxNestingDepth <? 0 + 1)%N; [done|].
    by apply (proj1 (parse_kinds f)) in H as [? ?]. }
  destruct (bv c =? 34)%N; [by destruct (scan_string _) as [[??]|]|].
  destruct (bv c =? 110)%N; [by destruct (strip_prefix _ _)|].
  destruct (bv c =? 116)%N; [by destruct (strip_prefix _ _)|].
  destruct (bv c =? 102)%N; [by destruct (strip_prefix _ _)|].
  destruct ((bv c =? 45)%N || is_digit c); [|done].
  by destruct (scan_number _) as [[??]|].
Qed.

Lemma fill_JobMessage_Utf8 ms v jm :
  (∀ k raw str, (k, JString raw str) ∈ ms → Utf8 str) →
  Utf8 (msg_ID v) → Utf8 (msg_Text v) →
  fill_JobMessage ms v = Ok jm →
  Utf8 (msg_ID jm) ∧ Utf8 (msg_Text jm).
Proof.
  revert v. induction ms as [|[k x] ms IH]; intros v Hms Hid Htext; simpl.
  - by intros [= <-].
  - assert (Hms' : ∀ k raw str, (k, JString raw str) ∈ ms → Utf8 str).
    { intros ??? Hin. eapply Hms. by right. }
    assert (Hx : ∀ old s, Utf8 old → store_string x old = Ok s → Utf8 s).
    { intros old s Hold. destruct x; simpl; intros [= <-]; [done|].
      eapply Hms. by left. }
    destruct (field_is "id" k).
    { destruct (store_string x (msg_ID v)) as [s|] eqn:Hs; [|done].
      apply IH; simpl; eauto. }
    destruct (field_is "text" k).
    { destruct (store_string x (msg_Text v)) as [s|] eqn:Hs; [|done].
      apply IH; simpl; eauto. }
    by apply IH.
Qed.

(** The strings of a decoded JobMessage are well-formed UTF-8. *)
Lemma Unmarshal_JobMessage_Utf8 body jm :
  Unmarshal fill_JobMessage zero_JobMessage body = Ok jm →
  Utf8 (msg_ID jm) ∧ Utf8 (msg_Text jm).
Proof.
  unfold Unmarshal. destruct (parse body) as [[v rest]|] eqn:Hp; [|done].
  case_bool_decide; [|done].
  apply parse_strings in Hp.
  destruct v; simpl; try done.
  - intros [= <-]. split; constructor.
  - apply fill_JobMessage_Utf8; [done|constructor|constructor].
Qed.

End JsonStrings.

(* --------------------------------------------------------------------- *)
(** ** time.Time as JSON: what is written is read back                    *)
(* --------------------------------------------------------------------- *)

Section TimeJson.
Import GoJson Codec.
Local Open Scope Z_scope.

Lemma civil_from_days_valid days :
  let '(y, m, d) := civil_from_days days in
  1 <= m <= 12 ∧ 1 <= d <= daysIn m y.
Proof.
  unfold civil_from_days. cbv zeta.
  set (z := days + 719468).
  set (era := z / 146097).
  set (doe := z - era * 146097).
  assert (Hdoe : 0 <= doe < 146097) by (subst doe era; lia_div).
  clearbody doe. clearbody era. clear z.
  set (yoe := (doe - doe / 1460 + doe / 36524 - doe / 146096) / 365).
  set (doy := doe - (365 * yoe + yoe / 4 - yoe / 100)).
  assert (Hyoe : 0 <= yoe <= 399) by (subst yoe; lia_div).
  assert (Hdoy : 0 <= doy <= 365) by (subst doy yoe; lia_div).
  assert (Hleap : doy = 365 →
            (yoe + 1) mod 4 = 0 ∧
            ((yoe + 1) mod 100 ≠ 0 ∨ (yoe + 1) mod 400 = 0)).
  { subst doy yoe. intros ?. lia_div. }
  clearbody doy. clearbody yoe. clear Hdoe doe.
  set (mp := (5 * doy + 2) / 153).
  assert (Hmp : 0 <= mp <= 11) by (subst mp; lia_div).
  assert (Hcases : mp = 0 ∨ mp = 1 ∨ mp = 2 ∨ mp = 3 ∨ mp = 4 ∨ mp = 5 ∨
                   mp = 6 ∨ mp = 7 ∨ mp = 8 ∨ mp = 9 ∨ mp = 10 ∨ mp = 11)
    by lia.
  assert (Hd : 1 <= doy - (153 * mp + 2) / 5 + 1) by (subst mp; lia_div).
  split; [destruct (Z.ltb_spec mp 10); lia|]. split; [done|].
  clear Hd.
  destruct Hcases as [E|[E|[E|[E|[E|[E|[E|[E|[E|[E|[E|E]]]]]]]]]]];
    rewrite E; unfold daysIn; simpl; try (subst mp; lia_div).
  destruct (is_leap _) eqn:Hl; [subst mp; lia_div|].
  assert (doy ≠ 365); [|subst mp; lia_div].
  intros Hd. destruct (Hleap Hd) as [H4 H100].
  unfold is_leap in Hl.
  apply andb_false_iff in Hl as [Hl|Hl].
  - apply Z.eqb_neq in Hl. lia_div.
  - apply orb_false_iff in Hl as [Hl1 Hl2].
    apply negb_false_iff, Z.eqb_eq in Hl1. apply Z.eqb_neq in Hl2. lia_div.
Qed.

Lemma yoe_back yoe doy :
  0 <= yoe <= 399 → 0 <= doy <= 365 →
  (doy = 365 → (yoe + 1) mod 4 = 0 ∧
               ((yoe + 1) mod 100 ≠ 0 ∨ (yoe + 1) mod 400 = 0)) →
  let doe := yoe * 365 + yoe / 4 - yoe / 100 + doy in
  0 <= doe <= 146096 ∧
  (doe - doe / 1460 + doe / 36524 - doe / 146096) / 365 = yoe.
Proof.
  intros H1 H2 H3 doe. subst doe.
  destruct (Z.eq_dec doy 365) as [E|E].
  - destruct (H3 E) as [H4 H5]. clear H3. split; lia_div.
  - clear H3. split; lia_div.
Qed.

Lemma is_leap_spec y :
  is_leap y = true ↔ y mod 4 = 0 ∧ (y mod 100 ≠ 0 ∨ y mod 400 = 0).
Proof.
  unfold is_leap. rewrite andb_true_iff, orb_true_iff, negb_true_iff.
  rewrite !Z.eqb_eq, Z.eqb_neq. done.
Qed.

(** The year of a valid date is the year of the day it falls on. *)
Lemma civil_from_days_from_civil y m d :
  1 <= m <= 12 → 1 <= d <= daysIn m y →
  civil_from_days (days_from_civil y m d) = (y, m, d).
Proof.
  intros Hm Hd. unfold days_from_civil, civil_from_days. cbv zeta.
  set (y' := if m <=? 2 then y - 1 else y).
  set (era := y' / 400).
  set (yoe := y' - era * 400).
  assert (Hyoe : 0 <= yoe <= 399) by (subst yoe era; lia_div).
  assert (Hy : y = (if m <=? 2 then yoe + era * 400 + 1 else yoe + era * 400)).
  { subst yoe y'. destruct (m <=? 2); lia. }
  set (mp := if 2 <? m then m - 3 else m + 9).
  set (doy := (153 * mp + 2) / 5 + d - 1).
  assert (Hdoy : 0 <= doy <= 365 ∧
                 (5 * doy + 2) / 153 = mp ∧
                 doy - (153 * mp + 2) / 5 + 1 = d ∧
                 (if mp <? 10 then mp + 3 else mp - 9) = m ∧
                 (doy = 365 → m = 2 ∧ is_leap y = true)).
  { unfold daysIn in Hd. subst doy mp.
    assert (Hc : m = 1 ∨ m = 2 ∨ m = 3 ∨ m = 4 ∨ m = 5 ∨ m = 6 ∨ m = 7 ∨
                 m = 8 ∨ m = 9 ∨ m = 10 ∨ m = 11 ∨ m = 12) by lia.
    destruct Hc as [E|[E|[E|[E|[E|[E|[E|[E|[E|[E|[E|E]]]]]]]]]]];
      rewrite E in *; simpl in *;
      try (repeat split; try lia_div; intros; lia_div).
    destruct (is_leap y); repeat split; try lia_div; intros; lia_div. }
  destruct Hdoy as (Hdoy & Hmp & Hdd & Hmm & Hleap).
  assert (Hleap' : doy = 365 → (yoe + 1) mod 4 = 0 ∧
            ((yoe + 1) mod 100 ≠ 0 ∨ (yoe + 1) mod 400 = 0)).
  { intros E. destruct (Hleap E) as [-> Hl]. apply is_leap_spec in Hl.
    simpl in Hy. lia_div. }
  destruct (yoe_back yoe doy Hyoe Hdoy Hleap') as [Hdoe Hback].
  clearbody doy. clearbody mp. clearbody yoe. clearbody era. clear y'.
  set (doe := yoe * 365 + yoe / 4 - yoe / 100 + doy) in *.
  assert (Hdoe_eq : doe - (365 * yoe + yoe / 4 - yoe / 100) = doy)
    by (subst doe; lia).
  clearbody doe.
  replace (era * 146097 + doe - 719468 + 719468) with (doe + era * 146097)
    by lia.
  replace ((doe + era * 146097) / 146097) with era by lia_div.
  replace (doe + era * 146097 - era * 146097) with doe by lia.
  rewrite Hback, Hdoe_eq, Hmp, Hmm, Hdd. by rewrite Hy.
Qed.

Lemma digit_char k :
  0 <= k <= 9 →
  is_digit (byte (Z.to_N (48 + k))) = true ∧
  Z.of_N (bv (byte (Z.to_N (48 + k)))) - 48 = k.
Proof.
  intros Hk. unfold is_digit, in_range. rewrite bv_byte by lia. split; [|lia].
  apply andb_true_iff. split; apply N.leb_le; lia.
Qed.

Lemma digits_fixed_length w n : String.length (digits_fixed w n) = w.
Proof.
  revert n. induction w as [|w IH]; intros n; [done|]. simpl.
  rewrite append_length, IH. simpl. lia.
Qed.

Lemma digits_fixed_digits w n :
  string_forallb is_digit (digits_fixed w n) = true.
Proof.
  revert n. induction w as [|w IH]; intros n; [done|]. simpl.
  generalize (IH (n / 10)). generalize (digits_fixed w (n / 10)).
  intros s Hs. induction s as [|c s IHs]; simpl in *.
  - rewrite (proj1 (digit_char (n mod 10) ltac:(lia_div))). done.
  - apply andb_true_iff in Hs as [-> Hs]. simpl. by apply IHs.
Qed.

Lemma num_acc_app acc s1 s2 :
  num_acc acc (s1 +:+ s2)
  = match num_acc acc s1 with Some a => num_acc a s2 | None => None end.
Proof.
  revert acc. induction s1 as [|c s1 IH]; intros acc; [done|].
  rewrite append_String. simpl. destruct (is_digit c); [apply IH|done].
Qed.

Lemma num_acc_digits_fixed w n acc :
  num_acc acc (digits_fixed w n)
  = Some (acc * 10 ^ Z.of_nat w + n mod 10 ^ Z.of_nat w).
Proof.
  revert n acc. induction w as [|w IH]; intros n acc.
  - simpl. f_equal. rewrite Z.mod_1_r. lia.
  - cbn [digits_fixed]. rewrite num_acc_app, IH. cbn [num_acc].
    destruct (digit_char (n mod 10) ltac:(lia_div)) as [-> Hv].
    cbn [num_acc]. f_equal.
    rewrite Nat2Z.inj_succ, Z.pow_succ_r by lia.
    rewrite (Z.rem_mul_r n 10 (10 ^ Z.of_nat w)) by lia. lia.
Qed.

Lemma field_at pre digits post off len lo hi n :
  String.length pre = off → String.length digits = len →
  num_acc 0 digits = Some n → lo <= n <= hi →
  field off len lo hi (pre +:+ digits +:+ post) = Some n.
Proof.
  intros <- <- Hn Hr. unfold field.
  rewrite drop_bytes_app, take_bytes_app, Nat.eqb_refl, Hn. simpl.
  rewrite (proj2 (Z.leb_le _ _)) by lia.
  by rewrite (proj2 (Z.leb_le _ _)) by lia.
Qed.

Lemma char_at pre c post off n :
  String.length pre = off → bv c = n →
  char_is off n (pre +:+ String c post) = true.
Proof.
  intros <- <-. unfold char_is. rewrite drop_bytes_app. apply N.eqb_refl.
Qed.

Lemma field_in s pre digits post off len lo hi n :
  s = pre +:+ digits +:+ post →
  String.length pre = off → String.length digits = len →
  num_acc 0 digits = Some n → lo <= n <= hi →
  field off len lo hi s = Some n.
Proof. intros ->. apply field_at. Qed.

Lemma char_in s pre c post off n :
  s = pre +:+ String c post →
  String.length pre = off → bv c = n → char_is off n s = true.
Proof. intros ->. apply char_at. Qed.

Lemma drop_in s pre post k :
  s = pre +:+ post → String.length pre = k → drop_bytes k s = post.
Proof. intros -> <-. apply drop_bytes_app. Qed.

Lemma num_2 n : 0 <= n < 100 → num_acc 0 (digits_fixed 2 n) = Some n.
Proof.
  intros Hn. rewrite num_acc_digits_fixed. f_equal.
  change (10 ^ Z.of_nat 2) with 100. lia_div.
Qed.

Lemma num_4 n : 0 <= n < 10000 → num_acc 0 (digits_fixed 4 n) = Some n.
Proof.
  intros Hn. rewrite num_acc_digits_fixed. f_equal.
  change (10 ^ Z.of_nat 4) with 10000. lia_div.
Qed.

(** The date and the time of day of the canonical form are read back. *)
Lemma parse_rfc3339_head y m d hh mi ss tail :
  0 <= y <= 9999 → 1 <= m <= 12 → 1 <= d <= daysIn m y →
  0 <= hh <= 23 → 0 <= mi <= 59 → 0 <= ss <= 59 →
  parse_rfc3339
    (digits_fixed 4 y +:+ "-" +:+ digits_fixed 2 m +:+ "-"
     +:+ digits_fixed 2 d +:+ "T" +:+ digits_fixed 2 hh +:+ ":"
     +:+ digits_fixed 2 mi +:+ ":" +:+ digits_fixed 2 ss +:+ tail)
  = let '(ns, rest) :=
      match tail with
      | String p r =>
          if (bv p =? 46)%N then
            match span_digits r with
            | (EmptyString, _) => (0, tail)
            | (d, r') => (parse_nanos d, r')
            end
          else (0, tail)
      | EmptyString => (0, tail)
      end in
    let local := days_from_civil y m d * 86400 + hh * 3600 + mi * 60 + ss in
    if bool_decide (rest = "Z") then
      Some {| unix_sec := local; nsec := ns; zone_offset := 0 |}
    else if Nat.eqb (String.length rest) 6 then
      match field 1 2 0 23 rest, field 4 2 0 59 rest with
      | Some hr, Some mm =>
          if (char_is 0 45 rest || char_is 0 43 rest) && char_is 3 58 rest
          then
            let off := (hr * 60 + mm) * 60 in
            let off := if char_is 0 45 rest then - off else off in
            Some {| unix_sec := local - off; nsec := ns; zone_offset := off |}
          else None
      | _, _ => None
      end
    else None.
Proof.
  intros Hy Hm Hd Hhh Hmi Hss.
  assert (Hd31 : d <= 31).
  { unfold daysIn in Hd. repeat case_match; lia. }
  set (Y := digits_fixed 4 y). set (M := digits_fixed 2 m).
  set (D := digits_fixed 2 d). set (H := digits_fixed 2 hh).
  set (I := digits_fixed 2 mi). set (S := digits_fixed 2 ss).
  assert (HY : String.length Y = 4%nat) by apply digits_fixed_length.
  assert (HM : String.length M = 2%nat) by apply digits_fixed_length.
  assert (HD : String.length D = 2%nat) by apply digits_fixed_length.
  assert (HH : String.length H = 2%nat) by apply digits_fixed_length.
  assert (HI : String.length I = 2%nat) by apply digits_fixed_length.
  assert (HS : String.length S = 2%nat) by apply digits_fixed_length.
  assert (NY : num_acc 0 Y = Some y) by (apply num_4; lia).
  assert (NM : num_acc 0 M = Some m) by (apply num_2; lia).
  assert (ND : num_acc 0 D = Some d) by (apply num_2; lia).
  assert (NH : num_acc 0 H = Some hh) by (apply num_2; lia).
  assert (NI : num_acc 0 I = Some mi) by (apply num_2; lia).
  assert (NS : num_acc 0 S = Some ss) by (apply num_2; lia).
  clearbody Y M D H I S.
  unfold parse_rfc3339.
  rewrite (field_in _ "" Y ("-" +:+ M +:+ "-" +:+ D +:+ "T" +:+ H +:+ ":"
             +:+ I +:+ ":" +:+ S +:+ tail) 0 4 0 9999 y)
    by (done || lia).
  rewrite (field_in _ (Y +:+ "-") M ("-" +:+ D +:+ "T" +:+ H +:+ ":" +:+ I
             +:+ ":" +:+ S +:+ tail) 5 2 1 12 m)
    by (done || lia || (rewrite ?append_assoc; reflexivity)
        || (rewrite ?append_length; simpl; lia)).
  rewrite (field_in _ (Y +:+ "-" +:+ M +:+ "-") D ("T" +:+ H +:+ ":" +:+ I
             +:+ ":" +:+ S +:+ tail) 8 2 1 (daysIn m y) d)
    by (done || lia || (rewrite ?append_assoc; reflexivity)
        || (rewrite ?append_length; simpl; lia)).
  rewrite (field_in _ (Y +:+ "-" +:+ M +:+ "-" +:+ D +:+ "T") H
             (":" +:+ I +:+ ":" +:+ S +:+ tail) 11 2 0 23 hh)
    by (done || lia || (rewrite ?append_assoc; reflexivity)
        || (rewrite ?append_length; simpl; lia)).
  rewrite (field_in _ (Y +:+ "-" +:+ M +:+ "-" +:+ D +:+ "T" +:+ H +:+ ":") I
             (":" +:+ S +:+ tail) 14 2 0 59 mi)
    by (done || lia || (rewrite ?append_assoc; reflexivity)
        || (rewrite ?append_length; simpl; lia)).
  rewrite (field_in _ (Y +:+ "-" +:+ M +:+ "-" +:+ D +:+ "T" +:+ H +:+ ":"
                       +:+ I +:+ ":") S tail 17 2 0 59 ss)
    by (done || lia || (rewrite ?append_assoc; reflexivity)
        || (rewrite ?append_length; simpl; lia)).
  rewrite (char_in _ Y "-" (M +:+ "-" +:+ D +:+ "T" +:+ H +:+ ":" +:+ I
             +:+ ":" +:+ S +:+ tail) 4 45) by done.
  rewrite (char_in _ (Y +:+ "-" +:+ M) "-" (D +:+ "T" +:+ H +:+ ":" +:+ I
             +:+ ":" +:+ S +:+ tail) 7 45)
    by (done || (rewrite ?append_assoc; reflexivity)
        || (rewrite ?append_length; simpl; lia)).
  rewrite (char_in _ (Y +:+ "-" +:+ M +:+ "-" +:+ D) "T" (H +:+ ":" +:+ I
             +:+ ":" +:+ S +:+ tail) 10 84)
    by (done || (rewrite ?append_assoc; reflexivity)
        || (rewrite ?append_length; simpl; lia)).
  rewrite (char_in _ (Y +:+ "-" +:+ M +:+ "-" +:+ D +:+ "T" +:+ H) ":"
             (I +:+ ":" +:+ S +:+ tail) 13 58)
    by (done || (rewrite ?append_assoc; reflexivity)
        || (rewrite ?append_length; simpl; lia)).
  rewrite (char_in _ (Y +:+ "-" +:+ M +:+ "-" +:+ D +:+ "T" +:+ H +:+ ":"
                      +:+ I) ":" (S +:+ tail) 16 58)
    by (done || (rewrite ?append_assoc; reflexivity)
        || (rewrite ?append_length; simpl; lia)).
  rewrite (drop_in _ (Y +:+ "-" +:+ M +:+ "-" +:+ D +:+ "T" +:+ H +:+ ":"
                      +:+ I +:+ ":" +:+ S) tail 19)
    by ((rewrite ?append_assoc; reflexivity)
        || (rewrite ?append_length; simpl; lia)).
  reflexivity.
Qed.

Lemma trim_zeros_digits s :
  string_forallb is_digit s = true →
  string_forallb is_digit (trim_zeros s) = true.
Proof.
  induction s as [|c s IH]; [done|]. simpl.
  intros [Hc Hs]%andb_true_iff.
  destruct (bool_decide _ && _); [done|]. simpl. by rewrite Hc, IH.
Qed.

Lemma trim_zeros_empty s acc :
  trim_zeros s = "" →
  num_acc acc s = Some (acc * 10 ^ Z.of_nat (String.length s)).
Proof.
  revert acc. induction s as [|c s IH]; intros acc.
  - intros _. simpl. f_equal. lia.
  - cbn [trim_zeros]. cbv zeta.
    destruct (bool_decide (trim_zeros s = "")) eqn:Hs; [|done].
    apply bool_decide_eq_true in Hs.
    destruct (bv c =? 48)%N eqn:Hc; [|done]. intros _.
    apply N.eqb_eq in Hc. cbn [num_acc].
    unfold is_digit, in_range. rewrite Hc. simpl.
    rewrite IH by done. f_equal.
    cbn [String.length]. rewrite Nat2Z.inj_succ, Z.pow_succ_r by lia. lia.
Qed.

Lemma span_digits_all d r :
  string_forallb is_digit d = true →
  match r with String c _ => is_digit c = false | EmptyString => True end →
  span_digits (d +:+ r) = (d, r).
Proof.
  intros Hd Hr. induction d as [|c d IH].
  - destruct r as [|c r]; [done|]. simpl. by rewrite Hr.
  - simpl in Hd. apply andb_true_iff in Hd as [Hc Hd].
    rewrite append_String. simpl. by rewrite Hc, IH.
Qed.

(** The text of a zone in the canonical form. *)
Lemma zone_read_back local ns zh zm (minus : bool) :
  0 <= zh <= 23 → 0 <= zm <= 59 →
  let rest := (if minus then "-" else "+") +:+ digits_fixed 2 zh +:+ ":"
              +:+ digits_fixed 2 zm in
  ∃ t',
    (if bool_decide (rest = "Z") then
       Some {| unix_sec := local; nsec := ns; zone_offset := 0 |}
     else if Nat.eqb (String.length rest) 6 then
       match field 1 2 0 23 rest, field 4 2 0 59 rest with
       | Some hr, Some mm =>
           if (char_is 0 45 rest || char_is 0 43 rest) && char_is 3 58 rest
           then
             let off := (hr * 60 + mm) * 60 in
             let off := if char_is 0 45 rest then - off else off in
             Some {| unix_sec := local - off; nsec := ns;
                     zone_offset := off |}
           else None
       | _, _ => None
       end
     else None) = Some t' ∧
    unix_sec t' + zone_offset t' = local ∧
    Z.abs (Z.quot (zone_offset t') 60) / 60 <= 23.
Proof.
  intros Hzh Hzm rest.
  set (sg := if minus then "-" else "+") in *.
  assert (Hsg : ∃ c, sg = String c "" ∧ (bv c = 45%N ∨ bv c = 43%N)).
  { destruct minus; eexists; split; try done; [by left|by right]. }
  destruct Hsg as (c & Hsg & Hc). clearbody sg. subst sg.
  set (A := digits_fixed 2 zh) in *. set (B := digits_fixed 2 zm) in *.
  assert (HA : String.length A = 2%nat) by apply digits_fixed_length.
  assert (HB : String.length B = 2%nat) by apply digits_fixed_length.
  assert (NA : num_acc 0 A = Some zh) by (apply num_2; lia).
  assert (NB : num_acc 0 B = Some zm) by (apply num_2; lia).
  clearbody A B.
  assert (Hlen : String.length rest = 6%nat).
  { subst rest. rewrite !append_length, HA, HB. done. }
  rewrite bool_decide_eq_false_2 by (intros Heq; by rewrite Heq in Hlen).
  rewrite Hlen. simpl Nat.eqb. cbv iota.
  rewrite (field_in rest (String c "") A (":" +:+ B) 1 2 0 23 zh)
    by (done || lia).
  rewrite (field_in rest (String c "" +:+ A +:+ ":") B "" 4 2 0 59 zm)
    by (done || lia || (subst rest; rewrite ?append_assoc, ?append_nil_r;
                        reflexivity)
        || (rewrite ?append_length; simpl; lia)).
  rewrite (char_in rest (String c "" +:+ A) ":" B 3 58)
    by (done || (subst rest; rewrite ?append_assoc; reflexivity)
        || (rewrite ?append_length; simpl; lia)).
  assert (Hsign : char_is 0 45 rest || char_is 0 43 rest = true).
  { subst rest. unfold char_is. simpl.
    destruct Hc as [-> | ->]; done. }
  rewrite Hsign. cbn [andb]. eexists. split; [reflexivity|].
  cbn [unix_sec zone_offset]. split; [lia|].
  destruct (char_is 0 45 rest).
  - replace (Z.quot (- ((zh * 60 + zm) * 60)) 60) with (- (zh * 60 + zm))
      by (rewrite Z.quot_opp_l, Z.quot_mul by lia; done).
    lia_div.
  - rewrite Z.quot_mul by lia. lia_div.
Qed.

Lemma digit_plain c : is_digit c = true → plain_byte c = true.
Proof.
  unfold is_digit, in_range, plain_byte.
  intros [H1%N.leb_le H2%N.leb_le]%andb_true_iff.
  rewrite (proj2 (N.leb_le _ _)) by lia.
  rewrite !(proj2 (N.eqb_neq _ _)) by lia. done.
Qed.

Lemma digits_fixed_plain w n :
  string_forallb plain_byte (digits_fixed w n) = true.
Proof.
  eapply string_forallb_impl; [exact digit_plain|apply digits_fixed_digits].
Qed.

(** What [Time.MarshalJSON] writes is a quoted text without escapes that
    [Time.UnmarshalJSON] reads. *)
Lemma time_MarshalJSON_read_back t ts :
  0 <= nsec t < 1000000000 →
  time_MarshalJSON t = Ok ts →
  ∃ text t',
    ts = dquote +:+ text +:+ dquote ∧
    string_forallb plain_byte text = true ∧
    parse_rfc3339 text = Some t' ∧
    ∃ ts', time_MarshalJSON t' = Ok ts'.
Proof.
  intros Hns. unfold time_MarshalJSON.
  set (abs := unix_sec t + zone_offset t).
  pose proof (civil_from_days_valid (abs / 86400)) as Hdate.
  destruct (civil_from_days (abs / 86400)) as [[y m] d].
  destruct Hdate as [Hm Hd].
  set (secs := abs mod 86400).
  assert (Hsecs : 0 <= secs < 86400) by (subst secs; lia_div).
  clearbody secs. clearbody abs.
  set (zone := Z.quot (zone_offset t) 60). clearbody zone.
  destruct ((y <? 0) || (9999 <? y)) eqn:Hy; [done|].
  apply orb_false_iff in Hy as [Hy1%Z.ltb_ge Hy2%Z.ltb_ge].
  destruct (negb (zone_offset t =? 0) && (24 <=? Z.abs zone / 60)) eqn:Hz;
    [done|].
  intros Hts%Ok_inj. subst ts.
  set (frac := if nsec t =? 0 then "" else _).
  set (tz := if zone_offset t =? 0 then "Z" else _).
  exists (digits_fixed 4 y +:+ "-" +:+ digits_fixed 2 m +:+ "-"
          +:+ digits_fixed 2 d +:+ "T" +:+ digits_fixed 2 (secs / 3600)
          +:+ ":" +:+ digits_fixed 2 (secs mod 3600 / 60) +:+ ":"
          +:+ digits_fixed 2 (secs mod 60) +:+ frac +:+ tz).
  assert (Hfrac : string_forallb plain_byte frac = true).
  { subst frac. destruct (nsec t =? 0); [done|].
    change ("." +:+ ?x) with (String "." x). cbn [string_forallb].
    change (plain_byte ".") with true. cbv iota beta. rewrite andb_true_l.
    eapply string_forallb_impl; [exact digit_plain|].
    apply trim_zeros_digits, digits_fixed_digits. }
  assert (Htz : string_forallb plain_byte tz = true).
  { subst tz. destruct (zone_offset t =? 0); [done|].
    rewrite !string_forallb_app, !digits_fixed_plain.
    by destruct (zone <? 0). }
  assert (Hparse : ∃ t',
    (let '(ns, rest) :=
       match frac +:+ tz with
       | String p r =>
           if (bv p =? 46)%N then
             match span_digits r with
             | (EmptyString, _) => (0, frac +:+ tz)
             | (d, r') => (parse_nanos d, r')
             end
           else (0, frac +:+ tz)
       | EmptyString => (0, frac +:+ tz)
       end in
     let local := days_from_civil y m d * 86400 + secs / 3600 * 3600
                  + secs mod 3600 / 60 * 60 + secs mod 60 in
     if bool_decide (rest = "Z") then
       Some {| unix_sec := local; nsec := ns; zone_offset := 0 |}
     else if Nat.eqb (String.length rest) 6 then
       match field 1 2 0 23 rest, field 4 2 0 59 rest with
       | Some hr, Some mm =>
           if (char_is 0 45 rest || char_is 0 43 rest) && char_is 3 58 rest
           then
             let off := (hr * 60 + mm) * 60 in
             let off := if char_is 0 45 rest then - off else off in
             Some {| unix_sec := local - off; nsec := ns;
                     zone_offset := off |}
           else None
       | _, _ => None
       end
     else None) = Some t' ∧
    unix_sec t' + zone_offset t'
    = days_from_civil y m d * 86400 + secs / 3600 * 3600
      + secs mod 3600 / 60 * 60 + secs mod 60 ∧
    Z.abs (Z.quot (zone_offset t') 60) / 60 <= 23).
  { assert (Hzone : ∀ local ns, ∃ t',
      (if bool_decide (tz = "Z") then
         Some {| unix_sec := local; nsec := ns; zone_offset := 0 |}
       else if Nat.eqb (String.length tz) 6 then
         match field 1 2 0 23 tz, field 4 2 0 59 tz with
         | Some hr, Some mm =>
             if (char_is 0 45 tz || char_is 0 43 tz) && char_is 3 58 tz
             then
               let off := (hr * 60 + mm) * 60 in
               let off := if char_is 0 45 tz then - off else off in
               Some {| unix_sec := local - off; nsec := ns;
                       zone_offset := off |}
             else None
         | _, _ => None
         end
       else None) = Some t' ∧
      unix_sec t' + zone_offset t' = local ∧
      Z.abs (Z.quot (zone_offset t') 60) / 60 <= 23).
    { intros local ns. subst tz.
      destruct (zone_offset t =? 0) eqn:Hoff.
      { eexists. split; [reflexivity|]. cbn [unix_sec zone_offset].
        split; [lia|done]. }
      simpl in Hz. apply Z.leb_gt in Hz.
      apply (zone_read_back local ns (Z.abs zone / 60) (Z.abs zone mod 60)
               (zone <? 0)); lia_div. }
    assert (Hhead : match tz with
                    | String c _ => is_digit c = false ∧ (bv c =? 46)%N = false
                    | EmptyString => False
                    end).
    { subst tz. destruct (zone_offset t =? 0); [done|].
      by destruct (zone <? 0). }
    subst frac. destruct (nsec t =? 0) eqn:Hn.
    - change ("" +:+ tz) with tz.
      destruct tz as [|c tz']; [done|]. destruct Hhead as [_ ->].
      cbv beta iota zeta. apply Hzone.
    - apply Z.eqb_neq in Hn.
      change ("." +:+ ?x) with (String "." x). rewrite append_String.
      change (bv "." =? 46)%N with true. cbv iota.
      rewrite span_digits_all;
        [|by apply trim_zeros_digits, digits_fixed_digits
         |by destruct tz as [|c tz']; [|destruct Hhead]].
      destruct (trim_zeros (digits_fixed 9 (nsec t))) as [|c0 tr] eqn:Htr.
      { apply (trim_zeros_empty _ 0) in Htr.
        rewrite num_acc_digits_fixed in Htr. injection Htr as Htr.
        change (10 ^ Z.of_nat 9) with 1000000000 in Htr.
        rewrite ?digits_fixed_length in Htr. lia_div. }
      cbv beta iota zeta. apply Hzone. }
  destruct Hparse as (t' & Hparse & Habs & Hzone'). exists t'.
  split; [by rewrite !append_assoc|].
  split; [|split].
  - rewrite !string_forallb_app, !digits_fixed_plain, Hfrac, Htz. done.
  - rewrite parse_rfc3339_head; [exact Hparse|lia..|lia_div|lia_div|lia_div].
  - unfold time_MarshalJSON. rewrite Habs.
    replace ((days_from_civil y m d * 86400 + secs / 3600 * 3600
              + secs mod 3600 / 60 * 60 + secs mod 60) / 86400)
      with (days_from_civil y m d)
      by (generalize (days_from_civil y m d); intros; lia_div).
    rewrite civil_from_days_from_civil by done.
    rewrite (proj2 (Z.ltb_ge _ _)) by lia.
    rewrite (proj2 (Z.ltb_ge _ _)) by lia. cbn [orb].
    rewrite (proj2 (Z.leb_gt _ _)) by lia. rewrite andb_false_r. eauto.
Qed.

End TimeJson.

(* --------------------------------------------------------------------- *)
(** ** The encoded JobResult is decoded                                   *)
(* --------------------------------------------------------------------- *)

Section ResultJson.
Import GoJson GoUnicode Codec.

Lemma scan_string_plain text rest :
  string_forallb plain_byte text = true →
  scan_string (text +:+ dquote +:+ rest) = Some (text, rest).
Proof.
  induction text as [|c text IH]; [done|]. simpl.
  intros [Hc Ht]%andb_true_iff. unfold plain_byte in Hc.
  apply andb_true_iff in Hc as [[H1 H2]%andb_true_iff H3].
  apply negb_true_iff in H2, H3. apply N.leb_le in H1.
  rewrite H2, H3, (proj2 (N.ltb_ge _ _)) by lia.
  by rewrite IH.
Qed.

Lemma quote_head s rest :
  quote s +:+ rest
  = String (byte 34) (quote_bytes (String.length s) s +:+ dquote +:+ rest).
Proof. unfold quote. by rewrite !append_assoc. Qed.

Lemma parse_members_key f depth first acc rest :
  parse_members (S f) depth first acc (String (byte 34) rest)
  = match scan_string rest with
    | None => None
    | Some (rawkey, r0) =>
        match skip_ws r0 with
        | String colon r1 =>
            if (bv colon =? 58)%N then
              match parse_value f depth (skip_ws r1) with
              | None => None
              | Some (v, r2) =>
                  let acc' := (unquote rawkey, v) :: acc in
                  match skip_ws r2 with
                  | String d r3 =>
                      if (bv d =? 44)%N
                      then parse_members f depth false acc' (skip_ws r3)
                      else if (bv d =? 125)%N
                      then Some (JObject (rev acc'), r3)
                      else None
                  | EmptyString => None
                  end
              end
            else None
        | EmptyString => None
        end
    end.
Proof.
  cbn [parse_members]. change (bv (byte 34) =? 125)%N with false.
  rewrite andb_false_r. reflexivity.
Qed.

Lemma parse_value_plain f depth text rest :
  string_forallb plain_byte text = true →
  parse_value (S f) depth (String (byte 34) (text +:+ dquote +:+ rest))
  = Some (JString text (unquote text), rest).
Proof.
  intros Htext. cbn [parse_value]. simpl (bv _ =? _)%N. cbv iota.
  by rewrite scan_string_plain.
Qed.

Lemma unquote_quote_key key :
  Utf8 key → unquote (quote_bytes (String.length key) key) = key.
Proof. intros Hk. unfold unquote. by rewrite unquote_quote_bytes. Qed.

(** One member with a string value, followed by a comma. *)
Lemma parse_members_string f depth first acc key s tail :
  Utf8 key → Utf8 s →
  parse_members (S (S f)) depth first acc
    (quote key +:+ ":" +:+ quote s +:+ "," +:+ tail)
  = parse_members (S f) depth false
      ((key, JString (quote_bytes (String.length s) s) s) :: acc)
      (skip_ws tail).
Proof.
  intros Hkey Hs. rewrite quote_head, parse_members_key.
  rewrite scan_string_quote_bytes by done.
  change (skip_ws (":" +:+ ?x)) with (String ":" x). cbv iota.
  simpl (bv _ =? _)%N. cbv iota.
  rewrite quote_head.
  change (skip_ws (String (byte 34) ?x)) with (String (byte 34) x).
  rewrite <- quote_head, parse_value_quote by done. cbv zeta.
  change (skip_ws ("," +:+ ?x)) with (String "," x). cbv iota.
  simpl (bv _ =? _)%N. cbv iota.
  by rewrite unquote_quote_key.
Qed.

(** The last member, a timestamp, and the closing brace. *)
Lemma parse_members_time f depth acc key text rest :
  Utf8 key → string_forallb plain_byte text = true →
  parse_members (S (S f)) depth false acc
    (quote key +:+ ":" +:+ (dquote +:+ text +:+ dquote) +:+ "}" +:+ rest)
  = Some (JObject (rev ((key, JString text (unquote text)) :: acc)), rest).
Proof.
  intros Hkey Htext. rewrite quote_head, parse_members_key.
  rewrite scan_string_quote_bytes by done.
  change (skip_ws (":" +:+ ?x)) with (String ":" x). cbv iota.
  simpl (bv _ =? _)%N. cbv iota.
  rewrite !append_assoc.
  change (skip_ws (dquote +:+ ?x)) with (String (byte 34) x).
  rewrite parse_value_plain by done. cbv zeta.
  change (skip_ws ("}" +:+ ?x)) with (String "}" x). cbv iota.
  simpl (bv _ =? _)%N. cbv iota.
  by rewrite unquote_quote_key.
Qed.

Lemma skip_ws_quote s rest : skip_ws (quote s +:+ rest) = quote s +:+ rest.
Proof. by rewrite quote_head. Qed.

Lemma Utf8_id : Utf8 "id".
Proof. repeat (apply Utf8_byte; [done|]). constructor. Qed.
Lemma Utf8_text : Utf8 "text".
Proof. repeat (apply Utf8_byte; [done|]). constructor. Qed.
Lemma Utf8_output : Utf8 "output".
Proof. repeat (apply Utf8_byte; [done|]). constructor. Qed.
Lemma Utf8_processed_at : Utf8 "processed_at".
Proof. repeat (apply Utf8_byte; [done|]). constructor. Qed.

(** The decoder reads back what the encoder wrote for a JobResult whose
    strings are well-formed UTF-8: id, text and output byte for byte,
    and a timestamp. *)
Lemma Decode_Marshal_JobResult R rb :
  Utf8 (ID R) → Utf8 (Text R) → Utf8 (Output R) →
  (0 <= nsec (ProcessedAt R) < 1000000000)%Z →
  Marshal_JobResult R = Ok rb →
  ∃ t' rb',
    Decode fill_JobResult zero_JobResult rb
    = Ok {| ID := ID R; Text := Text R; Output := Output R;
            ProcessedAt := t' |} ∧
    Marshal_JobResult {| ID := ID R; Text := Text R; Output := Output R;
                         ProcessedAt := t' |} = Ok rb'.
Proof.
  intros Hid Htext Hout Hns. unfold Marshal_JobResult.
  destruct (time_MarshalJSON (ProcessedAt R)) as [ts|] eqn:Hts; [|done].
  intros Hrb%Ok_inj. subst rb.
  destruct (time_MarshalJSON_read_back _ _ Hns Hts)
    as (text & t' & -> & Hplain & Hparse & ts' & Hts').
  exists t'. eexists. split; [|unfold Marshal_JobResult; cbn [ProcessedAt];
                               rewrite Hts'; reflexivity].
  unfold Decode.
  change ("{" +:+ ?x) with (String "{" x).
  rewrite bool_decide_eq_false_2 by done.
  unfold parse. change (skip_ws (String "{" ?x)) with (String "{" x).
  match goal with
  | |- context [String.length (String "{" ?x)] =>
      assert (HX : ∃ n, String.length (String "{" x) = S (S n))
        by (rewrite quote_head; simpl; eauto);
      destruct HX as [n ->]
  end.
  replace (2 * S (S n) + 2) with (S (S (S (S (S (S (2 * n))))))) by lia.
  cbn [parse_value]. simpl (bv _ =? _)%N. cbv iota.
  change (maxNestingDepth <? 0 + 1)%N with false. cbv iota.
  rewrite skip_ws_quote.
  rewrite parse_members_string, skip_ws_quote by (done || apply Utf8_id).
  rewrite parse_members_string, skip_ws_quote by (done || apply Utf8_text).
  rewrite parse_members_string, skip_ws_quote by (done || apply Utf8_output).
  replace (quote "processed_at" +:+ ":" +:+ (dquote +:+ text +:+ dquote)
           +:+ "}")
    with (quote "processed_at" +:+ ":" +:+ (dquote +:+ text +:+ dquote)
          +:+ "}" +:+ "") by (by rewrite !append_nil_r).
  rewrite parse_members_time by (done || apply Utf8_processed_at).
  cbn [rev app into_struct fill_JobResult].
  change (field_is "id" "id") with true.
  change (field_is "id" "text") with false.
  change (field_is "text" "text") with true.
  change (field_is "id" "output") with false.
  change (field_is "text" "output") with false.
  change (field_is "output" "output") with true.
  change (field_is "id" "processed_at") with false.
  change (field_is "text" "processed_at") with false.
  change (field_is "output" "processed_at") with false.
  change (field_is "processed_at" "processed_at") with true.
  cbn [store_string store_time ID Text Output ProcessedAt zero_JobResult].
  by rewrite Hparse.
Qed.

End ResultJson.


(* --------------------------------------------------------------------- *)
(** ** Storing and fetching                                               *)
(* --------------------------------------------------------------------- *)

Section RoundTrip.
Import Codec.
#[local] Existing Instance GoJson.go_json.
#[local] Existing Instance GoUnicode.go_unicode.

(** The strings of the JobResult that [processMessage] builds are
    well-formed UTF-8. *)
Lemma processed_result_Utf8 body jm :
  json_Unmarshal_JobMessage body = Ok jm →
  Utf8 (msg_ID jm) ∧ Utf8 (msg_Text jm) ∧
  Utf8 (Strings.ToUpper (msg_Text jm)).
Proof.
  intros [Hid Htext]%Unmarshal_JobMessage_Utf8.
  split; [done|]. split; [done|].
  rewrite ToUpper_is_Map. apply Utf8_Map.
Qed.

(** C6, as the code has it.  With [encoding/json] and [unicode] as
    modelled.  Let [processMessage] succeed on a message at a reading
    [now] of the clock (nanoseconds within the second, as in every
    [time.Time]).  It stored the encoding [rb] of a JobResult [R], built
    from the decoded JobMessage, at jobs/{R.id}.json.  If the id of [R]
    is not empty then, in every later world in which that object is
    still at its key, a GET on /jobs/{R.id} whose retrieval succeeds is
    answered 200, typed application/json, with the encoding (and a line
    feed) of a JobResult whose id, text and output are those of [R],
    byte for byte; the store is left as it was. *)
Theorem stored_result_fetched (a : App) (now : Time) (fault : option string)
    (m : Message) (w w1 : World) :
  (0 <= nsec now < 1000000000)%Z →
  processMessage a now fault m w = Done (Ok tt) w1 →
  ∃ body jm R rb,
    Body m = Some body ∧
    json_Unmarshal_JobMessage body = Ok jm ∧
    R = {| ID := msg_ID jm; Text := msg_Text jm;
           Output := Strings.ToUpper (msg_Text jm); ProcessedAt := now |} ∧
    json_Marshal_JobResult R = Ok rb ∧
    objects w1 !! (s3Bucket a, job_key (ID R)) = Some (json_object rb) ∧
    (ID R ≠ "" →
     ∀ (r : Http.Request) (w2 : World),
       objects w2 !! (s3Bucket a, job_key (ID R)) = Some (json_object rb) →
       Http.Method r = Http.MethodGet →
       Http.Path r = "/jobs/" +:+ ID R →
       ∃ R' rb' rw w3,
         getJob a None Http.new_writer r w2 = Done rw w3 ∧
         objects w3 = objects w2 ∧
         Http.status rw = 200%Z ∧
         Http.rw_header rw = {[ "Content-Type" := "application/json" ]} ∧
         json_Decode_JobResult rb = Ok R' ∧
         json_Marshal_JobResult R' = Ok rb' ∧
         Http.rw_body rw = rb' +:+ newline ∧
         ID R' = ID R ∧ Text R' = Text R ∧ Output R' = Output R).
Proof.
  intros Hns Hrun.
  assert (Hclient : ∃ c, s3Client a = Some c).
  { unfold processMessage, PutObject in Hrun.
    destruct (s3Client a); [eauto|]. run. by repeat case_match. }
  destruct Hclient as [c Hc].
  destruct (processMessage_success _ _ _ _ _ _ Hrun)
    as (body & jm & rb & Hb & Hu & Hm & _ & ->).
  eexists body, jm, _, rb. split; [done|]. split; [done|].
  split; [reflexivity|]. split; [exact Hm|].
  split; [apply lookup_insert_eq|].
  cbn [ID]. intros Hid r w2 Hobj Hget Hpath.
  destruct (processed_result_Utf8 _ _ Hu) as (Uid & Utext & Uout).
  destruct (Decode_Marshal_JobResult
              {| ID := msg_ID jm; Text := msg_Text jm;
                 Output := Strings.ToUpper (msg_Text jm);
                 ProcessedAt := now |} rb Uid Utext Uout Hns Hm)
    as (t' & rb' & Hdec & Hmar).
  cbn [ID Text Output] in Hdec, Hmar.
  eexists _, rb'.
  unfold getJob. rewrite Hget, Hpath, slice_jobs_prefix. simpl.
  rewrite bool_decide_eq_false_2 by done.
  unfold GetObject. rewrite Hc. run. rewrite Hobj. simpl.
  change (@json_Decode_JobResult GoJson.go_json)
    with (GoJson.Decode GoJson.fill_JobResult GoJson.zero_JobResult).
  change (@json_Marshal_JobResult GoJson.go_json)
    with GoJson.Marshal_JobResult.
  rewrite Hdec, Hmar.
  eexists _, _. split; [reflexivity|]. simpl.
  split; [done|]. split; [done|].
  split; [by rewrite insert_empty|].
  split; [done|]. split; [exact Hmar|]. done.
Qed.

End RoundTrip.

(* --------------------------------------------------------------------- *)
(** ** Probes, method guards and start-up                                 *)
(* --------------------------------------------------------------------- *)

Section Probes.
Context `{Json}.

(** X1.  /healthz checks no dependency: on any [App], nil clients
    included, and in any world, a GET served through the mux is answered
    200 with the body [ok], any other method 405; the world is not
    touched. *)
Theorem healthz_checks_nothing (a : App) (e : RequestEnv) (r : Http.Request)
    (w : World) :
  Http.Path r = "/healthz" →
  ∃ rw,
    serveHTTP a e r w = Done rw w ∧
    rw = healthz a Http.new_writer r ∧
    (Http.Method r = Http.MethodGet →
       Http.status rw = 200%Z ∧ Http.rw_body rw = "ok") ∧
    (Http.Method r ≠ Http.MethodGet →
       Http.status rw = 405%Z ∧
       Http.rw_body rw = "method not allowed" +:+ newline).
Proof.
  intros Hpath. unfold serveHTTP. rewrite Hpath. simpl.
  eexists. split; [reflexivity|]. split; [reflexivity|].
  unfold healthz. split.
  - intros ->. done.
  - intros Hm. by rewrite bool_decide_eq_false_2.
Qed.

(** X2.  [readyz] on an arbitrary [App]: a GET is answered 200 exactly
    when both clients are non-nil and 503 with [not ready] as soon as
    one of them is nil; any other method is answered 405 whatever the
    clients are. *)
Theorem readyz_reports_clients (a : App) (r : Http.Request) :
  let rw := readyz a Http.new_writer r in
  (Http.Method r = Http.MethodGet →
     (Http.status rw = 200%Z ↔ sqsClient a ≠ None ∧ s3Client a ≠ None) ∧
     (sqsClient a = None ∨ s3Client a = None →
        Http.status rw = 503%Z ∧
        Http.rw_body rw = "not ready" +:+ newline)) ∧
  (Http.Method r ≠ Http.MethodGet →
     Http.status rw = 405%Z ∧
     Http.rw_body rw = "method not allowed" +:+ newline).
Proof.
  intros rw. subst rw. unfold readyz. split.
  - intros ->. simpl.
    destruct (sqsClient a) as [q|], (s3Client a) as [s|]; simpl;
      (split; [split; [try done | try done; by intros [? ?]]
              | try done; by intros [?|?] ]).
  - intros Hm. by rewrite bool_decide_eq_false_2.
Qed.

(** X3.  The method check comes first in both job handlers.  [createJob]
    on a method other than POST and [getJob] on a method other than GET
    answer 405 and return at once: the body is not decoded, no
    identifier is drawn, the path is not sliced (so a path shorter than
    the prefix cannot panic here) and no remote call is made. *)
Theorem method_guard_first (a : App) (rnd : option N)
    (fault : option string) (r : Http.Request) (w : World) :
  (Http.Method r ≠ Http.MethodPost →
     createJob a rnd fault Http.new_writer r w
     = Done (Http.Error Http.new_writer "method not allowed" 405) w) ∧
  (Http.Method r ≠ Http.MethodGet →
     getJob a fault Http.new_writer r w
     = Done (Http.Error Http.new_writer "method not allowed" 405) w) ∧
  Http.status (Http.Error Http.new_writer "method not allowed" 405) = 405%Z.
Proof.
  split; [|split; [|done]]; intros Hm.
  - unfold createJob. by rewrite bool_decide_eq_false_2.
  - unfold getJob. by rewrite bool_decide_eq_false_2.
Qed.

(** The subtree pattern hands [getJob] only paths that start with the
    prefix it slices off. *)
Lemma route_getJob_prefix path :
  route path = RouteGetJob → ∃ id, path = "/jobs/" +:+ id.
Proof.
  unfold route. repeat case_bool_decide; try done.
  destruct (String.prefix "/jobs/" path) eqn:Hp; [|done]. intros _.
  apply String.prefix_correct in Hp.
  do 6 (destruct path as [|? path]; [discriminate|]).
  simpl in Hp. injection Hp as -> -> -> -> -> -> _.
  by exists path.
Qed.

(** X4.  Served through the mux by an [App] whose clients are non-nil,
    with a random source that delivers, no request panics: every
    request, whatever its method, path and body and whatever the remote
    services answer, gets a response.  In particular the slice in
    [getJob] is always in range. *)
Theorem serveHTTP_never_panics (a : App) (e : RequestEnv) (r : Http.Request)
    (w : World) :
  sqsClient a ≠ None →
  s3Client a ≠ None →
  rand_bytes e ≠ None →
  ∃ rw w', serveHTTP a e r w = Done rw w'.
Proof.
  intros Hq Hs Hr. unfold serveHTTP.
  destruct (route (Http.Path r)) eqn:Hroute; try by eauto.
  - unfold createJob, SendMessage. run.
    destruct (negb _); [eauto|].
    destruct (json_Decode_JobRequest _); [|eauto].
    destruct (rand_bytes e); [|done].
    destruct (json_Marshal_JobMessage _); [|eauto].
    destruct (sqsClient a); [|done].
    destruct (send_fault e); [eauto|].
    destruct (queues w !! sqsURL a); eauto.
  - apply route_getJob_prefix in Hroute as [id Hpath].
    unfold getJob, GetObject. rewrite Hpath, slice_jobs_prefix. run.
    destruct (negb _); [eauto|].
    destruct (bool_decide _); [eauto|].
    destruct (s3Client a); [|done].
    destruct (get_fault e); [eauto|].
    destruct (objects w !! _); [|eauto]. simpl.
    destruct (json_Decode_JobResult _); eauto.
Qed.

(** X5.  [main] reaches [ListenAndServe] and serves exactly when the
    configuration loads for the region (us-east-1 when AWS_REGION is
    empty), SQS_QUEUE_URL and S3_BUCKET are both non-empty and the
    socket binds; the [App] then holds two non-nil clients built from
    that configuration and the two values read, and the worker is
    enabled exactly when WORKER_ENABLED is the string [true].  In every
    other case the process ends in [log.Fatal]. *)
Theorem main_serves_iff (getenv : string → string)
    (load : string → Result Config) (listen_error : option string)
    (app : App) (workerEnabled : bool) :
  let region := if decide (getenv "AWS_REGION" = "") then "us-east-1"
                else getenv "AWS_REGION" in
  (main getenv load listen_error = Serving app workerEnabled
   ↔ ∃ cfg,
       load region = Ok cfg ∧
       getenv "SQS_QUEUE_URL" ≠ "" ∧
       getenv "S3_BUCKET" ≠ "" ∧
       listen_error = None ∧
       app = {| sqsClient := Some (mkSQS cfg); s3Client := Some (mkS3 cfg);
                sqsURL := getenv "SQS_QUEUE_URL";
                s3Bucket := getenv "S3_BUCKET" |} ∧
       workerEnabled = bool_decide (getenv "WORKER_ENABLED" = "true")) ∧
  ((∀ app' we', main getenv load listen_error ≠ Serving app' we')
   ↔ ∃ msg, main getenv load listen_error = Fatal msg).
Proof.
  intros region. subst region. unfold main. split.
  - split.
    + intros Hm. repeat case_match; simplify_eq;
        (eexists; repeat split; done).
    + intros (cfg & -> & Hu & Hb & -> & -> & ->).
      destruct (decide (getenv "SQS_QUEUE_URL" = "")); [done|].
      destruct (decide (getenv "S3_BUCKET" = "")); [done|]. done.
  - split.
    + intros Hno. repeat case_match; eauto; by destruct (Hno _ _ eq_refl).
    + intros [msg ->]. done.
Qed.

End Probes.

(* --------------------------------------------------------------------- *)
(** ** Paths of the worker loop                                           *)
(* --------------------------------------------------------------------- *)

Section WorkerPaths.
Context `{Json} `{Unicode}.

(** X6.  When [ReceiveMessage] fails, be it an error of the service or a
    queue that does not exist, the turn of the loop logs the error,
    sleeps five seconds and ends: no message is handled and neither the
    queues nor the store change. *)
Theorem receive_failure_backs_off (a : App) (c : SQSClient)
    (e : IterationEnv) (w : World) :
  sqsClient a = Some c →
  (∀ err, receive e = Err err →
     workerLoop_iteration a e w
     = Done tt (add_events w
                  [EvReceiveMessage (sqsURL a) (Err err);
                   EvLog ("failed to receive message: " +:+ err);
                   EvSleep 5])) ∧
  (∀ picks, receive e = Ok picks → queues w !! sqsURL a = None →
     workerLoop_iteration a e w
     = Done tt (add_events w
                  [EvReceiveMessage (sqsURL a) (Err "QueueDoesNotExist");
                   EvLog ("failed to receive message: " +:+ "QueueDoesNotExist");
                   EvSleep 5])).
Proof.
  intros Hc. unfold workerLoop_iteration, ReceiveMessage, add_events.
  rewrite Hc. run. split.
  - intros err ->. run. by rewrite <- !app_assoc.
  - intros picks -> ->. run. by rewrite <- !app_assoc.
Qed.

(** X7.  When the result was stored and [DeleteMessage] then fails, the
    failure is only logged: handling the message ends normally, the
    result stays in the store, the queues are as before, so the message
    is still there to be delivered again. *)
Theorem delete_failure_is_logged (a : App) (c1 : S3Client) (c2 : SQSClient)
    (me : MessageEnv) (m : Message) (body : string) (jm : JobMessage)
    (rb err : string) (w : World) :
  s3Client a = Some c1 →
  sqsClient a = Some c2 →
  Body m = Some body →
  json_Unmarshal_JobMessage body = Ok jm →
  json_Marshal_JobResult
    {| ID := msg_ID jm; Text := msg_Text jm;
       Output := Strings.ToUpper (msg_Text jm); ProcessedAt := now me |}
  = Ok rb →
  put_fault me = None →
  delete_fault me = Some err →
  let w' := add_events (put_world a (job_key (msg_ID jm)) rb w)
              [EvDeleteMessage (sqsURL a) (ReceiptHandle m) false;
               EvLog ("failed to delete message: " +:+ err)] in
  handle_message a me m w = Done tt w' ∧
  queues w' = queues w ∧
  objects w' !! (s3Bucket a, job_key (msg_ID jm)) = Some (json_object rb).
Proof.
  intros Hc1 Hc2 Hb Hu Hm Hp Hd w'. subst w'. split; [|split].
  - unfold handle_message. run.
    rewrite (processMessage_run a c1 (now me) (put_fault me) m body jm rb w
               Hc1 Hb Hu Hm), Hp.
    unfold DeleteMessage, add_events. rewrite Hc2, Hd. run.
    by rewrite <- !app_assoc.
  - done.
  - simpl. apply lookup_insert_eq.
Qed.

(** X8.  A delivered message whose body pointer is nil makes
    [processMessage] panic on the dereference, before anything is
    decoded or written; the panic leaves the loop body and the loop, so
    the messages after it in the batch are not handled, and the turn of
    the worker that received it ends in the panic. *)
Theorem nil_body_panics (a : App) (m : Message) :
  Body m = None →
  (∀ t fault w, processMessage a t fault m w = Panicked nil_deref w) ∧
  (∀ envs i rest w,
     range_messages a envs i (m :: rest) w = Panicked nil_deref w) ∧
  (∀ c e k q w,
     sqsClient a = Some c →
     receive e = Ok [k] →
     queues w !! sqsURL a = Some q →
     q !! k = Some m →
     workerLoop_iteration a e w
     = Panicked nil_deref
         (add_events w [EvReceiveMessage (sqsURL a) (Ok [m])])).
Proof.
  intros Hb.
  assert (Hp : ∀ t fault w, processMessage a t fault m w = Panicked nil_deref w).
  { intros t fault w. unfold processMessage. by rewrite Hb. }
  assert (Hr : ∀ envs i rest w,
             range_messages a envs i (m :: rest) w = Panicked nil_deref w).
  { intros envs i rest w. simpl. unfold handle_message. run. by rewrite Hp. }
  split; [done|]. split; [done|].
  intros c e k q w Hc He Hq Hk.
  unfold workerLoop_iteration, ReceiveMessage, add_events, pick_messages.
  rewrite Hc. run. rewrite He, Hq. simpl. rewrite Hk. simpl.
  exact (Hr (message_env e) 0 [] _).
Qed.

End WorkerPaths.

(* --------------------------------------------------------------------- *)
(** ** What a turn of the worker can and cannot do                        *)
(* --------------------------------------------------------------------- *)

Section WorkerBounds.
Context `{Json} `{Unicode}.

(** Closes a goal about a stretch of at most three events. *)
Ltac few_events :=
  simpl;
  first [ exists []; split; [by rewrite app_nil_r|]
        | eexists [_]; split; [reflexivity|]
        | eexists [_; _]; split; [by rewrite <- !app_assoc|]
        | eexists [_; _; _]; split; [by rewrite <- !app_assoc|] ];
  unfold count; simpl; lia.

(** Handling one message issues at most one [PutObject] and at most one
    [DeleteMessage], and no receive. *)
Lemma handle_message_counts (a : App) (me : MessageEnv) (m : Message)
    (w : World) :
  ∃ evs,
    events (world_of (handle_message a me m w)) = events w ++ evs ∧
    count is_receive evs = 0 ∧ count is_put evs ≤ 1 ∧
    count is_delete evs ≤ 1.
Proof.
  unfold handle_message, processMessage, PutObject, DeleteMessage. run.
  destruct (Body m); [|few_events].
  destruct (json_Unmarshal_JobMessage _); [|few_events].
  destruct (json_Marshal_JobResult _); [|few_events].
  destruct (s3Client a); [|few_events].
  destruct (put_fault me); [few_events|]. simpl.
  destruct (sqsClient a); [|few_events].
  destruct (delete_fault me); [few_events|].
  destruct (ReceiptHandle m); [|few_events]. simpl.
  destruct (queues w !! sqsURL a); few_events.
Qed.

(** X9.  One turn of the worker loop asks for at most one message
    ([MaxNumberOfMessages: 1]) and so makes at most one receive, one
    [PutObject] and one [DeleteMessage]: a single message is in flight
    at any time. *)
Theorem one_message_per_turn (a : App) (e : IterationEnv) (w : World) :
  ∃ new,
    events (world_of (workerLoop_iteration a e w)) = events w ++ new ∧
    count is_receive new ≤ 1 ∧ count is_put new ≤ 1 ∧
    count is_delete new ≤ 1.
Proof.
  unfold workerLoop_iteration, ReceiveMessage. run.
  destruct (sqsClient a); [|few_events].
  destruct (receive e) as [picks|err]; [|few_events].
  destruct (queues w !! sqsURL a) as [q|]; [|few_events].
  destruct (pick_messages q picks) as [|m rest]; [few_events|].
  simpl. rewrite take_0. run.
  match goal with
  | |- context [handle_message a ?me m ?w0] =>
      destruct (handle_message_counts a me m w0) as (evs & He & Hr & Hp & Hd);
      destruct (handle_message a me m w0) as [[] w1|msg w1]
  end; simpl in *;
    (eexists (_ :: evs); split; [by rewrite He, <- app_assoc|]);
    unfold count in *; simpl; lia.
Qed.

Lemma dequeues_only_refl w : dequeues_only w w.
Proof. intros url. destruct (queues w !! url); eauto. Qed.

Lemma dequeues_only_trans w1 w2 w3 :
  dequeues_only w1 w2 → dequeues_only w2 w3 → dequeues_only w1 w3.
Proof.
  intros H12 H23 url. specialize (H12 url). specialize (H23 url).
  destruct (queues w1 !! url) as [q|].
  - destruct H12 as (q' & Hq' & Hsub). rewrite Hq' in H23.
    destruct H23 as (q'' & Hq'' & Hsub'). exists q''.
    split; [done|]. by etrans.
  - by rewrite H12 in H23.
Qed.

Lemma dequeues_only_same w w' : queues w' = queues w → dequeues_only w w'.
Proof. intros Hq url. rewrite Hq. destruct (queues w !! url); eauto. Qed.

Lemma handle_message_dequeues (a : App) (me : MessageEnv) (m : Message)
    (w : World) :
  dequeues_only w (world_of (handle_message a me m w)).
Proof.
  unfold handle_message, processMessage, PutObject, DeleteMessage. run.
  destruct (Body m); [|by apply dequeues_only_same].
  destruct (json_Unmarshal_JobMessage _);
    [|run; by apply dequeues_only_same].
  destruct (json_Marshal_JobResult _); [|run; by apply dequeues_only_same].
  destruct (s3Client a); [|by apply dequeues_only_same].
  destruct (put_fault me); [run; by apply dequeues_only_same|]. simpl.
  destruct (sqsClient a); [|by apply dequeues_only_same].
  destruct (delete_fault me); [run; by apply dequeues_only_same|].
  destruct (ReceiptHandle m) as [h|]; [|run; by apply dequeues_only_same].
  simpl.
  destruct (queues w !! sqsURL a) as [q|] eqn:Hq;
    [|run; by apply dequeues_only_same].
  simpl. intros url. destruct (decide (url = sqsURL a)) as [->|Hne].
  - rewrite Hq. simpl. rewrite lookup_insert_eq. eexists. split; [done|].
    apply sublist_filter.
  - simpl. rewrite lookup_insert_ne by done.
    destruct (queues w !! url); eauto.
Qed.

Lemma range_messages_dequeues (a : App) (envs : nat → MessageEnv)
    (msgs : list Message) :
  ∀ i w, dequeues_only w (world_of (range_messages a envs i msgs w)).
Proof.
  induction msgs as [|m msgs IH]; intros i w; [apply dequeues_only_refl|].
  simpl. run.
  pose proof (handle_message_dequeues a (envs i) m w) as Hh.
  destruct (handle_message a (envs i) m w) as [[] w1|msg w1]; simpl in *.
  - eapply dequeues_only_trans; [exact Hh | apply IH].
  - done.
Qed.

Lemma iteration_dequeues (a : App) (e : IterationEnv) (w : World) :
  dequeues_only w (world_of (workerLoop_iteration a e w)).
Proof.
  unfold workerLoop_iteration, ReceiveMessage. run.
  destruct (sqsClient a); [|by apply dequeues_only_same].
  match goal with
  | |- context [EvReceiveMessage _ ?g] => destruct g as [msgs|err]
  end; [|run; by apply dequeues_only_same].
  match goal with
  | |- context [range_messages a ?envs 0 msgs ?w0] =>
      eapply dequeues_only_trans;
        [|exact (range_messages_dequeues a envs msgs 0 w0)]
  end.
  by apply dequeues_only_same.
Qed.

(** X10.  The worker never enqueues: over any number of turns of the
    loop no queue appears or disappears, and every queue ends as a
    sub-sequence of what it was, losing only messages that were
    acknowledged. *)
Theorem worker_only_dequeues (a : App) (script : list IterationEnv)
    (w : World) :
  dequeues_only w (world_of (workerLoop a script w)).
Proof.
  revert w. induction script as [|e script IH]; intros w;
    [apply dequeues_only_refl|].
  simpl. run.
  pose proof (iteration_dequeues a e w) as Hi.
  destruct (workerLoop_iteration a e w) as [[] w1|msg w1]; simpl in *.
  - eapply dequeues_only_trans; [exact Hi | apply IH].
  - done.
Qed.

(** X11.  Serving a request never removes or reorders a queued message
    and never creates a queue: every queue keeps its messages in place
    and grows by at most one message at its end. *)
Theorem requests_only_enqueue (a : App) (e : RequestEnv) (r : Http.Request)
    (w : World) :
  enqueues_at_most_one w (world_of (serveHTTP a e r w)).
Proof.
  assert (Hsame : ∀ w0 w1, queues w1 = queues w0 →
                          enqueues_at_most_one w0 w1).
  { intros w0 w1 Hq url. rewrite Hq. destruct (queues w0 !! url); [|done].
    exists []. rewrite app_nil_r. split; [done|simpl; lia]. }
  unfold serveHTTP.
  destruct (route _); simpl; try by apply Hsame.
  - unfold createJob, SendMessage. run.
    destruct (negb _); [by apply Hsame|].
    destruct (json_Decode_JobRequest _); [|by apply Hsame].
    destruct (rand_bytes e); [|by apply Hsame].
    destruct (json_Marshal_JobMessage _); [|by apply Hsame].
    destruct (sqsClient a); [|by apply Hsame].
    destruct (send_fault e); [run; by apply Hsame|].
    destruct (queues w !! sqsURL a) as [q|] eqn:Hq; [|run; by apply Hsame].
    simpl. intros url. destruct (decide (url = sqsURL a)) as [->|Hne].
    + rewrite Hq. simpl. rewrite lookup_insert_eq.
      eexists [_]. split; [done|simpl; lia].
    + simpl. rewrite lookup_insert_ne by done.
      destruct (queues w !! url); [|done].
      exists []. rewrite app_nil_r. split; [done|simpl; lia].
  - unfold getJob.
    destruct (negb _); [by apply Hsame|].
    destruct (slice_from _ _); [|by apply Hsame].
    destruct (bool_decide _); [by apply Hsame|].
    unfold GetObject. run.
    destruct (s3Client a); [|by apply Hsame].
    destruct (get_fault e); [run; by apply Hsame|].
    destruct (objects w !! _); [|run; by apply Hsame]. simpl.
    destruct (json_Decode_JobResult _); run; by apply Hsame.
Qed.

End WorkerBounds.

(* --------------------------------------------------------------------- *)
(** ** What the store holds                                               *)
(* --------------------------------------------------------------------- *)

Section Store.
Context `{Json} `{Unicode}.

(** X12.  Handling a message touches the stored result of its own id
    only: for every id [Y] that the message does not carry, the object
    at jobs/Y.json, in any bucket, is what it was, whatever the outcome
    of the handling. *)
Theorem processing_is_isolated (a : App) (me : MessageEnv) (m : Message)
    (w : World) (bucket Y : string) :
  ¬ carries m Y →
  objects (world_of (handle_message a me m w)) !! (bucket, job_key Y)
  = objects w !! (bucket, job_key Y).
Proof.
  intros HY.
  destruct (handle_message_shape a me m w)
    as (evs & _ & [(_ & -> & _) | (X & rb & tail & HX & _ & _ & -> & _)]);
    [done|].
  apply lookup_insert_ne. intros Hk.
  apply (f_equal snd) in Hk. simpl in Hk.
  apply job_key_inj in Hk as ->. done.
Qed.

Lemma objects_grow_by_refl P w w' :
  objects w' = objects w → objects_grow_by P w w'.
Proof. intros Ho key o. rewrite Ho. by left. Qed.

Lemma objects_grow_by_trans P w1 w2 w3 :
  objects_grow_by P w1 w2 → objects_grow_by P w2 w3 →
  objects_grow_by P w1 w3.
Proof.
  intros H12 H23 key o Hlook.
  destruct (H23 _ _ Hlook) as [Hold|?]; [|by right]. by apply H12.
Qed.

(** Whatever handling a message adds to the store is the encoding of a
    JobResult with the upper-cased text as output. *)
Lemma handle_message_upper (a : App) (me : MessageEnv) (m : Message)
    (w : World) :
  objects_grow_by (is_upper_result a) w (world_of (handle_message a me m w)).
Proof.
  unfold handle_message, processMessage, PutObject, DeleteMessage. run.
  destruct (Body m); [|by apply objects_grow_by_refl].
  destruct (json_Unmarshal_JobMessage _) as [jm|];
    [|run; by apply objects_grow_by_refl].
  destruct (json_Marshal_JobResult _) as [rb|] eqn:Hm;
    [|run; by apply objects_grow_by_refl].
  destruct (s3Client a); [|by apply objects_grow_by_refl].
  destruct (put_fault me); [run; by apply objects_grow_by_refl|]. simpl.
  assert (Hput : ∀ w',
            objects w' = <[(s3Bucket a, job_key (msg_ID jm))
                           := json_object rb]> (objects w) →
            objects_grow_by (is_upper_result a) w w').
  { intros w' Ho key o. rewrite Ho.
    destruct (decide ((s3Bucket a, job_key (msg_ID jm)) = key)) as [<-|Hne].
    - rewrite lookup_insert_eq. intros [= <-]. right.
      eexists _, rb. split; [exact Hm|]. done.
    - rewrite lookup_insert_ne by done. by left. }
  destruct (sqsClient a); [|by apply Hput].
  destruct (delete_fault me); [run; by apply Hput|].
  destruct (ReceiptHandle m); [|run; by apply Hput]. simpl.
  destruct (queues w !! sqsURL a); run; by apply Hput.
Qed.

Lemma range_messages_upper (a : App) (envs : nat → MessageEnv)
    (msgs : list Message) :
  ∀ i w,
    objects_grow_by (is_upper_result a) w
      (world_of (range_messages a envs i msgs w)).
Proof.
  induction msgs as [|m msgs IH]; intros i w;
    [by apply objects_grow_by_refl|].
  simpl. run.
  pose proof (handle_message_upper a (envs i) m w) as Hh.
  destruct (handle_message a (envs i) m w) as [[] w1|msg w1]; simpl in *.
  - eapply objects_grow_by_trans; [exact Hh | apply IH].
  - done.
Qed.

Lemma iteration_upper (a : App) (e : IterationEnv) (w : World) :
  objects_grow_by (is_upper_result a) w
    (world_of (workerLoop_iteration a e w)).
Proof.
  unfold workerLoop_iteration, ReceiveMessage. run.
  destruct (sqsClient a); [|by apply objects_grow_by_refl].
  match goal with
  | |- context [EvReceiveMessage _ ?g] => destruct g as [msgs|err]
  end; [|run; by apply objects_grow_by_refl].
  match goal with
  | |- context [range_messages a ?envs 0 msgs ?w0] =>
      eapply objects_grow_by_trans;
        [|exact (range_messages_upper a envs msgs 0 w0)]
  end.
  by apply objects_grow_by_refl.
Qed.

(** X13.  In every state the running process can reach, started on an
    empty bucket, every stored object is the JSON encoding, typed
    application/json, of a JobResult whose output is [strings.ToUpper]
    of its text, and it sits at the key of that result's id in the
    bucket of the [App]. *)
Theorem store_holds_upper_results s :
  reachable s →
  ∀ key o, objects (sys_world s) !! key = Some o →
           is_upper_result (sys_app s) key o.
Proof.
  induction 1 as [s (_ & _ & _ & _ & Ho & _) | s s' _ IH Hstep];
    intros key o.
  - by rewrite Ho, lookup_empty.
  - destruct Hstep as [s e r _ | s e _ _]; simpl.
    + rewrite (proj1 (serveHTTP_quiet (sys_app s) e r (sys_world s))).
      apply IH.
    + intros Hlook.
      destruct (iteration_upper (sys_app s) e (sys_world s) _ _ Hlook)
        as [Hold|?]; [by apply IH|done].
Qed.

(** What [getJob] answers depends on the world through its objects
    only. *)
Lemma getJob_reads_objects (a : App) fault rw r (w1 w2 : World) :
  objects w1 = objects w2 →
  value_of (getJob a fault rw r w1) = value_of (getJob a fault rw r w2).
Proof.
  intros Ho. unfold getJob, GetObject. run.
  repeat case_match; simplify_eq/=; try done; congruence.
Qed.

(** X14.  A process whose worker is not enabled never writes to the
    store.  From any state, whatever the bucket holds at that moment,
    and through any number of requests, the [App] and the objects stay
    as they are, so every GET on /jobs/{id} is answered as it would have
    been at the start: a result the bucket already held is still served,
    and an id without an object still has none. *)
Theorem disabled_worker_never_writes (s s' : System) :
  rtc step s s' →
  sys_worker s = false →
  sys_app s' = sys_app s ∧ sys_worker s' = false ∧
  objects (sys_world s') = objects (sys_world s) ∧
  ∀ fault r,
    value_of (getJob (sys_app s') fault Http.new_writer r (sys_world s'))
    = value_of (getJob (sys_app s) fault Http.new_writer r (sys_world s)).
Proof.
  intros Hsteps Hoff.
  assert (Hall : sys_app s' = sys_app s ∧ sys_worker s' = false ∧
                 objects (sys_world s') = objects (sys_world s)).
  { induction Hsteps as [s|s s1 s' Hstep _ IH]; [done|].
    destruct Hstep as [s e r _ | s e _ Hon]; [|congruence].
    destruct (IH Hoff) as (Ha & Hw & Ho). simpl in *.
    rewrite Ha, Ho. split; [done|]. split; [done|].
    apply (proj1 (serveHTTP_quiet (sys_app s) e r (sys_world s))). }
  destruct Hall as (Ha & Hw & Ho). repeat split; try done.
  intros fault r. rewrite Ha. by apply getJob_reads_objects.
Qed.
(** X15.  An id that was never processed is not found: in every
    reachable state, for every non-empty id [X] such that no message
    carrying [X] was dequeued and then stored, a GET on /jobs/X is
    answered 404 with the text [job not found], whatever the store
    service answers. *)
Theorem unprocessed_id_not_found s (X : string) (fault : option string)
    (r : Http.Request) :
  reachable s →
  X ≠ "" →
  ¬ processed (sys_app s) X (events (sys_world s)) →
  Http.Method r = Http.MethodGet →
  Http.Path r = "/jobs/" +:+ X →
  ∃ w',
    getJob (sys_app s) fault Http.new_writer r (sys_world s)
    = Done (Http.Error Http.new_writer "job not found" 404) w' ∧
    Http.status (Http.Error Http.new_writer "job not found" 404) = 404%Z ∧
    objects w' = objects (sys_world s).
Proof.
  intros Hreach HX Hnot Hget Hpath.
  destruct (reachable_app s Hreach) as (getenv & load & Hm).
  destruct (main_clients _ _ _ _ _ Hm) as [_ Hs].
  destruct (reachable_store_invariant s Hreach) as (Hi & Hii & _).
  assert (Hnone : objects (sys_world s) !! (s3Bucket (sys_app s), job_key X)
                  = None).
  { apply eq_None_not_Some. intros Hsome. apply Hi in Hsome as [body Hin].
    destruct (Hii _ _ _ Hin) as (_ & X' & Hk & HX').
    apply job_key_inj in Hk as <-. done. }
  unfold getJob, GetObject. rewrite Hget, Hpath, slice_jobs_prefix. run.
  rewrite bool_decide_eq_false_2 by done.
  destruct (s3Client (sys_app s)); [|done].
  rewrite Hnone. destruct fault; eauto.
Qed.

End Store.

(* --------------------------------------------------------------------- *)
(** ** The transform on ASCII text                                        *)
(* --------------------------------------------------------------------- *)

Section Transform.
Context `{Unicode}.

Lemma upper_byte_not_lower c :
  Strings.is_ascii_byte c = true →
  Strings.is_lower (Strings.upper_byte c) = false.
Proof.
  unfold Strings.upper_byte. destruct (Strings.is_lower c) eqn:Hl; [|done].
  intros _. unfold Strings.is_lower, byte_val in *.
  apply andb_true_iff in Hl as [Hlo Hhi].
  apply N.leb_le in Hlo. apply N.leb_le in Hhi.
  rewrite N_ascii_embedding by lia.
  apply andb_false_iff. left. apply N.leb_gt. lia.
Qed.

Lemma upper_byte_ascii c :
  Strings.is_ascii_byte c = true →
  Strings.is_ascii_byte (Strings.upper_byte c) = true.
Proof.
  unfold Strings.upper_byte. destruct (Strings.is_lower c) eqn:Hl; [|done].
  unfold Strings.is_ascii_byte, Strings.is_lower, Strings.RuneSelf,
    byte_val in *.
  intros Ha. apply N.ltb_lt in Ha. rewrite N_ascii_embedding by lia.
  apply N.ltb_lt. lia.
Qed.

Lemma string_map_length f s :
  String.length (string_map f s) = String.length s.
Proof. induction s as [|c s IH]; simpl; [done|]. by rewrite IH. Qed.

(** X16.  On text made of ASCII bytes [strings.ToUpper] keeps the
    length, returns ASCII text without any lower-case letter, leaves
    text without lower-case letters as it is, and is idempotent: the
    output of a job, processed again, is its own output. *)
Theorem ToUpper_on_ascii (t : string) :
  string_forallb Strings.is_ascii_byte t = true →
  String.length (Strings.ToUpper t) = String.length t ∧
  string_forallb Strings.is_ascii_byte (Strings.ToUpper t) = true ∧
  string_existsb Strings.is_lower (Strings.ToUpper t) = false ∧
  (string_existsb Strings.is_lower t = false → Strings.ToUpper t = t) ∧
  Strings.ToUpper (Strings.ToUpper t) = Strings.ToUpper t.
Proof.
  intros Ha.
  assert (Hmap : Strings.ToUpper t = string_map Strings.upper_byte t).
  { unfold Strings.ToUpper. rewrite Ha.
    destruct (string_existsb Strings.is_lower t) eqn:Hlow; [done|]. simpl.
    clear Ha. induction t as [|c t IH]; [done|].
    simpl in *. apply orb_false_iff in Hlow as [Hc Ht].
    rewrite <- IH by done. unfold Strings.upper_byte. by rewrite Hc. }
  assert (Hascii : string_forallb Strings.is_ascii_byte
                     (string_map Strings.upper_byte t) = true).
  { clear Hmap. induction t as [|c t IH]; [done|]. simpl in *.
    apply andb_true_iff in Ha as [Hc Ht].
    by rewrite upper_byte_ascii, IH. }
  assert (Hnolow : string_existsb Strings.is_lower
                     (string_map Strings.upper_byte t) = false).
  { clear Hmap Hascii. induction t as [|c t IH]; [done|]. simpl in *.
    apply andb_true_iff in Ha as [Hc Ht].
    by rewrite upper_byte_not_lower, IH. }
  assert (Hfix : ∀ u, string_forallb Strings.is_ascii_byte u = true →
                      string_existsb Strings.is_lower u = false →
                      Strings.ToUpper u = u).
  { intros u Hu Hl. unfold Strings.ToUpper. by rewrite Hu, Hl. }
  rewrite Hmap.
  split; [apply string_map_length|]. split; [done|]. split; [done|].
  split; [intros Hl; rewrite <- Hmap; by apply Hfix|].
  by apply Hfix.
Qed.

End Transform.

(* --------------------------------------------------------------------- *)
(** ** From submission to retrieval                                       *)
(* --------------------------------------------------------------------- *)

Section EndToEnd.
Context `{Json} `{Unicode}.

Lemma uuid_not_empty bytes : Uuid.to_string bytes ≠ "".
Proof.
  intros Hempty. pose proof (uuid_well_formed bytes) as Hwf.
  rewrite Hempty in Hwf. discriminate.
Qed.

(** X17.  The three operations compose.  Let a POST on /jobs carry a
    body that decodes to a request with text [T], let every remote call
    succeed, and let the JSON package read back the message and the
    result it writes.  Then the POST is answered 201 with the drawn id
    [J]; the next turn of the worker, handed the new message, stores the
    result for [J] and acknowledges the message, which is then gone from
    the queue; and a GET on /jobs/J is answered 200 with the encoding of
    a JobResult whose id is [J], whose text is [T] and whose output is
    [strings.ToUpper T]. *)
Theorem submit_process_fetch (a : App) (c1 : SQSClient) (c2 : S3Client)
    (bytes : N) (r g : Http.Request) (req : JobRequest) (mb rb : string)
    (q : list Message) (t : Time) (w : World) :
  let J := Uuid.to_string bytes in
  let T := req_Text req in
  let R := {| ID := J; Text := T; Output := Strings.ToUpper T;
              ProcessedAt := t |} in
  let turn := {| receive := Ok [length q];
                 message_env := λ _, {| now := t; put_fault := None;
                                        delete_fault := None |} |} in
  let submitted := createJob a (Some bytes) None Http.new_writer r w in
  let w2 := world_of (workerLoop_iteration a turn (world_of submitted)) in
  sqsClient a = Some c1 →
  s3Client a = Some c2 →
  queues w !! sqsURL a = Some q →
  Http.Method r = Http.MethodPost →
  json_Decode_JobRequest (Http.ReqBody r) = Ok req →
  json_Marshal_JobMessage {| msg_ID := J; msg_Text := T |} = Ok mb →
  json_Unmarshal_JobMessage mb = Ok {| msg_ID := J; msg_Text := T |} →
  json_Marshal_JobResult R = Ok rb →
  reads_back R →
  Http.Method g = Http.MethodGet →
  Http.Path g = "/jobs/" +:+ J →
  Http.status <$> value_of submitted = Some 201%Z ∧
  objects w2 !! (s3Bucket a, job_key J) = Some (json_object rb) ∧
  (∃ q2, queues w2 !! sqsURL a = Some q2 ∧ q2 `sublist_of` q ∧
         ∀ m, m ∈ q2 → ReceiptHandle m ≠ Some (receipt_of (next_receipt w))) ∧
  ∃ R' rw w3,
    getJob a None Http.new_writer g w2 = Done rw w3 ∧
    Http.status rw = 200%Z ∧
    ID R' = J ∧ Text R' = T ∧ Output R' = Strings.ToUpper T ∧
    rw = Encode_to (Http.Header_Set "Content-Type" "application/json"
                      Http.new_writer)
           (json_Marshal_JobResult R').
Proof.
  intros J T R turn submitted w2 Hc1 Hc2 Hq Hpost Hdec Hmb Hback Hrb Hread
    Hget Hpath.
  set (m0 := {| Body := Some mb;
                ReceiptHandle := Some (receipt_of (next_receipt w)) |}).
  set (w1 := {| queues := <[sqsURL a := q ++ [m0]]> (queues w);
                objects := objects w;
                next_receipt := S (next_receipt w);
                events := events w ++ [EvSendMessage (sqsURL a) mb true] |}).
  assert (Hsub : submitted
                 = Done (Encode_to
                           (Http.WriteHeader Http.StatusCreated
                              (Http.Header_Set "Content-Type"
                                 "application/json" Http.new_writer))
                           (json_Marshal_id_map J)) w1).
  { subst submitted. unfold createJob, SendMessage.
    rewrite Hpost, Hdec. simpl. fold J T. rewrite Hmb, Hc1. run.
    by rewrite Hq. }
  set (w1' := add_events w1 [EvReceiveMessage (sqsURL a) (Ok [m0])]).
  set (key := job_key J).
  assert (Hw2 : w2 = {| queues := <[sqsURL a :=
                                     filter (λ m, has_handle
                                                    (receipt_of (next_receipt w)) m
                                                  = false) (q ++ [m0])]>
                                   (queues w1);
                        objects := <[(s3Bucket a, key) := json_object rb]>
                                     (objects w);
                        next_receipt := S (next_receipt w);
                        events := events w1' ++
                                  [EvPutObject (s3Bucket a) key rb true;
                                   EvDeleteMessage (sqsURL a)
                                     (ReceiptHandle m0) true] |}).
  { subst w2. rewrite Hsub. simpl.
    unfold workerLoop_iteration, ReceiveMessage. rewrite Hc1. run.
    rewrite lookup_insert_eq.
    rewrite (list_lookup_middle q [] m0 (length q) eq_refl). simpl. run.
    unfold handle_message. run.
    rewrite (processMessage_run a c2 t None m0 mb
               {| msg_ID := J; msg_Text := T |} rb _ Hc2 eq_refl Hback Hrb).
    unfold DeleteMessage. rewrite Hc1. run.
    rewrite lookup_insert_eq. simpl. by rewrite <- !app_assoc. }
  assert (Hobj : objects w2 !! (s3Bucket a, job_key J)
                 = Some (json_object rb)).
  { rewrite Hw2. simpl. apply lookup_insert_eq. }
  split; [|split; [|split]].
  - rewrite Hsub. simpl. f_equal.
    by destruct (json_Marshal_id_map J).
  - exact Hobj.
  - rewrite Hw2. simpl. rewrite lookup_insert_eq.
    eexists. split; [reflexivity|]. split.
    + rewrite filter_app. rewrite (filter_cons_False _ m0).
      * rewrite filter_nil, app_nil_r. apply sublist_filter.
      * unfold has_handle, m0. simpl. rewrite bool_decide_eq_true_2; done.
    + intros m Hin. apply list_elem_of_filter in Hin as [Hh _].
      unfold has_handle in Hh. apply bool_decide_eq_false in Hh. done.
  - destruct (Hread rb Hrb) as (R' & HdecR & HID & HText & HOut).
    exists R'. unfold getJob, GetObject.
    rewrite Hget, Hpath, slice_jobs_prefix, Hc2. run.
    rewrite ?bool_decide_eq_false_2 by apply uuid_not_empty.
    rewrite Hobj. simpl. rewrite HdecR.
    eexists _, _. split; [reflexivity|].
    split; [by apply status_Encode_to|]. done.
Qed.

End EndToEnd.

(* --------------------------------------------------------------------- *)
(** ** Redelivery                                                         *)
(* --------------------------------------------------------------------- *)

Section Redelivery.
Context `{Json} `{Unicode}.

(** Handling a message whose result is stored and whose acknowledgment
    succeeds. *)
Lemma handle_message_acked (a : App) (c1 : S3Client) (c2 : SQSClient)
    (me : MessageEnv) (m : Message) (body : string) (jm : JobMessage)
    (rb h : string) (q : list Message) (w : World) :
  s3Client a = Some c1 →
  sqsClient a = Some c2 →
  Body m = Some body →
  json_Unmarshal_JobMessage body = Ok jm →
  json_Marshal_JobResult
    {| ID := msg_ID jm; Text := msg_Text jm;
       Output := Strings.ToUpper (msg_Text jm); ProcessedAt := now me |}
  = Ok rb →
  put_fault me = None →
  delete_fault me = None →
  ReceiptHandle m = Some h →
  queues w !! sqsURL a = Some q →
  handle_message a me m w
  = Done tt
      {| queues := <[sqsURL a := filter (λ m', has_handle h m' = false) q]>
                     (queues w);
         objects := <[(s3Bucket a, job_key (msg_ID jm)) := json_object rb]>
                      (objects w);
         next_receipt := next_receipt w;
         events := events w ++
                   [EvPutObject (s3Bucket a) (job_key (msg_ID jm)) rb true;
                    EvDeleteMessage (sqsURL a) (Some h) true] |}.
Proof.
  intros Hc1 Hc2 Hb Hu Hm Hp Hd Hh Hq. unfold handle_message. run.
  rewrite (processMessage_run a c1 (now me) (put_fault me) m body jm rb w
             Hc1 Hb Hu Hm), Hp.
  unfold DeleteMessage. rewrite Hc2, Hd, Hh. run. rewrite Hq. run.
  by rewrite <- !app_assoc.
Qed.

(** X18.  A duplicate delivery is harmless.  Let a message be handled
    twice, the first time with the result stored but the acknowledgment
    failing, the second time with both succeeding.  Both times handling
    ends normally; afterwards the store differs from the initial one in
    the single object at the key of the id, which is the encoding of the
    second result, and the message is gone from the queue, whose other
    messages are untouched. *)
Theorem redelivery_overwrites (a : App) (c1 : S3Client) (c2 : SQSClient)
    (me1 me2 : MessageEnv) (m : Message) (body : string) (jm : JobMessage)
    (rb1 rb2 h err : string) (q : list Message) (w : World) :
  s3Client a = Some c1 →
  sqsClient a = Some c2 →
  Body m = Some body →
  json_Unmarshal_JobMessage body = Ok jm →
  json_Marshal_JobResult
    {| ID := msg_ID jm; Text := msg_Text jm;
       Output := Strings.ToUpper (msg_Text jm); ProcessedAt := now me1 |}
  = Ok rb1 →
  json_Marshal_JobResult
    {| ID := msg_ID jm; Text := msg_Text jm;
       Output := Strings.ToUpper (msg_Text jm); ProcessedAt := now me2 |}
  = Ok rb2 →
  put_fault me1 = None → delete_fault me1 = Some err →
  put_fault me2 = None → delete_fault me2 = None →
  ReceiptHandle m = Some h →
  queues w !! sqsURL a = Some q →
  ∃ w1 w2,
    handle_message a me1 m w = Done tt w1 ∧
    handle_message a me2 m w1 = Done tt w2 ∧
    objects w2
    = <[(s3Bucket a, job_key (msg_ID jm)) := json_object rb2]> (objects w) ∧
    queues w1 = queues w ∧
    queues w2 !! sqsURL a = Some (filter (λ m', has_handle h m' = false) q) ∧
    (∀ url, url ≠ sqsURL a → queues w2 !! url = queues w !! url).
Proof.
  intros Hc1 Hc2 Hb Hu Hm1 Hm2 Hp1 Hd1 Hp2 Hd2 Hh Hq.
  assert (Hq1 : queues
                  (add_events (put_world a (job_key (msg_ID jm)) rb1 w)
                     [EvDeleteMessage (sqsURL a) (ReceiptHandle m) false;
                      EvLog ("failed to delete message: " +:+ err)])
                  !! sqsURL a = Some q) by done.
  eexists _, _. split; [|split].
  - unfold handle_message. run.
    rewrite (processMessage_run a c1 (now me1) (put_fault me1) m body jm rb1
               w Hc1 Hb Hu Hm1), Hp1.
    unfold DeleteMessage. rewrite Hc2, Hd1. run. reflexivity.
  - match goal with
    | |- handle_message _ _ _ ?w1 = _ =>
        apply (handle_message_acked a c1 c2 me2 m body jm rb2 h q w1
                 Hc1 Hc2 Hb Hu Hm2 Hp2 Hd2 Hh)
    end.
    exact Hq.
  - simpl. split; [apply insert_insert_eq|]. split; [done|].
    split; [apply lookup_insert_eq|].
    intros url Hne. by rewrite lookup_insert_ne.
Qed.

Lemma only_adds_refl w : only_adds w w.
Proof. split; [done|]. by intros key. Qed.

Lemma only_adds_trans w1 w2 w3 :
  only_adds w1 w2 → only_adds w2 w3 → only_adds w1 w3.
Proof.
  intros [Hp1 Hk1] [Hp2 Hk2]. split; [by etrans|].
  intros key Hsome. by apply Hk2, Hk1.
Qed.

Lemma iteration_only_adds (a : App) (e : IterationEnv) (w : World) :
  only_adds w (world_of (workerLoop_iteration a e w)).
Proof.
  destruct (iteration_trace a e w)
    as [-> | [(err & evs & He & _ & Ho & _)
             | (msgs & w1 & evs & He1 & Ho1 & He & _ & _ & Hs & _)]].
  - apply only_adds_refl.
  - split; [rewrite He; by apply prefix_app_r|]. intros key. by rewrite Ho.
  - split.
    + rewrite He, He1, <- app_assoc. by apply prefix_app_r.
    + intros [b k] Hsome. apply Hs. left. by rewrite Ho1.
Qed.

(** X19.  The worker never removes a stored result and never rewrites
    the history: over any number of turns of the loop, the events so far
    stay a prefix of the events afterwards and every object that existed
    still exists (possibly overwritten by a later result for the same
    id). *)
Theorem worker_only_adds (a : App) (script : list IterationEnv) (w : World) :
  only_adds w (world_of (workerLoop a script w)).
Proof.
  revert w. induction script as [|e script IH]; intros w;
    [apply only_adds_refl|].
  simpl. run.
  pose proof (iteration_only_adds a e w) as Hi.
  destruct (workerLoop_iteration a e w) as [[] w1|msg w1]; simpl in *.
  - eapply only_adds_trans; [exact Hi | apply IH].
  - done.
Qed.

End Redelivery.
Section Witnesses.
#[local] Existing Instance GoJson.go_json.
#[local] Existing Instance GoUnicode.go_unicode.

Lemma sys0_reachable : reachable Fixtures.sys0.
Proof.
  apply reachable_start. exists Fixtures.getenv, Fixtures.load.
  repeat split; reflexivity.
Defined.

Lemma readyz_always_ready_witness :
  reachable Fixtures.sys0 ∧
  Http.Method (Fixtures.get "/readyz") = Http.MethodGet ∧
  readyz Fixtures.app Http.new_writer (Fixtures.get "/readyz")
  = ready_response.
Proof.
  split; [exact sys0_reachable|]. split; [reflexivity|].
  exact (proj1 (proj2 (proj2 (proj2
    (readyz_always_ready Fixtures.sys0 (Fixtures.get "/readyz")
       sys0_reachable eq_refl))))).
Defined.

Lemma world2_objects :
  objects Fixtures.world2 !! ("my-test-bucket", job_key Fixtures.job_id)
  = Some (json_object Fixtures.hello_result).
Proof. vm_compute. reflexivity. Qed.

Lemma getJob_error_mapping_witness :
  s3Client Fixtures.app = Some (mkS3 (mkConfig "us-east-1")) ∧
  Http.Method (Fixtures.get ("/jobs/" +:+ Fixtures.job_id)) = Http.MethodGet ∧
  Http.Path (Fixtures.get ("/jobs/" +:+ Fixtures.job_id))
  = "/jobs/" +:+ Fixtures.job_id ∧
  ∃ rw w',
    getJob Fixtures.app None Http.new_writer
      (Fixtures.get ("/jobs/" +:+ Fixtures.job_id)) Fixtures.world2
    = Done rw w' ∧
    objects w' = objects Fixtures.world2.
Proof.
  split; [reflexivity|]. split; [reflexivity|]. split; [reflexivity|].
  destruct (getJob_error_mapping Fixtures.app (mkS3 (mkConfig "us-east-1"))
              Fixtures.job_id None
              (Fixtures.get ("/jobs/" +:+ Fixtures.job_id)) Fixtures.world2
              eq_refl eq_refl eq_refl)
    as (rw & w' & Hrun & _ & Hobj & _).
  exists rw, w'. split; [exact Hrun | exact Hobj].
Defined.

(** The stored hello job is fetched with status 200 and its own bytes. *)
Example getJob_hello :
  (λ rw, (Http.status rw, Http.rw_body rw)) <$>
    value_of (getJob Fixtures.app None Http.new_writer
                (Fixtures.get ("/jobs/" +:+ Fixtures.job_id)) Fixtures.world2)
  = Some (200%Z, Fixtures.hello_result +:+ newline).
Proof. vm_compute. reflexivity. Qed.

Lemma createJob_rejected_body_witness :
  Http.Method (Fixtures.post "/jobs" "{oops") = Http.MethodPost ∧
  unfit_body "{oops" ∧
  createJob Fixtures.app (Some Fixtures.dice) None Http.new_writer
    (Fixtures.post "/jobs" "{oops") Fixtures.world0
  = Done (Http.Error Http.new_writer "invalid JSON" 400) Fixtures.world0.
Proof.
  assert (Hun : unfit_body "{oops") by (vm_compute; exact I).
  split; [reflexivity|]. split; [exact Hun|].
  exact (proj1 (proj1 (createJob_rejected_body Fixtures.app
                         (Some Fixtures.dice) None
                         (Fixtures.post "/jobs" "{oops") Fixtures.world0
                         eq_refl) Hun)).
Defined.

(** C8 as stated fails: a body that is not a JSON text, because bytes
    follow its first value, is accepted with 201 and a message is
    enqueued. *)
Lemma createJob_trailing_bytes_accepted :
  GoJson.valid Fixtures.trailing_body = false ∧
  Http.status <$>
    value_of (createJob Fixtures.app (Some Fixtures.dice) None
                Http.new_writer
                (Fixtures.post "/jobs" Fixtures.trailing_body)
                Fixtures.world0)
  = Some 201%Z ∧
  queues (world_of (createJob Fixtures.app (Some Fixtures.dice) None
                      Http.new_writer
                      (Fixtures.post "/jobs" Fixtures.trailing_body)
                      Fixtures.world0)) !! Fixtures.queue_url
  = Some [ {| Body := Some Fixtures.hello_message;
              ReceiptHandle := Some "rh-0" |} ].
Proof. repeat split; vm_compute; reflexivity. Qed.

Lemma createJob_enqueues_once_witness :
  sqsClient Fixtures.app = Some (mkSQS (mkConfig "us-east-1")) ∧
  Http.Method (Fixtures.post "/jobs" Fixtures.hello_body) = Http.MethodPost ∧
  json_Decode_JobRequest Fixtures.hello_body = Ok {| req_Text := "hello" |} ∧
  json_Marshal_JobMessage
    {| msg_ID := Uuid.to_string Fixtures.dice; msg_Text := "hello" |}
  = Ok Fixtures.hello_message ∧
  Uuid.well_formed (Uuid.to_string Fixtures.dice) = true.
Proof.
  split; [reflexivity|]. split; [reflexivity|].
  split; [vm_compute; reflexivity|]. split; [vm_compute; reflexivity|].
  exact (proj1 (createJob_enqueues_once (H:=GoJson.go_json) Fixtures.app
                  (mkSQS (mkConfig "us-east-1")) Fixtures.dice None
                  (Fixtures.post "/jobs" Fixtures.hello_body)
                  Fixtures.world0 {| req_Text := "hello" |}
                  Fixtures.hello_message
                  eq_refl eq_refl ltac:(vm_compute; reflexivity)
                  ltac:(vm_compute; reflexivity))).
Defined.

(** C3 as stated fails: the body decodes as a JobRequest, yet the answer
    is 500 and nothing is enqueued, because [SendMessage] failed. *)
Lemma createJob_send_failure :
  json_Decode_JobRequest Fixtures.hello_body = Ok {| req_Text := "hello" |} ∧
  Http.status <$>
    value_of (createJob Fixtures.app (Some Fixtures.dice)
                (Some "RequestTimeout") Http.new_writer
                (Fixtures.post "/jobs" Fixtures.hello_body) Fixtures.world0)
  = Some 500%Z ∧
  queues (world_of (createJob Fixtures.app (Some Fixtures.dice)
                      (Some "RequestTimeout") Http.new_writer
                      (Fixtures.post "/jobs" Fixtures.hello_body)
                      Fixtures.world0)) !! Fixtures.queue_url
  = Some [].
Proof. repeat split; vm_compute; reflexivity. Qed.

Lemma createJob_missing_text_witness :
  sqsClient Fixtures.app = Some (mkSQS (mkConfig "us-east-1")) ∧
  Http.Method (Fixtures.post "/jobs" "{}") = Http.MethodPost ∧
  GoJson.parse "{}" = Some (GoJson.JObject [], "") ∧
  queues Fixtures.world0 !! sqsURL Fixtures.app = Some [] ∧
  lacks_text (GoJson.JObject []) ∧
  json_Decode_JobRequest "{}" = Ok {| req_Text := "" |}.
Proof.
  split; [reflexivity|]. split; [reflexivity|]. split; [vm_compute; reflexivity|].
  split; [vm_compute; reflexivity|]. split; [constructor|].
  exact (proj1 (proj1 (createJob_missing_text Fixtures.app
                         (mkSQS (mkConfig "us-east-1")) Fixtures.dice
                         (Fixtures.post "/jobs" "{}") Fixtures.world0 []
                         (GoJson.JObject []) ""
                         eq_refl eq_refl ltac:(vm_compute; reflexivity)
                         ltac:(vm_compute; reflexivity))
                      (Forall_nil_2 _))).
Defined.

(** C10 as stated fails: [[]] is a JSON text without a [text] field,
    and it is answered 400 with nothing enqueued. *)
Lemma createJob_array_rejected :
  GoJson.valid "[]" = true ∧
  GoJson.parse "[]" = Some (GoJson.JArray [], "") ∧
  Http.status <$>
    value_of (createJob Fixtures.app (Some Fixtures.dice) None
                Http.new_writer (Fixtures.post "/jobs" "[]") Fixtures.world0)
  = Some 400%Z ∧
  queues (world_of (createJob Fixtures.app (Some Fixtures.dice) None
                      Http.new_writer (Fixtures.post "/jobs" "[]")
                      Fixtures.world0)) !! Fixtures.queue_url
  = Some [] ∧
  events (world_of (createJob Fixtures.app (Some Fixtures.dice) None
                      Http.new_writer (Fixtures.post "/jobs" "[]")
                      Fixtures.world0))
  = [].
Proof. repeat split; vm_compute; reflexivity. Qed.

Lemma sys1_reachable : reachable Fixtures.sys1.
Proof.
  exact (reachable_step _ _ sys0_reachable
           (step_request Fixtures.sys0 Fixtures.calm_request
              (Fixtures.post "/jobs" Fixtures.hello_body) eq_refl)).
Defined.

Lemma sys2_reachable : reachable Fixtures.sys2.
Proof.
  exact (reachable_step _ _ sys1_reachable
           (step_worker Fixtures.sys1 Fixtures.tick eq_refl eq_refl)).
Defined.

Lemma lifecycle_invariant_witness :
  reachable Fixtures.sys2 ∧
  (is_Some (objects (sys_world Fixtures.sys2)
              !! ("my-test-bucket", job_key Fixtures.job_id))
   ↔ processed Fixtures.app Fixtures.job_id
       (events (sys_world Fixtures.sys2))).
Proof.
  split; [exact sys2_reachable|].
  exact (proj1 (lifecycle_invariant Fixtures.sys2 sys2_reachable)
           Fixtures.job_id).
Defined.

(** After the two steps the hello job is stored. *)
Example sys2_has_result :
  objects (sys_world Fixtures.sys2)
    !! ("my-test-bucket", job_key Fixtures.job_id)
  = Some (json_object Fixtures.hello_result).
Proof. vm_compute. reflexivity. Qed.

Lemma ack_after_store_witness :
  s3Client Fixtures.app = Some (mkS3 (mkConfig "us-east-1")) ∧
  ∃ new,
    events (world_of (workerLoop_iteration Fixtures.app Fixtures.tick
                        Fixtures.world1))
    = events Fixtures.world1 ++ new.
Proof.
  split; [reflexivity|].
  destruct (proj1 (ack_after_store Fixtures.app (mkS3 (mkConfig "us-east-1"))
                     eq_refl) Fixtures.tick Fixtures.world1)
    as (new & He & _).
  by exists new.
Defined.

(** The turn of the worker on the hello job: receive, store, delete. *)
Example worker_turn_events :
  events Fixtures.world2
  = [ EvSendMessage Fixtures.queue_url Fixtures.hello_message true;
      EvReceiveMessage Fixtures.queue_url (Ok [Fixtures.hello_delivery]);
      EvPutObject "my-test-bucket" (job_key Fixtures.job_id)
        Fixtures.hello_result true;
      EvDeleteMessage Fixtures.queue_url (Some "rh-0") true ].
Proof. vm_compute. reflexivity. Qed.

Lemma hello_unmarshal :
  json_Unmarshal_JobMessage Fixtures.hello_message
  = Ok {| msg_ID := Fixtures.job_id; msg_Text := "hello" |}.
Proof. vm_compute. reflexivity. Qed.

Lemma hello_processed :
  processMessage Fixtures.app Fixtures.noon None Fixtures.hello_delivery
    Fixtures.world1
  = Done (Ok tt)
      (put_world Fixtures.app (job_key Fixtures.job_id) Fixtures.hello_result
         Fixtures.world1).
Proof.
  apply (processMessage_run Fixtures.app (mkS3 (mkConfig "us-east-1"))
           Fixtures.noon None Fixtures.hello_delivery Fixtures.hello_message
           {| msg_ID := Fixtures.job_id; msg_Text := "hello" |}
           Fixtures.hello_result Fixtures.world1 eq_refl eq_refl
           hello_unmarshal).
  vm_compute. reflexivity.
Qed.

Lemma hello_processed_again :
  processMessage Fixtures.app Fixtures.later None Fixtures.hello_delivery
    (put_world Fixtures.app (job_key Fixtures.job_id) Fixtures.hello_result
       Fixtures.world1)
  = Done (Ok tt)
      (put_world Fixtures.app (job_key Fixtures.job_id)
         Fixtures.hello_result_later
         (put_world Fixtures.app (job_key Fixtures.job_id)
            Fixtures.hello_result Fixtures.world1)).
Proof.
  apply (processMessage_run Fixtures.app (mkS3 (mkConfig "us-east-1"))
           Fixtures.later None Fixtures.hello_delivery Fixtures.hello_message
           {| msg_ID := Fixtures.job_id; msg_Text := "hello" |}
           Fixtures.hello_result_later _ eq_refl eq_refl hello_unmarshal).
  vm_compute. reflexivity.
Qed.

Lemma accent_unmarshal :
  json_Unmarshal_JobMessage Fixtures.accent_message
  = Ok {| msg_ID := Fixtures.job_id; msg_Text := "héllo" |}.
Proof. vm_compute. reflexivity. Qed.

Lemma accent_processed :
  processMessage Fixtures.app Fixtures.noon None Fixtures.accent_delivery
    Fixtures.world0
  = Done (Ok tt)
      (put_world Fixtures.app (job_key Fixtures.job_id)
         Fixtures.accent_result Fixtures.world0).
Proof.
  apply (processMessage_run Fixtures.app (mkS3 (mkConfig "us-east-1"))
           Fixtures.noon None Fixtures.accent_delivery
           Fixtures.accent_message
           {| msg_ID := Fixtures.job_id; msg_Text := "héllo" |}
           Fixtures.accent_result Fixtures.world0 eq_refl eq_refl
           accent_unmarshal).
  vm_compute. reflexivity.
Qed.

Lemma output_is_upper_witness :
  Body Fixtures.accent_delivery = Some Fixtures.accent_message ∧
  json_Unmarshal_JobMessage Fixtures.accent_message
  = Ok {| msg_ID := Fixtures.job_id; msg_Text := "héllo" |} ∧
  processMessage Fixtures.app Fixtures.noon None Fixtures.accent_delivery
    Fixtures.world0
  = Done (Ok tt)
      (put_world Fixtures.app (job_key Fixtures.job_id)
         Fixtures.accent_result Fixtures.world0) ∧
  ∃ R, Text R = "héllo" ∧ Output R = "HÉLLO".
Proof.
  split; [reflexivity|]. split; [exact accent_unmarshal|].
  split; [exact accent_processed|].
  destruct (proj1 (output_is_upper Fixtures.app Fixtures.noon None
                     Fixtures.accent_delivery Fixtures.accent_message
                     {| msg_ID := Fixtures.job_id; msg_Text := "héllo" |}
                     Fixtures.world0 _ eq_refl accent_unmarshal
                     accent_processed))
    as (R & rb & _ & _ & _ & HT & _ & HO & _).
  exists R. split; [exact HT|].
  exact (eq_trans HO ltac:(vm_compute; reflexivity)).
Defined.

(** The transform on the text of the hello job. *)
Example ToUpper_hello : Strings.ToUpper "hello" = "HELLO".
Proof. reflexivity. Qed.

(** Beyond ASCII the mapping is rune by rune: a letter without a
    single upper-case rune stays, a byte that starts no encoding becomes
    U+FFFD. *)
Example ToUpper_beyond_ascii :
  Strings.ToUpper "héllo wörld, straße ǆ" = "HÉLLO WÖRLD, STRAßE Ǆ".
Proof. vm_compute. reflexivity. Qed.

Lemma processing_is_idempotent_witness :
  Body Fixtures.hello_delivery = Some Fixtures.hello_message ∧
  json_Unmarshal_JobMessage Fixtures.hello_message
  = Ok {| msg_ID := Fixtures.job_id; msg_Text := "hello" |} ∧
  ∃ R1 R2,
    same_payload R1 R2 ∧
    ProcessedAt R1 = Fixtures.noon ∧ ProcessedAt R2 = Fixtures.later.
Proof.
  split; [reflexivity|]. split; [exact hello_unmarshal|].
  destruct (processing_is_idempotent Fixtures.app Fixtures.noon
              Fixtures.later None None Fixtures.hello_delivery
              Fixtures.hello_message
              {| msg_ID := Fixtures.job_id; msg_Text := "hello" |}
              Fixtures.world1 _ _ eq_refl hello_unmarshal
              hello_processed hello_processed_again)
    as (R1 & R2 & b1 & b2 & _ & _ & _ & _ & Hsame & _ & _ & _ & H1 & H2 & _).
  exists R1, R2. split; [exact Hsame|]. split; [exact H1 | exact H2].
Defined.

Lemma stored_result_fetched_witness :
  (0 <= nsec Fixtures.noon < 1000000000)%Z ∧
  processMessage Fixtures.app Fixtures.noon None Fixtures.hello_delivery
    Fixtures.world1
  = Done (Ok tt)
      (put_world Fixtures.app (job_key Fixtures.job_id) Fixtures.hello_result
         Fixtures.world1) ∧
  ∃ rw w3,
    getJob Fixtures.app None Http.new_writer
      (Fixtures.get ("/jobs/" +:+ Fixtures.job_id))
      (put_world Fixtures.app (job_key Fixtures.job_id) Fixtures.hello_result
         Fixtures.world1)
    = Done rw w3 ∧
    Http.status rw = 200%Z.
Proof.
  assert (Hns : (0 <= nsec Fixtures.noon < 1000000000)%Z) by (simpl; lia).
  split; [exact Hns|]. split; [exact hello_processed|].
  destruct (stored_result_fetched Fixtures.app Fixtures.noon None
              Fixtures.hello_delivery Fixtures.world1 _ Hns hello_processed)
    as (body & jm & R & rb & Hb & Hu & HR & _ & Hobj & Hget).
  assert (body = Fixtures.hello_message) as -> by (by injection Hb as <-).
  assert (jm = {| msg_ID := Fixtures.job_id; msg_Text := "hello" |}) as ->
    by (pose proof hello_unmarshal; congruence).
  subst R.
  destruct (Hget ltac:(done)
              (Fixtures.get ("/jobs/" +:+ Fixtures.job_id)) _ Hobj
              eq_refl eq_refl)
    as (R' & rb' & rw & w3 & Hrun & _ & Hst & _).
  exists rw, w3. split; [exact Hrun | exact Hst].
Defined.

(** C6 as stated fails: the result of a message without an id is stored
    at jobs/.json, and the GET on its id, the empty string, is answered
    400. *)
Lemma empty_id_not_fetched :
  ∃ rb,
    json_Marshal_JobResult Fixtures.anonymous_R = Ok rb ∧
    objects Fixtures.anonymous_world
      !! (s3Bucket Fixtures.app, job_key (ID Fixtures.anonymous_R))
    = Some (json_object rb) ∧
    Http.status <$>
      value_of (getJob Fixtures.app None Http.new_writer
                  (Fixtures.get ("/jobs/" +:+ ID Fixtures.anonymous_R))
                  Fixtures.anonymous_world)
    = Some 400%Z.
Proof. eexists. repeat split; vm_compute; reflexivity. Qed.

(* Witnesses of the further properties. *)

Lemma healthz_checks_nothing_witness :
  Http.Path (Fixtures.get "/healthz") = "/healthz" ∧
  ∃ rw,
    serveHTTP Fixtures.app Fixtures.calm_request (Fixtures.get "/healthz")
      Fixtures.world0
    = Done rw Fixtures.world0 ∧
    rw = healthz Fixtures.app Http.new_writer (Fixtures.get "/healthz").
Proof.
  split; [reflexivity|].
  destruct (healthz_checks_nothing (H:=GoJson.go_json) Fixtures.app
              Fixtures.calm_request (Fixtures.get "/healthz") Fixtures.world0
              eq_refl)
    as (rw & Hrun & Hrw & _).
  exists rw. split; [exact Hrun | exact Hrw].
Defined.

Lemma serveHTTP_never_panics_witness :
  sqsClient Fixtures.app ≠ None ∧ s3Client Fixtures.app ≠ None ∧
  rand_bytes Fixtures.calm_request ≠ None ∧
  ∃ rw w',
    serveHTTP Fixtures.app Fixtures.calm_request (Fixtures.get "/jobs/")
      Fixtures.world0
    = Done rw w'.
Proof.
  assert (H1 : sqsClient Fixtures.app ≠ None) by done.
  assert (H2 : s3Client Fixtures.app ≠ None) by done.
  assert (H3 : rand_bytes Fixtures.calm_request ≠ None) by done.
  split; [exact H1|]. split; [exact H2|]. split; [exact H3|].
  exact (serveHTTP_never_panics (H:=GoJson.go_json) Fixtures.app
           Fixtures.calm_request (Fixtures.get "/jobs/") Fixtures.world0
           H1 H2 H3).
Defined.

Lemma receive_failure_backs_off_witness :
  sqsClient Fixtures.app = Some (mkSQS (mkConfig "us-east-1")) ∧
  receive Fixtures.deaf_turn = Err "RequestTimeout" ∧
  workerLoop_iteration Fixtures.app Fixtures.deaf_turn Fixtures.world0
  = Done tt
      (add_events Fixtures.world0
         [EvReceiveMessage (sqsURL Fixtures.app) (Err "RequestTimeout");
          EvLog ("failed to receive message: " +:+ "RequestTimeout");
          EvSleep 5]).
Proof.
  split; [reflexivity|]. split; [reflexivity|].
  exact (proj1 (receive_failure_backs_off (H:=GoJson.go_json)
                  (H0:=GoUnicode.go_unicode) Fixtures.app
                  (mkSQS (mkConfig "us-east-1")) Fixtures.deaf_turn
                  Fixtures.world0 eq_refl)
           "RequestTimeout" eq_refl).
Defined.

Lemma hello_marshal :
  json_Marshal_JobResult
    {| ID := Fixtures.job_id; Text := "hello";
       Output := Strings.ToUpper "hello"; ProcessedAt := Fixtures.noon |}
  = Ok Fixtures.hello_result.
Proof. vm_compute. reflexivity. Qed.

Lemma delete_failure_is_logged_witness :
  s3Client Fixtures.app = Some (mkS3 (mkConfig "us-east-1")) ∧
  sqsClient Fixtures.app = Some (mkSQS (mkConfig "us-east-1")) ∧
  Body Fixtures.hello_delivery = Some Fixtures.hello_message ∧
  put_fault Fixtures.ack_lost = None ∧
  delete_fault Fixtures.ack_lost = Some "RequestTimeout" ∧
  handle_message Fixtures.app Fixtures.ack_lost Fixtures.hello_delivery
    Fixtures.world1
  = Done tt
      (add_events
         (put_world Fixtures.app (job_key Fixtures.job_id)
            Fixtures.hello_result Fixtures.world1)
         [EvDeleteMessage (sqsURL Fixtures.app)
            (ReceiptHandle Fixtures.hello_delivery) false;
          EvLog ("failed to delete message: " +:+ "RequestTimeout")]).
Proof.
  do 5 (split; [reflexivity|]).
  exact (proj1 (delete_failure_is_logged (H:=GoJson.go_json)
                  (H0:=GoUnicode.go_unicode) Fixtures.app
                  (mkS3 (mkConfig "us-east-1"))
                  (mkSQS (mkConfig "us-east-1")) Fixtures.ack_lost
                  Fixtures.hello_delivery Fixtures.hello_message
                  {| msg_ID := Fixtures.job_id; msg_Text := "hello" |}
                  Fixtures.hello_result "RequestTimeout" Fixtures.world1
                  eq_refl eq_refl eq_refl hello_unmarshal hello_marshal
                  eq_refl eq_refl)).
Defined.

Lemma nil_body_panics_witness :
  Body Fixtures.empty_delivery = None ∧
  processMessage Fixtures.app Fixtures.noon None Fixtures.empty_delivery
    Fixtures.world0
  = Panicked nil_deref Fixtures.world0.
Proof.
  split; [reflexivity|].
  exact (proj1 (nil_body_panics (H:=GoJson.go_json)
                  (H0:=GoUnicode.go_unicode) Fixtures.app
                  Fixtures.empty_delivery eq_refl)
           Fixtures.noon None Fixtures.world0).
Defined.

Lemma hello_not_other : ¬ carries Fixtures.hello_delivery "other".
Proof.
  intros (body & jm & Hb & Hu & Hid). injection Hb as <-.
  rewrite hello_unmarshal in Hu. injection Hu as <-. discriminate Hid.
Defined.

Lemma processing_is_isolated_witness :
  ¬ carries Fixtures.hello_delivery "other" ∧
  objects (world_of (handle_message Fixtures.app Fixtures.calm
                       Fixtures.hello_delivery Fixtures.world1))
    !! ("my-test-bucket", job_key "other")
  = objects Fixtures.world1 !! ("my-test-bucket", job_key "other").
Proof.
  split; [exact hello_not_other|].
  exact (processing_is_isolated (H:=GoJson.go_json)
           (H0:=GoUnicode.go_unicode) Fixtures.app Fixtures.calm
           Fixtures.hello_delivery Fixtures.world1 "my-test-bucket" "other"
           hello_not_other).
Defined.

Lemma store_holds_upper_results_witness :
  reachable Fixtures.sys2 ∧
  objects (sys_world Fixtures.sys2)
    !! ("my-test-bucket", job_key Fixtures.job_id)
  = Some (json_object Fixtures.hello_result) ∧
  is_upper_result Fixtures.app ("my-test-bucket", job_key Fixtures.job_id)
    (json_object Fixtures.hello_result).
Proof.
  split; [exact sys2_reachable|]. split; [exact sys2_has_result|].
  exact (store_holds_upper_results Fixtures.sys2 sys2_reachable _ _
           sys2_has_result).
Defined.

Lemma disabled_worker_never_writes_witness :
  rtc step Fixtures.sys_replica Fixtures.sys_replica1 ∧
  sys_worker Fixtures.sys_replica = false ∧
  objects (sys_world Fixtures.sys_replica1)
  = objects (sys_world Fixtures.sys_replica) ∧
  Http.status <$>
    value_of (getJob Fixtures.app None Http.new_writer
                (Fixtures.get ("/jobs/" +:+ Fixtures.job_id))
                (sys_world Fixtures.sys_replica1))
  = Some 200%Z.
Proof.
  assert (Hstep : rtc step Fixtures.sys_replica Fixtures.sys_replica1).
  { apply rtc_once.
    exact (step_request Fixtures.sys_replica Fixtures.calm_request
             (Fixtures.post "/jobs" Fixtures.hello_body) eq_refl). }
  destruct (disabled_worker_never_writes Fixtures.sys_replica
              Fixtures.sys_replica1 Hstep eq_refl)
    as (_ & _ & Hobj & Hsame).
  assert (Hheld :
    Http.status <$>
      value_of (getJob Fixtures.app None Http.new_writer
                  (Fixtures.get ("/jobs/" +:+ Fixtures.job_id))
                  (sys_world Fixtures.sys_replica))
    = Some 200%Z) by (vm_compute; reflexivity).
  split; [exact Hstep|]. split; [reflexivity|]. split; [exact Hobj|].
  exact (eq_trans
           (f_equal (fmap Http.status)
              (Hsame None (Fixtures.get ("/jobs/" +:+ Fixtures.job_id))))
           Hheld).
Defined.

Lemma nothing_processed_yet X : ¬ processed Fixtures.app X [].
Proof.
  intros (before & after & m & Heq & _ & _ & body & Hin).
  symmetry in Heq. apply app_eq_nil in Heq as [_ ->].
  by apply elem_of_nil in Hin.
Defined.

Lemma unprocessed_id_not_found_witness :
  reachable Fixtures.sys0 ∧
  Fixtures.job_id ≠ "" ∧
  ¬ processed Fixtures.app Fixtures.job_id [] ∧
  ∃ w',
    getJob Fixtures.app None Http.new_writer
      (Fixtures.get ("/jobs/" +:+ Fixtures.job_id)) Fixtures.world0
    = Done (Http.Error Http.new_writer "job not found" 404) w'.
Proof.
  assert (Hid : Fixtures.job_id ≠ "") by done.
  split; [exact sys0_reachable|]. split; [exact Hid|].
  split; [apply nothing_processed_yet|].
  destruct (unprocessed_id_not_found Fixtures.sys0 Fixtures.job_id None
              (Fixtures.get ("/jobs/" +:+ Fixtures.job_id))
              sys0_reachable Hid (nothing_processed_yet Fixtures.job_id)
              eq_refl eq_refl)
    as (w' & Hrun & _).
  by exists w'.
Defined.

Lemma ToUpper_on_ascii_witness :
  string_forallb Strings.is_ascii_byte "hello, world" = true ∧
  Strings.ToUpper (Strings.ToUpper "hello, world")
  = Strings.ToUpper "hello, world".
Proof.
  split; [reflexivity|].
  exact (proj2 (proj2 (proj2 (proj2
           (ToUpper_on_ascii "hello, world" eq_refl))))).
Defined.

Lemma hello_decode :
  json_Decode_JobRequest Fixtures.hello_body = Ok {| req_Text := "hello" |}.
Proof. vm_compute. reflexivity. Qed.

Lemma hello_message_marshal :
  json_Marshal_JobMessage
    {| msg_ID := Uuid.to_string Fixtures.dice; msg_Text := "hello" |}
  = Ok Fixtures.hello_message.
Proof. vm_compute. reflexivity. Qed.

Lemma hello_message_unmarshal :
  json_Unmarshal_JobMessage Fixtures.hello_message
  = Ok {| msg_ID := Uuid.to_string Fixtures.dice; msg_Text := "hello" |}.
Proof. vm_compute. reflexivity. Qed.

Lemma hello_result_marshal :
  json_Marshal_JobResult
    {| ID := Uuid.to_string Fixtures.dice; Text := "hello";
       Output := Strings.ToUpper "hello"; ProcessedAt := Fixtures.noon |}
  = Ok Fixtures.hello_result.
Proof. vm_compute. reflexivity. Qed.

Lemma hello_drawn_reads_back :
  reads_back
    {| ID := Uuid.to_string Fixtures.dice; Text := "hello";
       Output := Strings.ToUpper "hello"; ProcessedAt := Fixtures.noon |}.
Proof.
  intros rb Hm. exists Fixtures.hello_R. split.
  - rewrite hello_result_marshal in Hm. injection Hm as <-.
    vm_compute. reflexivity.
  - repeat split; vm_compute; reflexivity.
Defined.

Lemma submit_process_fetch_witness :
  sqsClient Fixtures.app = Some (mkSQS (mkConfig "us-east-1")) ∧
  s3Client Fixtures.app = Some (mkS3 (mkConfig "us-east-1")) ∧
  queues Fixtures.world0 !! sqsURL Fixtures.app = Some [] ∧
  json_Decode_JobRequest Fixtures.hello_body = Ok {| req_Text := "hello" |} ∧
  objects
    (world_of
       (workerLoop_iteration Fixtures.app
          {| receive := Ok [0];
             message_env := λ _, {| now := Fixtures.noon; put_fault := None;
                                    delete_fault := None |} |}
          (world_of (createJob Fixtures.app (Some Fixtures.dice) None
                       Http.new_writer
                       (Fixtures.post "/jobs" Fixtures.hello_body)
                       Fixtures.world0))))
    !! (s3Bucket Fixtures.app, job_key (Uuid.to_string Fixtures.dice))
  = Some (json_object Fixtures.hello_result).
Proof.
  assert (Hq : queues Fixtures.world0 !! sqsURL Fixtures.app = Some [])
    by (vm_compute; reflexivity).
  split; [reflexivity|]. split; [reflexivity|]. split; [exact Hq|].
  split; [exact hello_decode|].
  exact (proj1 (proj2
    (submit_process_fetch (H:=GoJson.go_json) (H0:=GoUnicode.go_unicode)
       Fixtures.app (mkSQS (mkConfig "us-east-1"))
       (mkS3 (mkConfig "us-east-1")) Fixtures.dice
       (Fixtures.post "/jobs" Fixtures.hello_body)
       (Fixtures.get ("/jobs/" +:+ Uuid.to_string Fixtures.dice))
       {| req_Text := "hello" |} Fixtures.hello_message Fixtures.hello_result
       [] Fixtures.noon Fixtures.world0
       eq_refl eq_refl Hq eq_refl hello_decode hello_message_marshal
       hello_message_unmarshal hello_result_marshal hello_drawn_reads_back
       eq_refl eq_refl))).
Defined.

Lemma hello_marshal_later :
  json_Marshal_JobResult
    {| ID := Fixtures.job_id; Text := "hello";
       Output := Strings.ToUpper "hello"; ProcessedAt := Fixtures.later |}
  = Ok Fixtures.hello_result_later.
Proof. vm_compute. reflexivity. Qed.

Lemma world1_queue :
  queues Fixtures.world1 !! sqsURL Fixtures.app
  = Some [Fixtures.hello_delivery].
Proof. vm_compute. reflexivity. Qed.

Lemma redelivery_overwrites_witness :
  s3Client Fixtures.app = Some (mkS3 (mkConfig "us-east-1")) ∧
  sqsClient Fixtures.app = Some (mkSQS (mkConfig "us-east-1")) ∧
  Body Fixtures.hello_delivery = Some Fixtures.hello_message ∧
  ReceiptHandle Fixtures.hello_delivery = Some "rh-0" ∧
  queues Fixtures.world1 !! sqsURL Fixtures.app
  = Some [Fixtures.hello_delivery] ∧
  ∃ w1 w2,
    handle_message Fixtures.app Fixtures.ack_lost Fixtures.hello_delivery
      Fixtures.world1 = Done tt w1 ∧
    handle_message Fixtures.app Fixtures.calm_later Fixtures.hello_delivery
      w1 = Done tt w2 ∧
    objects w2
    = <[(s3Bucket Fixtures.app, job_key Fixtures.job_id)
        := json_object Fixtures.hello_result_later]>
        (objects Fixtures.world1).
Proof.
  do 4 (split; [reflexivity|]). split; [exact world1_queue|].
  destruct (redelivery_overwrites (H:=GoJson.go_json)
              (H0:=GoUnicode.go_unicode) Fixtures.app
              (mkS3 (mkConfig "us-east-1")) (mkSQS (mkConfig "us-east-1"))
              Fixtures.ack_lost Fixtures.calm_later Fixtures.hello_delivery
              Fixtures.hello_message
              {| msg_ID := Fixtures.job_id; msg_Text := "hello" |}
              Fixtures.hello_result Fixtures.hello_result_later "rh-0"
              "RequestTimeout" [Fixtures.hello_delivery] Fixtures.world1
              eq_refl eq_refl eq_refl hello_unmarshal hello_marshal
              hello_marshal_later eq_refl eq_refl eq_refl eq_refl eq_refl
              world1_queue)
    as (w1 & w2 & H1 & H2 & Ho & _).
  exists w1, w2. split; [exact H1|]. split; [exact H2 | exact Ho].
Defined.

End Witnesses.

End Properties.
